(** * NFC message demo: the link codec, the deep-link listener and the tag
      handlers of [App.tsx], embedded in Rocq.

    The repository holds two revisions of the same component:
    - [src/App.tsx]: custom scheme [nfcmsg://read], decode checks the scheme
      only, one handler ([writeToTag]), no busy flags;
    - [src/unnamed/part_000]: web scheme [https://nfcmsg.test/read], decode
      checks scheme and host, two handlers ([writeToTag], [readTag]) and the
      two busy flags.

    The code leans on three platform facilities: the ECMAScript URI functions
    ([encodeURIComponent], [decodeURIComponent]), the [URL] class with its
    [searchParams], and the NFC binding.  The URI functions are modelled
    after ECMA-262.  The [URL] class is the one of React Native 0.81, on
    which the component runs; the URL Standard's parser is modelled next to
    it, as the reference for what the scheme, the host and the query of a
    URL are.  The NFC binding is an oracle that answers every call with a
    value or a thrown error. *)

From Stdlib Require Import ZArith List Bool Lia String Ascii.
Import ListNotations.
Open Scope Z_scope.

(** ** JavaScript strings and completions *)

(** A JavaScript string is a sequence of UTF-16 code units. *)
Definition jsstring := list Z.

Definition js (s : string) : jsstring :=
  map (fun a => Z.of_N (N_of_ascii a)) (list_ascii_of_string s).

(** What a [throw] carries, as far as the handlers look at it:
    [err?.message] and [String(err)]. *)
Record JsThrown : Type := mkThrown {
  thrown_message : option jsstring;
  thrown_string : jsstring
}.

Definition URIError : JsThrown :=
  mkThrown (Some (js "URI malformed")) (js "URIError: URI malformed").
Definition TypeError : JsThrown :=
  mkThrown (Some (js "Invalid URL")) (js "TypeError: Invalid URL").

(** A call either returns or throws. *)
Inductive Result (A : Type) : Type :=
| Ok (a : A)
| Throw (e : JsThrown).
Arguments Ok {A} a.
Arguments Throw {A} e.

Definition rbind {A B} (r : Result A) (k : A -> Result B) : Result B :=
  match r with
  | Ok a => k a
  | Throw e => Throw e
  end.

Definition rmap {A B} (f : A -> B) (r : Result A) : Result B :=
  rbind r (fun a => Ok (f a)).

(** [try { body } catch (err) { handler }] *)
Definition try_catch {A} (body : Result A) (handler : JsThrown -> Result A)
  : Result A :=
  match body with
  | Ok a => Ok a
  | Throw e => handler e
  end.

Declare Scope result_scope.
Delimit Scope result_scope with result.
Notation "x <- c ;; k" := (rbind c (fun x => k))
  (at level 61, c at next level, right associativity) : result_scope.

(** [console.log] has no effect on anything the component reads. *)
Definition console_log {A} (_ : A) : unit := tt.

(** ** Code units, code points, octets *)

Definition in_range (lo hi c : Z) : bool := (lo <=? c) && (c <=? hi).

Definition is_digit (c : Z) : bool := in_range 48 57 c.
Definition is_upper (c : Z) : bool := in_range 65 90 c.
Definition is_lower (c : Z) : bool := in_range 97 122 c.
Definition is_alpha (c : Z) : bool := is_upper c || is_lower c.
Definition is_alnum (c : Z) : bool := is_alpha c || is_digit c.
Definition is_hex (c : Z) : bool :=
  is_digit c || in_range 65 70 c || in_range 97 102 c.
Definition to_lower (c : Z) : Z := if is_upper c then c + 32 else c.

Definition mem (c : Z) (l : list Z) : bool := existsb (Z.eqb c) l.

Definition is_leading_surrogate (c : Z) : bool := in_range 55296 56319 c.
Definition is_trailing_surrogate (c : Z) : bool := in_range 56320 57343 c.
Definition is_surrogate (c : Z) : bool := in_range 55296 57343 c.

(** ECMA-262 UTF16SurrogatePairToCodePoint and UTF16EncodeCodePoint. *)
Definition UTF16SurrogatePairToCodePoint (lead trail : Z) : Z :=
  (lead - 55296) * 1024 + (trail - 56320) + 65536.

Definition UTF16EncodeCodePoint (cp : Z) : jsstring :=
  if cp <=? 65535 then [cp]
  else [(cp - 65536) / 1024 + 55296; (cp - 65536) mod 1024 + 56320].

(** UTF-8 encoding of one code point. *)
Definition utf8_encode_cp (cp : Z) : list Z :=
  if cp <=? 127 then [cp]
  else if cp <=? 2047 then
    [Z.lor 192 (Z.shiftr cp 6); Z.lor 128 (Z.land cp 63)]
  else if cp <=? 65535 then
    [Z.lor 224 (Z.shiftr cp 12);
     Z.lor 128 (Z.land (Z.shiftr cp 6) 63);
     Z.lor 128 (Z.land cp 63)]
  else
    [Z.lor 240 (Z.shiftr cp 18);
     Z.lor 128 (Z.land (Z.shiftr cp 12) 63);
     Z.lor 128 (Z.land (Z.shiftr cp 6) 63);
     Z.lor 128 (Z.land cp 63)].

Definition hex_digit (n : Z) : Z := if n <? 10 then 48 + n else 55 + n.

Definition hex_value (c : Z) : Z :=
  if is_digit c then c - 48
  else if in_range 65 70 c then c - 55
  else c - 87.

(** ["%XX"], upper-case hexadecimal, for one octet. *)
Definition percent_octet (b : Z) : list Z :=
  [37; hex_digit (Z.shiftr b 4); hex_digit (Z.land b 15)].

Definition percent_octets (bs : list Z) : list Z := flat_map percent_octet bs.

(** ** ECMA-262: [encodeURIComponent] and [decodeURIComponent] *)

(** uriUnreserved: letters, digits and the marks [-_.!~*'()]. *)
Definition uriUnreserved (c : Z) : bool :=
  is_alnum c || mem c [45; 95; 46; 33; 126; 42; 39; 40; 41].

(** Encode (string, extraUnescaped): code units of the unescaped set are
    copied; any other code point is written as the escapes of its UTF-8
    octets; an unpaired surrogate throws a URIError. *)
Fixpoint Encode (unescaped : Z -> bool) (s : jsstring) : Result jsstring :=
  match s with
  | [] => Ok []
  | c :: tl =>
      if unescaped c then rmap (cons c) (Encode unescaped tl)
      else if is_leading_surrogate c then
        match tl with
        | d :: tl' =>
            if is_trailing_surrogate d then
              let cp := UTF16SurrogatePairToCodePoint c d in
              rmap (app (percent_octets (utf8_encode_cp cp)))
                   (Encode unescaped tl')
            else Throw URIError
        | [] => Throw URIError
        end
      else if is_trailing_surrogate c then Throw URIError
      else rmap (app (percent_octets (utf8_encode_cp c))) (Encode unescaped tl)
  end.

Definition encodeURIComponent (s : jsstring) : Result jsstring :=
  Encode uriUnreserved s.

(** ParseHexOctet on the two code units after a ["%"]. *)
Definition ParseHexOctet (h1 h2 : Z) : option Z :=
  if is_hex h1 && is_hex h2 then Some (16 * hex_value h1 + hex_value h2)
  else None.

(** The escape ["%XX"] at the head of [s], handed to [k] with what follows. *)
Definition with_escape {R} (s : jsstring) (k : Z -> jsstring -> R) (fail : R)
  : R :=
  match s with
  | p :: h1 :: h2 :: rest =>
      if p =? 37 then
        match ParseHexOctet h1 h2 with
        | Some b => k b rest
        | None => fail
        end
      else fail
  | _ => fail
  end.

Definition is_cont (b : Z) : bool := in_range 128 191 b.

(** The code point of a well-formed UTF-8 sequence (Unicode, table 3-7):
    no overlong form, no surrogate, nothing above U+10FFFF. *)
Definition utf8_octets_to_cp (octets : list Z) : option Z :=
  match octets with
  | [b0; b1] =>
      if in_range 194 223 b0 && is_cont b1
      then Some (Z.lor (Z.shiftl (Z.land b0 31) 6) (Z.land b1 63))
      else None
  | [b0; b1; b2] =>
      if in_range 224 239 b0
         && in_range (if b0 =? 224 then 160 else 128)
                     (if b0 =? 237 then 159 else 191) b1
         && is_cont b2
      then Some (Z.lor (Z.shiftl (Z.land b0 15) 12)
                   (Z.lor (Z.shiftl (Z.land b1 63) 6) (Z.land b2 63)))
      else None
  | [b0; b1; b2; b3] =>
      if in_range 240 244 b0
         && in_range (if b0 =? 240 then 144 else 128)
                     (if b0 =? 244 then 143 else 191) b1
         && is_cont b2 && is_cont b3
      then Some (Z.lor (Z.shiftl (Z.land b0 7) 18)
                   (Z.lor (Z.shiftl (Z.land b1 63) 12)
                      (Z.lor (Z.shiftl (Z.land b2 63) 6) (Z.land b3 63))))
      else None
  | _ => None
  end.

Definition decoded_cp (octets : list Z) (k : jsstring -> Result jsstring)
  : Result jsstring :=
  match utf8_octets_to_cp octets with
  | Some v => k (UTF16EncodeCodePoint v)
  | None => Throw URIError
  end.

(** Decode (string, preserveEscapeSet) with the empty preserve set: an escape
    whose octet starts with [n] one-bits opens a sequence of [n] escapes. *)
Fixpoint Decode (s : jsstring) : Result jsstring :=
  match s with
  | [] => Ok []
  | c :: tl =>
      if c =? 37 then
        with_escape s
          (fun b0 r0 =>
             if b0 <? 128 then rmap (cons b0) (Decode r0)
             else if b0 <? 192 then Throw URIError
             else if b0 <? 224 then
               with_escape r0
                 (fun b1 r1 =>
                    decoded_cp [b0; b1] (fun u => rmap (app u) (Decode r1)))
                 (Throw URIError)
             else if b0 <? 240 then
               with_escape r0
                 (fun b1 r1 =>
                    with_escape r1
                      (fun b2 r2 =>
                         decoded_cp [b0; b1; b2]
                           (fun u => rmap (app u) (Decode r2)))
                      (Throw URIError))
                 (Throw URIError)
             else if b0 <? 248 then
               with_escape r0
                 (fun b1 r1 =>
                    with_escape r1
                      (fun b2 r2 =>
                         with_escape r2
                           (fun b3 r3 =>
                              decoded_cp [b0; b1; b2; b3]
                                (fun u => rmap (app u) (Decode r3)))
                           (Throw URIError))
                      (Throw URIError))
                 (Throw URIError)
             else Throw URIError)
          (Throw URIError)
      else rmap (cons c) (Decode tl)
  end.

Definition decodeURIComponent (s : jsstring) : Result jsstring := Decode s.

(** ** String operations *)

(** [span p l]: the longest prefix of [l] whose elements satisfy [p], and the
    rest. *)
Fixpoint span (p : Z -> bool) (l : list Z) : list Z * list Z :=
  match l with
  | [] => ([], [])
  | c :: tl =>
      if p c then let (a, b) := span p tl in (c :: a, b) else ([], l)
  end.

(** Strictly split on a separator: one more part than separators. *)
Fixpoint split_on (sep : Z) (l : list Z) : list (list Z) :=
  match l with
  | [] => [[]]
  | c :: tl =>
      if c =? sep then [] :: split_on sep tl
      else match split_on sep tl with
           | part :: parts => (c :: part) :: parts
           | [] => [[c]]
           end
  end.

Fixpoint starts_with (pre l : list Z) : bool :=
  match pre, l with
  | [], _ => true
  | p :: pre', c :: l' => (p =? c) && starts_with pre' l'
  | _ :: _, [] => false
  end.

Fixpoint list_eqb (a b : list Z) : bool :=
  match a, b with
  | [], [] => true
  | x :: a', y :: b' => (x =? y) && list_eqb a' b'
  | _, _ => false
  end.

(** [String.prototype.includes] and [String.prototype.endsWith]. *)
Fixpoint includes (needle s : jsstring) : bool :=
  starts_with needle s
  || match s with
     | [] => false
     | _ :: tl => includes needle tl
     end.

Definition endsWith (suffix s : jsstring) : bool :=
  starts_with (rev suffix) (rev s).

(** [String.prototype.split] on a non-empty string separator, scanning from
    the left; [skip] counts the code units of a separator still to pass. *)
Fixpoint split_from (sep : jsstring) (skip : nat) (s : jsstring)
  : list jsstring :=
  match s with
  | [] => [[]]
  | c :: tl =>
      match skip with
      | S k => split_from sep k tl
      | O =>
          if starts_with sep s
          then [] :: split_from sep (Nat.pred (List.length sep)) tl
          else match split_from sep 0 tl with
               | part :: parts => (c :: part) :: parts
               | [] => [[c]]
               end
      end
  end.

Definition split (sep s : jsstring) : list jsstring := split_from sep 0 s.

(** [Array.prototype.join] *)
Fixpoint join (sep : jsstring) (parts : list jsstring) : jsstring :=
  match parts with
  | [] => []
  | [part] => part
  | part :: rest => part ++ sep ++ join sep rest
  end.

(** [s.replace(/\+/g, ' ')] *)
Definition plus_to_space (bs : list Z) : list Z :=
  map (fun c => if c =? 43 then 32 else c) bs.

(** What follows the first [c] of [s], when there is one. *)
Fixpoint after_first (c : Z) (s : jsstring) : option jsstring :=
  match s with
  | [] => None
  | x :: tl => if x =? c then Some tl else after_first c tl
  end.

(** ** React Native: [URL] and [URLSearchParams]

    The component runs on React Native 0.81, where the global [URL] is the
    class of [Libraries/Blob/URL.js]: an object that keeps the string it was
    given and answers every getter with a regular expression over that
    string.  Nothing is parsed or validated.  What follows is that class as
    far as the component uses it: the constructor without a base,
    [protocol], [hostname], [search], and [searchParams.get] with the
    [URLSearchParams] of [Libraries/Blob/URLSearchParams.js]. *)

(** The field [_url]. *)
Record URL : Type := mkURLObject { raw_url : jsstring }.

(** [website.includes('/')] on an [undefined] website. *)
Definition TypeError_undefined : JsThrown :=
  mkThrown (Some (js "Cannot read property 'includes' of undefined"))
    (js "TypeError: Cannot read property 'includes' of undefined").

(** [new URL(url)].  A string with a ["#"] whose part before the ["#"] has
    no ["/"] after its ["://"] gets a ["/"] before every ["#"] (and throws
    when that part has no ["://"]); then a string that does not end with
    ["/"] and has neither ["?"] nor ["#"] gets a final ["/"]. *)
Definition new_URL (url : jsstring) : Result URL :=
  (rewritten <-
     (if includes (js "#") url then
        let parts := split_on 35 url in
        let beforeHash := hd [] parts in
        match nth_error (split (js "://") beforeHash) 1 with
        | Some website =>
            Ok (if negb (includes (js "/") website)
                then join (js "/#") parts
                else url)
        | None => Throw TypeError_undefined
        end
      else Ok url) ;;
   Ok (mkURLObject
         (if negb (endsWith (js "/") rewritten)
             && negb (includes (js "?") rewritten
                      || includes (js "#") rewritten)
          then rewritten ++ js "/"
          else rewritten)))%result.

(** The class "[a-zA-Z\d+\-.]". *)
Definition is_protocol_char (c : Z) : bool := is_alnum c || mem c [43; 45; 46].

(** [protocolMatch[1]]: at the start of the string, a letter and the run of
    [is_protocol_char] after it, when a colon follows the run. *)
Definition match_protocol (s : jsstring) : option jsstring :=
  match s with
  | c :: tl =>
      if is_alpha c then
        let (body, rest) := span is_protocol_char tl in
        match rest with
        | colon :: _ => if colon =? 58 then Some (c :: body) else None
        | [] => None
        end
      else None
  | [] => None
  end.

Definition protocol (u : URL) : jsstring :=
  match match_protocol (raw_url u) with
  | Some p => p ++ js ":"
  | None => []
  end.

(** The class "[^:/?#]" and a non-empty run of it. *)
Definition is_hostname_char (c : Z) : bool := negb (mem c [58; 47; 63; 35]).

Definition hostname_run (s : jsstring) : option jsstring :=
  match fst (span is_hostname_char s) with
  | [] => None
  | h => Some h
  end.

(** What follows a match of "^https?:\/\/". *)
Definition after_http (s : jsstring) : option jsstring :=
  if starts_with (js "https://") s then Some (skipn 8 s)
  else if starts_with (js "http://") s then Some (skipn 7 s)
  else None.

(** The group of "^https?:\/\/(?:[^@]+@)?([^:/?#]+)": the run after the
    first ["@"] when that ["@"] has something before it and a run after it,
    and the run from the start otherwise. *)
Definition match_hostname (s : jsstring) : option jsstring :=
  match after_http s with
  | None => None
  | Some rest =>
      let (before, from_at) := span (fun c => negb (c =? 64)) rest in
      let after_userinfo :=
        match before, from_at with
        | _ :: _, _ :: after => hostname_run after
        | _, _ => None
        end in
      match after_userinfo with
      | Some h => Some h
      | None => hostname_run rest
      end
  end.

Definition hostname (u : URL) : jsstring :=
  match match_hostname (raw_url u) with
  | Some h => h
  | None => []
  end.

(** [search]: the first ["?"] and what follows it up to the first ["#"]. *)
Definition search (u : URL) : jsstring :=
  match after_first 63 (raw_url u) with
  | Some rest => 63 :: fst (span (fun c => negb (c =? 35)) rest)
  | None => []
  end.

(** [decodeURIComponent(part.replace(/\+/g, ' '))] *)
Definition decode_part (part : jsstring) : Result jsstring :=
  decodeURIComponent (plus_to_space part).

(** [Array.prototype.map] with a callback that may throw. *)
Fixpoint map_result {A B} (f : A -> Result B) (l : list A) : Result (list B) :=
  match l with
  | [] => Ok []
  | a :: tl =>
      (b <- f a ;; bs <- map_result f tl ;; Ok (b :: bs))%result
  end.

(** One pair of the query: an empty pair is skipped; of the decoded parts
    between ["="] the first is the key and the second, if any, the value. *)
Definition append_pair (pair : jsstring)
  : Result (list (jsstring * option jsstring)) :=
  match pair with
  | [] => Ok []
  | _ =>
      (parts <- map_result decode_part (split_on 61 pair) ;;
       Ok [(hd [] parts, nth_error parts 1)])%result
  end.

(** [new URLSearchParams(params)] on a string: the entries in the order of
    [append]. *)
Definition URLSearchParams (params : jsstring)
  : Result (list (jsstring * option jsstring)) :=
  let query :=
    match params with
    | c :: tl => if c =? 63 then tl else params
    | [] => []
    end in
  rmap (@List.concat _) (map_result append_pair (split_on 38 query)).

(** [get(name)]: the first value appended under [name]; [null] and
    [undefined] are not told apart. *)
Fixpoint entries_get (entries : list (jsstring * option jsstring))
    (name : jsstring) : option jsstring :=
  match entries with
  | [] => None
  | (key, value) :: tl =>
      if list_eqb key name then value else entries_get tl name
  end.

(** [u.searchParams.get(name)]; the getter builds the [URLSearchParams] of
    [u.search]. *)
Definition searchParams_get (u : URL) (name : jsstring)
  : Result (option jsstring) :=
  rmap (fun entries => entries_get entries name) (URLSearchParams (search u)).

(** ** The URL Standard, as reference

    The component does not run this parser: its [URL] is the class above.
    The WHATWG parser says what the scheme, the host and the query of a URL
    are, for every program that reads URLs by the standard (the browser, the
    operating system that routes a link to the application).  The properties
    use it to speak of "a URL whose scheme is ..." or "whose host is ...",
    and to compare with what the component's [URL] answers. *)

(** *** WHATWG Encoding: UTF-8 decode, percent-decode, scalar values *)

(** The state of the UTF-8 decoder. *)
Record Utf8State : Type := mkUtf8 {
  u_cp : Z;
  u_seen : Z;
  u_needed : Z;
  u_lower : Z;
  u_upper : Z
}.

Definition utf8_init : Utf8State := mkUtf8 0 0 0 128 191.

(** A byte read while no sequence is open. *)
Definition utf8_lead (b : Z) : Utf8State * list Z :=
  if in_range 0 127 b then (utf8_init, [b])
  else if in_range 194 223 b then (mkUtf8 (Z.land b 31) 0 1 128 191, [])
  else if in_range 224 239 b then
    (mkUtf8 (Z.land b 15) 0 2
       (if b =? 224 then 160 else 128) (if b =? 237 then 159 else 191), [])
  else if in_range 240 244 b then
    (mkUtf8 (Z.land b 7) 0 3
       (if b =? 240 then 144 else 128) (if b =? 244 then 143 else 191), [])
  else (utf8_init, [65533]).

(** One byte through the decoder, with the code points it emits.  A byte
    outside the expected range ends the open sequence with U+FFFD and is read
    again as a lead byte. *)
Definition utf8_step (st : Utf8State) (b : Z) : Utf8State * list Z :=
  if u_needed st =? 0 then utf8_lead b
  else if negb (in_range (u_lower st) (u_upper st) b) then
    let (st', out) := utf8_lead b in (st', 65533 :: out)
  else
    let cp := Z.lor (Z.shiftl (u_cp st) 6) (Z.land b 63) in
    if u_seen st + 1 =? u_needed st then (utf8_init, [cp])
    else (mkUtf8 cp (u_seen st + 1) (u_needed st) 128 191, []).

Fixpoint utf8_decode_from (st : Utf8State) (bs : list Z) : list Z :=
  match bs with
  | [] => if u_needed st =? 0 then [] else [65533]
  | b :: tl =>
      let (st', out) := utf8_step st b in out ++ utf8_decode_from st' tl
  end.

(** UTF-8 decode without BOM, errors replaced by U+FFFD. *)
Definition utf8_decode_without_BOM (bs : list Z) : list Z :=
  utf8_decode_from utf8_init bs.

Definition utf8_encode (cps : list Z) : list Z := flat_map utf8_encode_cp cps.

(** Percent-decode a byte sequence: a ["%"] not followed by two hexadecimal
    digits stays as it is. *)
Fixpoint percent_decode (bs : list Z) : list Z :=
  match bs with
  | [] => []
  | b :: tl =>
      if b =? 37 then
        match tl with
        | h1 :: h2 :: rest =>
            if is_hex h1 && is_hex h2
            then (16 * hex_value h1 + hex_value h2) :: percent_decode rest
            else b :: percent_decode tl
        | _ => b :: percent_decode tl
        end
      else b :: percent_decode tl
  end.

(** A JavaScript string as a USVString: surrogate pairs joined, lone
    surrogates replaced by U+FFFD. *)
Fixpoint to_scalar_values (s : jsstring) : list Z :=
  match s with
  | [] => []
  | c :: tl =>
      if is_leading_surrogate c then
        match tl with
        | d :: tl' =>
            if is_trailing_surrogate d
            then UTF16SurrogatePairToCodePoint c d :: to_scalar_values tl'
            else 65533 :: to_scalar_values tl
        | [] => [65533]
        end
      else if is_trailing_surrogate c then 65533 :: to_scalar_values tl
      else c :: to_scalar_values tl
  end.

Definition of_scalar_values (cps : list Z) : jsstring :=
  flat_map UTF16EncodeCodePoint cps.

(** *** WHATWG URL: hosts *)

(** Digits in radix [r] to a number, most significant first. *)
Definition digits_value (r : Z) (ds : list Z) : Z :=
  fold_left (fun acc d => acc * r + hex_value d) ds 0.

Fixpoint decimal_digits (fuel : nat) (n : Z) (acc : list Z) : list Z :=
  match fuel with
  | O => acc
  | S fuel' =>
      if n <? 10 then (48 + n) :: acc
      else decimal_digits fuel' (n / 10) ((48 + n mod 10) :: acc)
  end.

Definition serialize_integer (n : Z) : list Z := decimal_digits 20 n [].

Inductive Host : Type :=
| Domain (name : list Z)
| IPv4 (address : Z)
| IPv6 (pieces : list Z)
| OpaqueHost (name : list Z)
| EmptyHost.

(** The host parser calls Unicode's ToASCII (UTS #46) on every domain.  On
    an ASCII domain without an ["xn--"] label that is ASCII lower-casing;
    the rest needs the Unicode tables and is left to the platform. *)
Class UnicodeIDNA : Type :=
  unicode_ToASCII : list Z -> option (list Z).

Definition forbidden_host_code_point (c : Z) : bool :=
  mem c [0; 9; 10; 13; 32; 35; 47; 58; 60; 62; 63; 64; 91; 92; 93; 94; 124].

Definition forbidden_domain_code_point (c : Z) : bool :=
  forbidden_host_code_point c || in_range 0 31 c || (c =? 37) || (c =? 127).

(** Percent-encode sets. *)
Definition C0_control_set (c : Z) : bool := in_range 0 31 c || (126 <? c).
Definition query_set (c : Z) : bool :=
  C0_control_set c || mem c [32; 34; 35; 60; 62].
Definition special_query_set (c : Z) : bool := query_set c || (c =? 39).

(** UTF-8 percent-encode a string: the bytes of each code point that fall
    in the set become escapes. *)
Definition percent_encode_byte (set : Z -> bool) (b : Z) : list Z :=
  if set b then percent_octet b else [b].

Definition utf8_percent_encode (set : Z -> bool) (cps : list Z) : list Z :=
  flat_map (percent_encode_byte set) (utf8_encode cps).

Definition opaque_host_parse (input : list Z) : option Host :=
  if existsb forbidden_host_code_point input then None
  else Some (OpaqueHost (utf8_percent_encode C0_control_set input)).

(** IPv4 number parser: decimal, [0x] hexadecimal or [0] octal. *)
Definition radix_digit (r c : Z) : bool :=
  if r =? 16 then is_hex c
  else if r =? 8 then in_range 48 55 c
  else is_digit c.

Definition ipv4_number (input : list Z) : option Z :=
  match input with
  | [] => None
  | _ =>
      let '(r, ds) :=
        match input with
        | 48 :: x :: tl =>
            if (x =? 88) || (x =? 120) then (16, tl) else (8, x :: tl)
        | _ => (10, input)
        end in
      if forallb (radix_digit r) ds then Some (digits_value r ds) else None
  end.

Definition drop_last_if_empty (min : nat) (parts : list (list Z))
  : list (list Z) :=
  match rev parts with
  | [] :: before =>
      if Nat.ltb min (List.length parts) then rev before else parts
  | _ => parts
  end.

Definition ends_in_number (input : list Z) : bool :=
  let parts := split_on 46 input in
  match rev parts with
  | [[]] => false
  | _ =>
      match rev (drop_last_if_empty 0 parts) with
      | last :: _ =>
          (negb (list_eqb last []) && forallb is_digit last)
          || match ipv4_number last with Some _ => true | None => false end
      | [] => false
      end
  end.

Fixpoint option_all {A} (l : list (option A)) : option (list A) :=
  match l with
  | [] => Some []
  | Some a :: tl =>
      match option_all tl with Some r => Some (a :: r) | None => None end
  | None :: _ => None
  end.

Definition ipv4_parse (input : list Z) : option Z :=
  let parts := drop_last_if_empty 1 (split_on 46 input) in
  if Nat.ltb 4 (List.length parts) then None
  else
    match option_all (map ipv4_number parts) with
    | None => None
    | Some numbers =>
        match rev numbers with
        | [] => None
        | last :: before =>
            if existsb (fun n => 255 <? n) before then None
            else if 256 ^ (5 - Z.of_nat (List.length numbers)) <=? last
            then None
            else
              Some (fst (fold_left
                           (fun '(acc, counter) n =>
                              (acc + n * 256 ^ (3 - counter), counter + 1))
                           (rev before) (last, 0)))
        end
    end.

Definition ipv4_serialize (address : Z) : list Z :=
  serialize_integer (address / 16777216 mod 256) ++ [46]
  ++ serialize_integer (address / 65536 mod 256) ++ [46]
  ++ serialize_integer (address / 256 mod 256) ++ [46]
  ++ serialize_integer (address mod 256).

(** IPv6 parser.  [pieces] are the pieces read so far (most recent first),
    [compress] the piece index of a ["::"] when one was seen. *)
Fixpoint read_hex4 (n : nat) (value : Z) (len : Z) (s : list Z)
  : Z * Z * list Z :=
  match n, s with
  | S n', c :: tl =>
      if is_hex c then read_hex4 n' (value * 16 + hex_value c) (len + 1) tl
      else (value, len, s)
  | _, _ => (value, len, s)
  end.

(** One decimal part of an embedded IPv4 address: no leading zero, at most
    255. *)
Fixpoint read_ipv4_piece (piece : option Z) (s : list Z)
  : option (Z * list Z) :=
  match s with
  | c :: tl =>
      if is_digit c then
        match piece with
        | None => read_ipv4_piece (Some (c - 48)) tl
        | Some 0 => None
        | Some v =>
            if 255 <? v * 10 + (c - 48) then None
            else read_ipv4_piece (Some (v * 10 + (c - 48))) tl
        end
      else match piece with Some v => Some (v, s) | None => None end
  | [] => match piece with Some v => Some (v, s) | None => None end
  end.

(** The four parts of an embedded IPv4 address, up to the end of input. *)
Fixpoint read_ipv4_tail (fuel : nat) (seen : Z) (acc : list Z) (s : list Z)
  : option (list Z) :=
  match fuel with
  | O => None
  | S fuel' =>
      match s with
      | [] => if seen =? 4 then Some (rev acc) else None
      | c :: tl =>
          let s1 :=
            if 0 <? seen
            then if (c =? 46) && (seen <? 4) then Some tl else None
            else Some s in
          match s1 with
          | None => None
          | Some s2 =>
              match s2 with
              | d :: _ =>
                  if is_digit d then
                    match read_ipv4_piece None s2 with
                    | Some (v, s3) =>
                        read_ipv4_tail fuel' (seen + 1) (v :: acc) s3
                    | None => None
                    end
                  else None
              | [] => None
              end
          end
      end
  end.

Fixpoint ipv6_loop (fuel : nat) (pieces : list Z) (compress : option Z)
    (s : list Z) : option (list Z * option Z) :=
  match fuel with
  | O => None
  | S fuel' =>
      match s with
      | [] => Some (pieces, compress)
      | c :: tl =>
          let index := Z.of_nat (List.length pieces) in
          if index =? 8 then None
          else if c =? 58 then
            match compress with
            | Some _ => None
            | None => ipv6_loop fuel' (0 :: pieces) (Some (index + 1)) tl
            end
          else
            let '(value, len, s') := read_hex4 4 0 0 s in
            match s' with
            | 46 :: _ =>
                if (len =? 0) || (6 <? index) then None
                else
                  match read_ipv4_tail (S (List.length s)) 0 [] s with
                  | Some [a; b; c'; d] =>
                      Some ((c' * 256 + d) :: (a * 256 + b) :: pieces, compress)
                  | _ => None
                  end
            | 58 :: s'' =>
                match s'' with
                | [] => None
                | _ => ipv6_loop fuel' (value :: pieces) compress s''
                end
            | [] => Some (value :: pieces, compress)
            | _ => None
            end
      end
  end.

Definition ipv6_parse (input : list Z) : option (list Z) :=
  let start :=
    match input with
    | 58 :: 58 :: tl => Some ([0], Some 1, tl)
    | 58 :: _ => None
    | _ => Some ([], None, input)
    end in
  match start with
  | None => None
  | Some (pieces0, compress0, s) =>
      match ipv6_loop (S (List.length s)) pieces0 compress0 s with
      | None => None
      | Some (pieces, compress) =>
          let read := rev pieces in
          let n := List.length read in
          match compress with
          | Some k =>
              Some (firstn (Z.to_nat k) read
                    ++ repeat 0 (8 - n)
                    ++ skipn (Z.to_nat k) read)
          | None => if Nat.eqb n 8 then Some read else None
          end
      end
  end.
(** IPv6 serializer: the first longest run of two or more zero pieces is
    written ["::"]. *)
Fixpoint zero_run (l : list Z) : Z :=
  match l with
  | 0 :: tl => 1 + zero_run tl
  | _ => 0
  end.

Fixpoint find_compress (i : Z) (prev_zero : bool) (l : list Z)
    (best : option (Z * Z)) : option (Z * Z) :=
  match l with
  | [] => best
  | x :: tl =>
      let n := zero_run l in
      let longer :=
        match best with Some (_, m) => m <? n | None => true end in
      let best' :=
        if negb prev_zero && (1 <? n) && longer then Some (i, n) else best in
      find_compress (i + 1) (x =? 0) tl best'
  end.

Fixpoint hex_lower (fuel : nat) (n : Z) (acc : list Z) : list Z :=
  match fuel with
  | O => acc
  | S fuel' =>
      let d := n mod 16 in
      let c := if d <? 10 then 48 + d else 87 + d in
      if n <? 16 then c :: acc else hex_lower fuel' (n / 16) (c :: acc)
  end.

Fixpoint ipv6_pieces (compress : option Z) (i : Z) (ignore0 : bool)
    (l : list Z) : list Z :=
  match l with
  | [] => []
  | x :: tl =>
      if ignore0 && (x =? 0) then ipv6_pieces compress (i + 1) true tl
      else if match compress with Some k => k =? i | None => false end
      then (if i =? 0 then [58; 58] else [58])
           ++ ipv6_pieces compress (i + 1) true tl
      else hex_lower 4 x []
           ++ (if i =? 7 then [] else [58])
           ++ ipv6_pieces compress (i + 1) false tl
  end.

Definition ipv6_serialize (pieces : list Z) : list Z :=
  ipv6_pieces (option_map fst (find_compress 0 false pieces None)) 0 false
    pieces.

Definition host_serialize (h : Host) : list Z :=
  match h with
  | Domain name => name
  | IPv4 address => ipv4_serialize address
  | IPv6 pieces => [91] ++ ipv6_serialize pieces ++ [93]
  | OpaqueHost name => name
  | EmptyHost => []
  end.

(** Domain to ASCII (not strict): lower-casing on the ASCII fast path,
    [unicode_ToASCII] otherwise; an empty result or a forbidden domain code
    point is a failure. *)
Definition is_ascii (c : Z) : bool := in_range 0 127 c.

Definition has_punycode_label (domain : list Z) : bool :=
  existsb (starts_with [120; 110; 45; 45]) (split_on 46 domain).

Definition domain_to_ASCII `{UnicodeIDNA} (domain : list Z)
  : option (list Z) :=
  let mapped :=
    if forallb is_ascii domain
       && negb (has_punycode_label (map to_lower domain))
    then Some (map to_lower domain)
    else unicode_ToASCII domain in
  match mapped with
  | Some result =>
      if list_eqb result [] || existsb forbidden_domain_code_point result
      then None
      else Some result
  | None => None
  end.

Definition ends_with (c : Z) (l : list Z) : bool :=
  match rev l with
  | x :: _ => x =? c
  | [] => false
  end.

(** The host parser. *)
Definition host_parse `{UnicodeIDNA} (input : list Z) (isOpaque : bool)
  : option Host :=
  if starts_with [91] input then
    if ends_with 93 (tl input)
    then option_map IPv6 (ipv6_parse (removelast (tl input)))
    else None
  else if isOpaque then opaque_host_parse input
  else
    let domain :=
      utf8_decode_without_BOM (percent_decode (utf8_encode input)) in
    match domain_to_ASCII domain with
    | None => None
    | Some asciiDomain =>
        if ends_in_number asciiDomain
        then option_map IPv4 (ipv4_parse asciiDomain)
        else Some (Domain asciiDomain)
    end.

(** An instance that knows no Unicode table: every domain off the ASCII
    fast path is refused. *)
Definition ascii_only_IDNA : UnicodeIDNA := fun _ => None.

(** *** WHATWG URL: the parser

    The record keeps the scheme, the host and the query of the parsed URL;
    user info, port, path and fragment are parsed (a bad port fails the
    parse) and dropped.  There is no base URL. *)

Record URLRecord : Type := mkURL {
  url_scheme : list Z;
  url_host : option Host;
  url_query : option (list Z)
}.

Definition is_special (scheme : list Z) : bool :=
  existsb (list_eqb scheme)
    [js "ftp"; js "file"; js "http"; js "https"; js "ws"; js "wss"].

Definition is_C0_or_space (c : Z) : bool := in_range 0 32 c.
Definition is_tab_or_newline (c : Z) : bool := mem c [9; 10; 13].

Fixpoint drop_while (p : Z -> bool) (l : list Z) : list Z :=
  match l with
  | [] => []
  | c :: tl => if p c then drop_while p tl else l
  end.

Definition strip (l : list Z) : list Z :=
  rev (drop_while is_C0_or_space (rev (drop_while is_C0_or_space l))).

Definition remove_tab_newline (l : list Z) : list Z :=
  filter (fun c => negb (is_tab_or_newline c)) l.

Definition is_scheme_char (c : Z) : bool := is_alnum c || mem c [43; 45; 46].

(** Scheme start state and scheme state: the lower-cased scheme and what
    follows the [":"]. *)
Definition parse_scheme (input : list Z) : option (list Z * list Z) :=
  match input with
  | c :: tl =>
      if is_alpha c then
        let (body, rest) := span is_scheme_char tl in
        match rest with
        | colon :: after =>
            if colon =? 58 then Some (map to_lower (c :: body), after)
            else None
        | [] => None
        end
      else None
  | [] => None
  end.

Definition is_slash (c : Z) : bool := (c =? 47) || (c =? 92).

(** The code points that end the authority: [/], [?], [#], and [\] in a
    special URL. *)
Definition authority_end (special : bool) (c : Z) : bool :=
  mem c [47; 63; 35] || (special && (c =? 92)).

(** Credentials and what follows the last ["@"], when there is one. *)
Fixpoint split_last_at (l : list Z) : option (list Z * list Z) :=
  match l with
  | [] => None
  | c :: tl =>
      match split_last_at tl with
      | Some (cred, hostport) => Some (c :: cred, hostport)
      | None => if c =? 64 then Some ([], tl) else None
      end
  end.

(** Host state: the buffer up to the first [":"] outside brackets, and the
    port buffer after it. *)
Fixpoint split_host_port (inside : bool) (l : list Z)
  : list Z * option (list Z) :=
  match l with
  | [] => ([], None)
  | c :: tl =>
      if (c =? 58) && negb inside then ([], Some tl)
      else
        let inside' :=
          if c =? 91 then true else if c =? 93 then false else inside in
        let (h, p) := split_host_port inside' tl in (c :: h, p)
  end.

(** Port state: digits only, at most 65535. *)
Definition parse_port (buffer : list Z) : option (option Z) :=
  if forallb is_digit buffer then
    match buffer with
    | [] => Some None
    | _ =>
        if 65535 <? digits_value 10 buffer then None
        else Some (Some (digits_value 10 buffer))
    end
  else None.

(** Authority, host and port states, from the first code point of the
    authority: the host and the input from the end of the authority on. *)
Definition parse_authority `{UnicodeIDNA} (special : bool) (r : list Z)
  : option (option Host * list Z) :=
  let (auth, rest) := span (fun c => negb (authority_end special c)) r in
  let '(atSignSeen, buffer) :=
    match split_last_at auth with
    | Some (_, hostport) => (true, hostport)
    | None => (false, auth)
    end in
  if atSignSeen && list_eqb buffer [] then None
  else
    match split_host_port false buffer with
    | (hbuf, Some pbuf) =>
        if list_eqb hbuf [] then None
        else
          match host_parse hbuf (negb special), parse_port pbuf with
          | Some h, Some _ => Some (Some h, rest)
          | _, _ => None
          end
    | (hbuf, None) =>
        if special && list_eqb hbuf [] then None
        else
          match host_parse hbuf (negb special) with
          | Some h => Some (Some h, rest)
          | None => None
          end
    end.

Definition is_windows_drive_letter (buffer : list Z) : bool :=
  match buffer with
  | [a; b] => is_alpha a && ((b =? 58) || (b =? 124))
  | _ => false
  end.

(** File, file slash and file host states. *)
Definition parse_file `{UnicodeIDNA} (after : list Z)
  : option (option Host * list Z) :=
  match after with
  | c1 :: c2 :: r =>
      if is_slash c1 && is_slash c2 then
        let (buffer, rest) :=
          span (fun c => negb (is_slash c || (c =? 63) || (c =? 35))) r in
        if is_windows_drive_letter buffer then Some (Some EmptyHost, r)
        else if list_eqb buffer [] then Some (Some EmptyHost, rest)
        else
          match host_parse buffer false with
          | Some h =>
              if list_eqb (host_serialize h) (js "localhost")
              then Some (Some EmptyHost, rest)
              else Some (Some h, rest)
          | None => None
          end
      else Some (Some EmptyHost, after)
  | _ => Some (Some EmptyHost, after)
  end.

(** Path states run to the first [?] or [#]; the query state runs from a
    [?] to the first [#] and percent-encodes what it read. *)
Definition parse_query (special : bool) (rest : list Z) : option (list Z) :=
  let (_, after) := span (fun c => negb (mem c [63; 35])) rest in
  match after with
  | c :: q =>
      if c =? 63 then
        let (buffer, _) := span (fun c => negb (c =? 35)) q in
        Some (utf8_percent_encode
                (if special then special_query_set else query_set) buffer)
      else None
  | [] => None
  end.

(** The basic URL parser on a string, without a base URL. *)
Definition basic_URL_parse `{UnicodeIDNA} (input0 : list Z)
  : option URLRecord :=
  let input := remove_tab_newline (strip input0) in
  match parse_scheme input with
  | None => None
  | Some (scheme, after) =>
      let special := is_special scheme in
      let located :=
        if list_eqb scheme (js "file") then parse_file after
        else if special then parse_authority true (drop_while is_slash after)
        else
          match after with
          | c1 :: c2 :: r =>
              if (c1 =? 47) && (c2 =? 47) then parse_authority false r
              else Some (None, after)
          | _ => Some (None, after)
          end in
      match located with
      | Some (host, rest) => Some (mkURL scheme host (parse_query special rest))
      | None => None
      end
  end.

(** [new URL(url)]: the argument is converted to a USVString; a parse
    failure is a TypeError. *)
Definition whatwg_URL `{UnicodeIDNA} (url : jsstring) : Result URLRecord :=
  match basic_URL_parse (to_scalar_values url) with
  | Some u => Ok u
  | None => Throw TypeError
  end.

(** The [protocol] and [hostname] getters of the standard. *)
Definition whatwg_protocol (u : URLRecord) : jsstring :=
  of_scalar_values (url_scheme u ++ [58]).

Definition whatwg_hostname (u : URLRecord) : jsstring :=
  match url_host u with
  | None => []
  | Some h => of_scalar_values (host_serialize h)
  end.

(** application/x-www-form-urlencoded parsing of the query. *)
Definition urlencoded_decode (bs : list Z) : list Z :=
  utf8_decode_without_BOM (percent_decode (plus_to_space bs)).

Definition urlencoded_pair (bytes : list Z) : list (list Z * list Z) :=
  match bytes with
  | [] => []
  | _ =>
      let (name, rest) := span (fun c => negb (c =? 61)) bytes in
      [(urlencoded_decode name, urlencoded_decode (tl rest))]
  end.

Definition urlencoded_parse (bytes : list Z) : list (list Z * list Z) :=
  flat_map urlencoded_pair (split_on 38 bytes).

Definition whatwg_searchParams (u : URLRecord) : list (list Z * list Z) :=
  match url_query u with
  | Some q => urlencoded_parse (utf8_encode q)
  | None => []
  end.

(** [params.get(name)]: the value of the first pair named [name], or
    [null]. *)
Fixpoint whatwg_params_get (params : list (list Z * list Z)) (name : list Z)
  : option jsstring :=
  match params with
  | [] => None
  | (n, v) :: tl =>
      if list_eqb n name then Some (of_scalar_values v)
      else whatwg_params_get tl name
  end.

Definition whatwg_get (u : URLRecord) (name : jsstring)
  : option jsstring :=
  whatwg_params_get (whatwg_searchParams u) (to_scalar_values name).

(** ** JavaScript truthiness of [string | null] *)

(** [null], [undefined] and the empty string are falsy. *)
Definition truthy (v : option jsstring) : bool :=
  match v with
  | Some (_ :: _) => true
  | _ => false
  end.

(** The string of a value known to be truthy. *)
Definition string_of (v : option jsstring) : jsstring :=
  match v with
  | Some s => s
  | None => []
  end.

(** ** The NFC binding and the handlers' world *)

Inductive NfcTech : Type := NfcTech_Ndef.

(** What the write path builds: [Ndef.uriRecord(uri)] and
    [Ndef.encodeMessage(records)], kept symbolic. *)
Inductive NdefRecord : Type := uriRecord (uri : jsstring).
Inductive NdefBytes : Type := encodeMessage (records : list NdefRecord).

(** What the read path gets: [ndef?.ndefMessage] and [record?.payload]. *)
Record TagRecord : Type := mkTagRecord { payload : option (list Z) }.
Record TagEvent : Type := mkTagEvent { ndefMessage : option (list TagRecord) }.

(** The calls a handler makes on the platform, in order. *)
Inductive Call : Type :=
| requestTechnology (tech : NfcTech)
| writeNdefMessage (bytes : NdefBytes)
| getTag
| getNdefMessage
| cancelTechnologyRequest
| Alert_alert (title message : jsstring).

(** How the platform answers: each awaited call resolves or rejects. *)
Record Platform : Type := mkPlatform {
  on_requestTechnology : NfcTech -> Result unit;
  on_writeNdefMessage : NdefBytes -> Result unit;
  on_getTag : Result unit;
  on_getNdefMessage : Result (option TagEvent);
  on_cancelTechnologyRequest : Result unit;
  text_decodePayload : list Z -> Result jsstring
}.

(** A handler runs over the component state [S] and the log of calls; a
    throw keeps what was done before it. *)
Definition M (S A : Type) : Type := S * list Call -> Result A * (S * list Call).

Definition ret {S A} (a : A) : M S A := fun w => (Ok a, w).

Definition bind {S A B} (m : M S A) (k : A -> M S B) : M S B :=
  fun w =>
    match m w with
    | (Ok a, w') => k a w'
    | (Throw e, w') => (Throw e, w')
    end.

Declare Scope handler_scope.
Delimit Scope handler_scope with handler.
Notation "x <- c ;; k" := (bind c (fun x => k))
  (at level 61, c at next level, right associativity) : handler_scope.
Notation "c ;; k" := (bind c (fun _ => k))
  (at level 61, right associativity) : handler_scope.

(** A platform call: logged, then answered. *)
Definition call {S A} (c : Call) (answer : Result A) : M S A :=
  fun w => (answer, (fst w, snd w ++ [c])).

(** A state setter of [useState]. *)
Definition set_state {S} (f : S -> S) : M S unit :=
  fun w => (Ok tt, (f (fst w), snd w)).

Definition lift {S A} (r : Result A) : M S A := fun w => (r, w).

(** [promise.catch(() => {})]: a rejection is dropped. *)
Definition catch_ignore {S} (m : M S unit) : M S unit :=
  fun w => (Ok tt, snd (m w)).

(** [try { body } catch (err) { handler } finally { finalizer }] *)
Definition try_catch_finally {S A} (body : M S A) (handler : JsThrown -> M S A)
    (finalizer : M S unit) : M S A :=
  fun w =>
    let (r1, w1) := body w in
    let (r2, w2) :=
      match r1 with
      | Ok a => (Ok a, w1)
      | Throw e => handler e w1
      end in
    match finalizer w2 with
    | (Ok _, w3) => (r2, w3)
    | (Throw e, w3) => (Throw e, w3)
    end.

(** [err?.message ?? String(err)] *)
Definition error_text (err : JsThrown) : jsstring :=
  match thrown_message err with
  | Some m => m
  | None => thrown_string err
  end.

Definition Alert {S} (title message : jsstring) : M S unit :=
  call (Alert_alert title message) (Ok tt).

Definition count_calls (p : Call -> bool) (log : list Call) : nat :=
  List.length (filter p log).

Definition is_cancel (c : Call) : bool :=
  match c with cancelTechnologyRequest => true | _ => false end.

Definition is_alert (c : Call) : bool :=
  match c with Alert_alert _ _ => true | _ => false end.

Definition No_message_found : jsstring := js "No message found".

(** ** [src/App.tsx]: custom scheme, scheme-only decode *)

Module AppTsx.
Definition SCHEME : jsstring := js "nfcmsg".
Definition HOST : jsstring := js "read".

Definition buildDeepLink (message : jsstring) : Result jsstring :=
  (encoded <- encodeURIComponent message ;;
   Ok (SCHEME ++ js "://" ++ HOST ++ js "?m=" ++ encoded))%result.

Definition parseMessageFromUrl (url : option jsstring)
  : Result (option jsstring) :=
  try_catch
    (if negb (truthy url) then Ok None
     else
       u <- new_URL (string_of url) ;;
       if negb (list_eqb (protocol u) (SCHEME ++ js ":")) then Ok None
       else
         raw <- searchParams_get u (js "m") ;;
         if truthy raw
         then msg <- decodeURIComponent (string_of raw) ;; Ok (Some msg)
         else Ok None)%result
    (fun err => let _ := console_log (url, err) in Ok None).

Record AppState : Type := mkState {
  input : jsstring;
  lastRead : option jsstring
}.

Definition initial : AppState := mkState (js "Hello from NFC") None.

Definition setInput (v : jsstring) (st : AppState) : AppState :=
  mkState v (lastRead st).
Definition setLastRead (v : jsstring) (st : AppState) : AppState :=
  mkState (input st) (Some v).

(** [useMemo(() => buildDeepLink(input), [input])] *)
Definition deepLink (st : AppState) : Result jsstring :=
  buildDeepLink (input st).

(** The callback of [Linking.getInitialURL().then]. *)
Definition onInitialURL (url : option jsstring) : M AppState unit :=
  (msg <- lift (parseMessageFromUrl url) ;;
   if truthy msg
   then set_state (setLastRead (string_of msg))
   else ret tt)%handler.

(** The listener of [Linking.addEventListener('url', ...)]. *)
Definition onUrlEvent (url : jsstring) : M AppState unit :=
  (msg <- lift (parseMessageFromUrl (Some url)) ;;
   if truthy msg
   then set_state (setLastRead (string_of msg))
   else set_state (setLastRead No_message_found))%handler.

Definition writeToTag (P : Platform) (deepLink : jsstring) : M AppState unit :=
  try_catch_finally
    (let uri := deepLink in
     let bytes := encodeMessage [uriRecord uri] in
     call (requestTechnology NfcTech_Ndef)
          (on_requestTechnology P NfcTech_Ndef) ;;
     call (writeNdefMessage bytes) (on_writeNdefMessage P bytes) ;;
     Alert (js "Success") (js "Wrote tag:" ++ [10] ++ uri))%handler
    (fun err => Alert (js "NFC error") (error_text err))
    (catch_ignore
       (call cancelTechnologyRequest (on_cancelTechnologyRequest P))).

End AppTsx.

(** ** [src/unnamed/part_000]: web scheme, scheme-and-host decode, manual
       read *)

Module Part000.
Definition SCHEME : jsstring := js "https".
Definition HOST : jsstring := js "nfcmsg.test".

Definition buildDeepLink (message : jsstring) : Result jsstring :=
  (encoded <- encodeURIComponent message ;;
   Ok (SCHEME ++ js "://" ++ HOST ++ js "/read?m=" ++ encoded))%result.

Definition parseMessageFromUrl (url : option jsstring)
  : Result (option jsstring) :=
  try_catch
    (if negb (truthy url) then Ok None
     else
       u <- new_URL (string_of url) ;;
       if negb (list_eqb (protocol u) (SCHEME ++ js ":"))
          || negb (list_eqb (hostname u) HOST)
       then Ok None
       else
         raw <- searchParams_get u (js "m") ;;
         if truthy raw
         then msg <- decodeURIComponent (string_of raw) ;; Ok (Some msg)
         else Ok None)%result
    (fun err => let _ := console_log (url, err) in Ok None).

Record AppState : Type := mkState {
  input : jsstring;
  lastRead : option jsstring;
  isWriting : bool;
  isReading : bool
}.

Definition initial : AppState :=
  mkState (js "Hello from NFC") None false false.

Definition setInput (v : jsstring) (st : AppState) : AppState :=
  mkState v (lastRead st) (isWriting st) (isReading st).
Definition setLastRead (v : jsstring) (st : AppState) : AppState :=
  mkState (input st) (Some v) (isWriting st) (isReading st).
Definition setIsWriting (v : bool) (st : AppState) : AppState :=
  mkState (input st) (lastRead st) v (isReading st).
Definition setIsReading (v : bool) (st : AppState) : AppState :=
  mkState (input st) (lastRead st) (isWriting st) v.

(** [useMemo(() => buildDeepLink(input), [input])] *)
Definition deepLink (st : AppState) : Result jsstring :=
  buildDeepLink (input st).

(** The callback of [Linking.getInitialURL().then]. *)
Definition onInitialURL (url : option jsstring) : M AppState unit :=
  (msg <- lift (parseMessageFromUrl url) ;;
   if truthy msg
   then set_state (setLastRead (string_of msg))
   else ret tt)%handler.

(** The listener of [Linking.addEventListener('url', ...)]. *)
Definition onUrlEvent (url : jsstring) : M AppState unit :=
  (msg <- lift (parseMessageFromUrl (Some url)) ;;
   if truthy msg
   then set_state (setLastRead (string_of msg))
   else set_state (setLastRead No_message_found))%handler.

Definition writeToTag (P : Platform) (deepLink : jsstring) : M AppState unit :=
  try_catch_finally
    (set_state (setIsWriting true) ;;
     let uri := deepLink in
     let bytes := encodeMessage [uriRecord uri] in
     call (requestTechnology NfcTech_Ndef)
          (on_requestTechnology P NfcTech_Ndef) ;;
     call (writeNdefMessage bytes) (on_writeNdefMessage P bytes) ;;
     Alert (js "Success") (js "Wrote tag:" ++ [10] ++ uri))%handler
    (fun err =>
       let _ := console_log err in
       Alert (js "NFC error") (error_text err))
    (set_state (setIsWriting false) ;;
     catch_ignore
       (call cancelTechnologyRequest (on_cancelTechnologyRequest P)))%handler.

Definition readTag (P : Platform) : M AppState unit :=
  try_catch_finally
    (set_state (setIsReading true) ;;
     call (requestTechnology NfcTech_Ndef)
          (on_requestTechnology P NfcTech_Ndef) ;;
     tag <- call getTag (on_getTag P) ;;
     let _ := console_log tag in
     ndef <- call getNdefMessage (on_getNdefMessage P) ;;
     match ndef with
     | Some (mkTagEvent (Some (record :: _))) =>
         match payload record with
         | Some bytes =>
             text <- lift (text_decodePayload P bytes) ;;
             set_state
               (setLastRead
                  (match text with [] => No_message_found | _ => text end))
         | None => ret tt
         end
     | _ => ret tt
     end)%handler
    (fun err =>
       let _ := console_log err in
       Alert (js "NFC error") (error_text err))
    (set_state (setIsReading false) ;;
     catch_ignore
       (call cancelTechnologyRequest (on_cancelTechnologyRequest P)))%handler.

End Part000.

(** ** Vocabulary of the properties *)

(** A JavaScript string holds code units. *)
Definition is_code_unit (c : Z) : bool := in_range 0 65535 c.

(** [String.prototype.isWellFormed]: no lone surrogate. *)
Fixpoint isWellFormed (s : jsstring) : bool :=
  match s with
  | [] => true
  | c :: tl =>
      if is_leading_surrogate c then
        match tl with
        | d :: tl' => is_trailing_surrogate d && isWellFormed tl'
        | [] => false
        end
      else negb (is_trailing_surrogate c) && isWellFormed tl
  end.

Inductive WellFormed : jsstring -> Prop :=
| wf_nil : WellFormed []
| wf_unit (c : Z) (s : jsstring) :
    0 <= c <= 65535 -> is_surrogate c = false ->
    WellFormed s -> WellFormed (c :: s)
| wf_pair (c d : Z) (s : jsstring) :
    is_leading_surrogate c = true -> is_trailing_surrogate d = true ->
    WellFormed s -> WellFormed (c :: d :: s).

(** Unicode scalar values: code points that are not surrogates. *)
Definition scalar_value (cp : Z) : Prop :=
  0 <= cp <= 1114111 /\ ~ (55296 <= cp <= 57343).

(** What [Encode] writes: unreserved characters and escapes. *)
Definition uri_safe (c : Z) : bool := uriUnreserved c || (c =? 37).

(** A percent-encode set that leaves the alphabet alone, the apostrophe
    apart: the query set and the special-query set. *)
Definition spares_uri_safe (set : Z -> bool) : Prop :=
  forall c, uri_safe c = true -> c <> 39 -> set c = false.

(** The query state on a string of bytes. *)
Definition query_encode (set : Z -> bool) (e : list Z) : list Z :=
  flat_map (percent_encode_byte set) e.

(** Every ["#"] with a ["/"] put before it: what [split('#').join('/#')]
    makes of a string. *)
Definition slash_hashes (l : jsstring) : jsstring :=
  flat_map (fun x => if x =? 35 then [47; 35] else [x]) l.

(** A completion that is not the empty string. *)
Definition nonempty_result (r : Result jsstring) : Prop :=
  match r with
  | Ok [] => False
  | _ => True
  end.

(** The log a handler leaves, and the calls it added to [log]. *)
Definition log_of {S A} (r : Result A * (S * list Call)) : list Call :=
  snd (snd r).
Definition state_of {S A} (r : Result A * (S * list Call)) : S :=
  fst (snd r).

(** The tag's message holds no record: [ndef] is [null], or has no
    [ndefMessage], or an empty one. *)
Definition no_records (ndef : option TagEvent) : Prop :=
  match ndef with
  | Some (mkTagEvent (Some (_ :: _))) => False
  | _ => True
  end.

(** A platform that grants every request and presents a tag without
    records. *)
Definition cooperative_platform : Platform :=
  mkPlatform (fun _ => Ok tt) (fun _ => Ok tt) (Ok tt)
    (Ok (Some (mkTagEvent (Some [])))) (Ok tt) (fun _ => Ok []).

(** "He" with acute, euro sign, an emoji (a surrogate pair), then reserved
    URL characters and a space. *)
Definition sample_message : jsstring :=
  [72; 233; 8364; 55357; 56832; 39; 38; 61; 43; 47; 63; 35; 32].

(** ** Vocabulary of the further properties *)

Definition has_percent (s : jsstring) : bool := existsb (Z.eqb 37) s.

(** What [parseMessageFromUrl] makes of the value of [m]. *)
Definition decode_raw (raw : jsstring) : option jsstring :=
  if truthy (Some raw) then
    match decodeURIComponent raw with
    | Ok msg => Some msg
    | Throw _ => None
    end
  else None.

Definition is_request (c : Call) : bool :=
  match c with requestTechnology _ => true | _ => false end.

(** Calls that need the session: reading or writing the tag. *)
Definition is_tag_access (c : Call) : bool :=
  match c with
  | writeNdefMessage _ | getTag | getNdefMessage => true
  | _ => false
  end.

(** One session: requested first, released last, and neither in between. *)
Definition one_session (calls : list Call) : bool :=
  match calls with
  | requestTechnology _ :: rest =>
      match rev rest with
      | cancelTechnologyRequest :: mid =>
          forallb (fun c => negb (is_request c || is_cancel c)) mid
      | _ => false
      end
  | _ => false
  end.

(** The [text || 'No message found'] of [readTag]. *)
Definition text_or_sentinel (text : jsstring) : jsstring :=
  match text with [] => js "No message found" | _ => text end.

(** Absent, or a non-empty text. *)
Definition shown_message_ok (v : option jsstring) : bool :=
  match v with
  | Some [] => false
  | _ => true
  end.

(** An error with a message, and a thrown value without one. *)
Definition no_tag_error : JsThrown :=
  mkThrown (Some (js "no tag")) (js "Error: no tag").
Definition bare_rejection : JsThrown := mkThrown None (js "cancelled").

(** A platform that refuses the session. *)
Definition refusing_platform : Platform :=
  mkPlatform (fun _ => Throw no_tag_error) (fun _ => Ok tt) (Ok tt)
    (Ok None) (Ok tt) (fun _ => Ok []).

(** A platform that grants the session and refuses the write. *)
Definition read_only_platform : Platform :=
  mkPlatform (fun _ => Ok tt) (fun _ => Throw bare_rejection) (Ok tt)
    (Ok None) (Ok tt) (fun _ => Ok []).

(** A platform presenting a tag with two records, whose payloads decode to
    themselves. *)
Definition text_tag_platform : Platform :=
  mkPlatform (fun _ => Ok tt) (fun _ => Ok tt) (Ok tt)
    (Ok (Some (mkTagEvent
                 (Some [mkTagRecord (Some (js "hi"));
                        mkTagRecord (Some (js "second"))]))))
    (Ok tt) (fun bytes => Ok bytes).

(** A platform that cannot get the tag. *)
Definition lost_tag_platform : Platform :=
  mkPlatform (fun _ => Ok tt) (fun _ => Ok tt) (Throw no_tag_error)
    (Ok None) (Ok tt) (fun _ => Ok []).

(** The text after a host: nothing, or a [":"], ["/"], ["?"] or ["#"] and
    what follows it. *)
Definition ends_hostname (rest : jsstring) : bool :=
  match rest with
  | [] => true
  | c :: _ => negb (is_hostname_char c)
  end.

(** ** The readout of the view *)

(** "— nothing received yet —" (the dashes are U+2014). *)
Definition nothing_received_yet : jsstring :=
  [8212; 32] ++ js "nothing received yet" ++ [32; 8212].

(** [{lastRead ?? '— nothing received yet —'}] *)
Definition readout (lastRead : option jsstring) : jsstring :=
  match lastRead with
  | Some text => text
  | None => nothing_received_yet
  end.

(** The states the component of [src/App.tsx] goes through: typing, the
    initial URL, URL events and runs of [writeToTag], in any order and
    against any platform. *)
Inductive AppTsx_reachable : AppTsx.AppState -> Prop :=
| AppTsx_mounted : AppTsx_reachable AppTsx.initial
| AppTsx_typed (v : jsstring) (st : AppTsx.AppState) :
    AppTsx_reachable st -> AppTsx_reachable (AppTsx.setInput v st)
| AppTsx_launched (url : option jsstring) (st : AppTsx.AppState)
    (log : list Call) :
    AppTsx_reachable st ->
    AppTsx_reachable (state_of (AppTsx.onInitialURL url (st, log)))
| AppTsx_opened (url : jsstring) (st : AppTsx.AppState) (log : list Call) :
    AppTsx_reachable st ->
    AppTsx_reachable (state_of (AppTsx.onUrlEvent url (st, log)))
| AppTsx_wrote (P : Platform) (link : jsstring) (st : AppTsx.AppState)
    (log : list Call) :
    AppTsx_reachable st ->
    AppTsx_reachable (state_of (AppTsx.writeToTag P link (st, log))).

(** The same for [part_000], with runs of [readTag]. *)
Inductive Part000_reachable : Part000.AppState -> Prop :=
| Part000_mounted : Part000_reachable Part000.initial
| Part000_typed (v : jsstring) (st : Part000.AppState) :
    Part000_reachable st -> Part000_reachable (Part000.setInput v st)
| Part000_launched (url : option jsstring) (st : Part000.AppState)
    (log : list Call) :
    Part000_reachable st ->
    Part000_reachable (state_of (Part000.onInitialURL url (st, log)))
| Part000_opened (url : jsstring) (st : Part000.AppState) (log : list Call) :
    Part000_reachable st ->
    Part000_reachable (state_of (Part000.onUrlEvent url (st, log)))
| Part000_wrote (P : Platform) (link : jsstring) (st : Part000.AppState)
    (log : list Call) :
    Part000_reachable st ->
    Part000_reachable (state_of (Part000.writeToTag P link (st, log)))
| Part000_read (P : Platform) (st : Part000.AppState) (log : list Call) :
    Part000_reachable st ->
    Part000_reachable (state_of (Part000.readTag P (st, log))).

(** * Properties *)

Lemma list_eqb_eq (a b : list Z) : list_eqb a b = true <-> a = b.
Proof.
  revert b; induction a as [|x a IH]; intros [|y b]; simpl;
    try (split; (reflexivity || discriminate)).
  rewrite andb_true_iff, Z.eqb_eq, IH. split.
  - intros [-> ->]; reflexivity.
  - intros E; injection E; auto.
Qed.

Lemma list_eqb_refl (a : list Z) : list_eqb a a = true.
Proof. apply list_eqb_eq; reflexivity. Qed.

Lemma list_eqb_neq (a b : list Z) : a <> b -> list_eqb a b = false.
Proof.
  intros N. destruct (list_eqb a b) eqn:E; [|reflexivity].
  apply list_eqb_eq in E. contradiction.
Qed.


(** ** [decodeURIComponent] never turns text into the empty string *)

Lemma rmap_cons_nonempty (b : Z) (r : Result jsstring) :
  nonempty_result (rmap (cons b) r).
Proof. destruct r; exact I. Qed.

Lemma UTF16EncodeCodePoint_nonempty (v : Z) : UTF16EncodeCodePoint v <> [].
Proof. unfold UTF16EncodeCodePoint. destruct (v <=? 65535); discriminate. Qed.

Lemma rmap_app_nonempty (u : jsstring) (r : Result jsstring) :
  u <> [] -> nonempty_result (rmap (app u) r).
Proof.
  destruct r as [a|]; [|intros; exact I].
  destruct u; [congruence|intros; exact I].
Qed.

Lemma with_escape_nonempty (s : jsstring)
    (k : Z -> jsstring -> Result jsstring) :
  (forall b r, nonempty_result (k b r)) ->
  nonempty_result (with_escape s k (Throw URIError)).
Proof.
  intros K. unfold with_escape.
  destruct s as [|p [|h1 [|h2 rest]]]; try exact I.
  destruct (p =? 37); [|exact I].
  destruct (ParseHexOctet h1 h2); [apply K|exact I].
Qed.

Lemma decoded_cp_nonempty (octets : list Z) (r : Result jsstring) :
  nonempty_result (decoded_cp octets (fun u => rmap (app u) r)).
Proof.
  unfold decoded_cp. destruct (utf8_octets_to_cp octets); [|exact I].
  apply rmap_app_nonempty, UTF16EncodeCodePoint_nonempty.
Qed.

Lemma Decode_nonempty (c : Z) (s : jsstring) :
  nonempty_result (Decode (c :: s)).
Proof.
  cbn [Decode]. destruct (c =? 37); [|apply rmap_cons_nonempty].
  apply with_escape_nonempty; intros b0 r0.
  repeat match goal with
         | |- nonempty_result (if ?c then _ else _) => destruct c
         | |- nonempty_result (Throw _) => exact I
         | |- nonempty_result (rmap (cons _) _) => apply rmap_cons_nonempty
         | |- nonempty_result (with_escape _ _ _) =>
             apply with_escape_nonempty; intros ? ?
         | |- nonempty_result (decoded_cp _ _) => apply decoded_cp_nonempty
         end.
Qed.

Lemma decodeURIComponent_nonempty (raw msg : jsstring) :
  truthy (Some raw) = true -> decodeURIComponent raw = Ok msg -> msg <> [].
Proof.
  destruct raw as [|c s]; [discriminate|]. intros _ E.
  pose proof (Decode_nonempty c s) as N.
  unfold decodeURIComponent in E. rewrite E in N.
  destruct msg; [contradiction|discriminate].
Qed.


(** ** Character classes as arithmetic *)

Ltac unfold_classes :=
  unfold uriUnreserved, is_scheme_char, is_protocol_char, is_hostname_char,
    is_hex, is_alnum, is_alpha, is_upper,
    is_lower, is_digit, is_ascii, is_C0_or_space, is_tab_or_newline,
    is_slash, is_surrogate, is_leading_surrogate, is_trailing_surrogate,
    is_cont, authority_end, forbidden_domain_code_point,
    forbidden_host_code_point, special_query_set, query_set, C0_control_set,
    mem, in_range in *;
  cbn [existsb] in *.

Ltac bool_to_prop :=
  repeat rewrite ?andb_true_iff, ?orb_true_iff, ?negb_true_iff,
    ?andb_false_iff, ?orb_false_iff, ?negb_false_iff,
    ?Z.leb_le, ?Z.ltb_lt, ?Z.eqb_eq, ?Z.leb_gt, ?Z.ltb_ge, ?Z.eqb_neq in *.

(** Decide a fact about character classes by linear arithmetic. *)
Ltac classes :=
  unfold_classes;
  try (apply not_true_is_false; intro);
  bool_to_prop; lia.

Lemma span_spec (p : Z -> bool) (l a b : list Z) :
  span p l = (a, b) -> forallb p a = true /\ l = a ++ b.
Proof.
  revert a b; induction l as [|c l IH]; simpl; intros a b E.
  - inversion E; auto.
  - destruct (p c) eqn:Pc.
    + destruct (span p l) as [a' b'] eqn:S. inversion E; subst.
      destruct (IH _ _ eq_refl) as [F ->]. simpl. rewrite Pc, F. auto.
    + inversion E; subst; auto.
Qed.

Lemma forallb_impl (p q : Z -> bool) (l : list Z) :
  (forall c, p c = true -> q c = true) ->
  forallb p l = true -> forallb q l = true.
Proof.
  intros I. rewrite !forallb_forall. auto.
Qed.

(** ** Decoding, case by case *)

Lemma truthy_nonempty (s : jsstring) : s <> [] -> truthy (Some s) = true.
Proof. destruct s; [congruence|reflexivity]. Qed.

Lemma truthy_Some (raw : option jsstring) :
  truthy raw = true -> exists s, raw = Some s /\ s <> [].
Proof.
  destruct raw as [[|c s]|]; try discriminate.
  intros _. exists (c :: s). split; [reflexivity|discriminate].
Qed.

(** *** [src/App.tsx] *)

Lemma AppTsx_decode_returns (url : option jsstring) :
  exists r, AppTsx.parseMessageFromUrl url = Ok r.
Proof.
  unfold AppTsx.parseMessageFromUrl, try_catch.
  match goal with |- context [match ?b with Ok _ => _ | Throw _ => _ end] =>
    destruct b end; eauto.
Qed.


Lemma AppTsx_decode_protocol (url : jsstring) (u : URL) :
  new_URL url = Ok u -> protocol u <> AppTsx.SCHEME ++ js ":" ->
  AppTsx.parseMessageFromUrl (Some url) = Ok None.
Proof.
  intros E N. unfold AppTsx.parseMessageFromUrl.
  destruct (truthy (Some url)); [|reflexivity].
  cbn [negb string_of rbind]. rewrite E. cbn [rbind].
  rewrite (list_eqb_neq _ _ N). reflexivity.
Qed.



(** A present result comes through every guard. *)
Lemma AppTsx_decode_present (url : option jsstring) (msg : jsstring) :
  AppTsx.parseMessageFromUrl url = Ok (Some msg) ->
  exists s u raw,
    url = Some s
    /\ new_URL s = Ok u
    /\ protocol u = AppTsx.SCHEME ++ js ":"
    /\ searchParams_get u (js "m") = Ok (Some raw)
    /\ raw <> []
    /\ decodeURIComponent raw = Ok msg.
Proof.
  unfold AppTsx.parseMessageFromUrl, try_catch.
  destruct (truthy url) eqn:Tu; cbn [negb]; [|discriminate].
  destruct (truthy_Some _ Tu) as [s [-> _]]. cbn [string_of].
  destruct (new_URL s) as [u|e] eqn:U; cbn [rbind]; [|discriminate].
  destruct (list_eqb (protocol u) (AppTsx.SCHEME ++ js ":")) eqn:Pr;
    cbn [negb]; [|discriminate].
  apply list_eqb_eq in Pr.
  destruct (searchParams_get u (js "m")) as [raw|e] eqn:G; cbn [rbind];
    [|discriminate].
  destruct (truthy raw) eqn:T; [|discriminate].
  destruct (truthy_Some _ T) as [r [-> N]]. cbn [string_of].
  destruct (decodeURIComponent r) as [m|e] eqn:D; cbn [rbind];
    [|discriminate].
  intros E; inversion E; subst. exists s, u, r. repeat split; auto.
Qed.

Lemma AppTsx_decode_nonempty (url : option jsstring) (msg : jsstring) :
  AppTsx.parseMessageFromUrl url = Ok (Some msg) -> msg <> [].
Proof.
  intros E.
  destruct (AppTsx_decode_present _ _ E) as [s [u [raw [_ [_ [_ [_ [N D]]]]]]]].
  exact (decodeURIComponent_nonempty _ _ (truthy_nonempty _ N) D).
Qed.

(** What the guards let through, [raw] being the value of [m]. *)
Lemma AppTsx_decode_raw (url : jsstring) (u : URL) (raw : jsstring) :
  url <> [] -> new_URL url = Ok u -> protocol u = AppTsx.SCHEME ++ js ":" ->
  searchParams_get u (js "m") = Ok (Some raw) ->
  AppTsx.parseMessageFromUrl (Some url) = Ok (decode_raw raw).
Proof.
  intros N U Pr G. unfold AppTsx.parseMessageFromUrl, decode_raw.
  rewrite (truthy_nonempty _ N). cbn [negb string_of]. rewrite U.
  cbn [rbind]. rewrite Pr, list_eqb_refl. cbn [negb]. rewrite G.
  cbn [rbind string_of].
  destruct (truthy (Some raw)); [|reflexivity].
  destruct (decodeURIComponent raw); reflexivity.
Qed.

(** *** [src/unnamed/part_000] *)

Lemma Part000_decode_returns (url : option jsstring) :
  exists r, Part000.parseMessageFromUrl url = Ok r.
Proof.
  unfold Part000.parseMessageFromUrl, try_catch.
  match goal with |- context [match ?b with Ok _ => _ | Throw _ => _ end] =>
    destruct b end; eauto.
Qed.

Lemma Part000_decode_no_URL (url : jsstring) (e : JsThrown) :
  new_URL url = Throw e -> Part000.parseMessageFromUrl (Some url) = Ok None.
Proof.
  intros E. unfold Part000.parseMessageFromUrl.
  destruct (truthy (Some url)); [|reflexivity].
  cbn [negb string_of rbind]. rewrite E. reflexivity.
Qed.

Lemma Part000_decode_protocol (url : jsstring) (u : URL) :
  new_URL url = Ok u -> protocol u <> Part000.SCHEME ++ js ":" ->
  Part000.parseMessageFromUrl (Some url) = Ok None.
Proof.
  intros E N. unfold Part000.parseMessageFromUrl.
  destruct (truthy (Some url)); [|reflexivity].
  cbn [negb string_of rbind]. rewrite E. cbn [rbind].
  rewrite (list_eqb_neq _ _ N). reflexivity.
Qed.

Lemma Part000_decode_hostname (url : jsstring) (u : URL) :
  new_URL url = Ok u -> hostname u <> Part000.HOST ->
  Part000.parseMessageFromUrl (Some url) = Ok None.
Proof.
  intros E N. unfold Part000.parseMessageFromUrl.
  destruct (truthy (Some url)); [|reflexivity].
  cbn [negb string_of rbind]. rewrite E. cbn [rbind].
  rewrite (list_eqb_neq _ _ N). cbn [negb]. rewrite orb_true_r. reflexivity.
Qed.



Lemma Part000_decode_present (url : option jsstring) (msg : jsstring) :
  Part000.parseMessageFromUrl url = Ok (Some msg) ->
  exists s u raw,
    url = Some s
    /\ new_URL s = Ok u
    /\ protocol u = Part000.SCHEME ++ js ":"
    /\ hostname u = Part000.HOST
    /\ searchParams_get u (js "m") = Ok (Some raw)
    /\ raw <> []
    /\ decodeURIComponent raw = Ok msg.
Proof.
  unfold Part000.parseMessageFromUrl, try_catch.
  destruct (truthy url) eqn:Tu; cbn [negb]; [|discriminate].
  destruct (truthy_Some _ Tu) as [s [-> _]]. cbn [string_of].
  destruct (new_URL s) as [u|e] eqn:U; cbn [rbind]; [|discriminate].
  destruct (list_eqb (protocol u) (Part000.SCHEME ++ js ":")) eqn:Pr;
    cbn [negb orb]; [|discriminate].
  destruct (list_eqb (hostname u) Part000.HOST) eqn:Ho;
    cbn [negb]; [|discriminate].
  apply list_eqb_eq in Pr. apply list_eqb_eq in Ho.
  destruct (searchParams_get u (js "m")) as [raw|e] eqn:G; cbn [rbind];
    [|discriminate].
  destruct (truthy raw) eqn:T; [|discriminate].
  destruct (truthy_Some _ T) as [r [-> N]]. cbn [string_of].
  destruct (decodeURIComponent r) as [m|e] eqn:D; cbn [rbind];
    [|discriminate].
  intros E; inversion E; subst. exists s, u, r. repeat split; auto.
Qed.

Lemma Part000_decode_nonempty (url : option jsstring) (msg : jsstring) :
  Part000.parseMessageFromUrl url = Ok (Some msg) -> msg <> [].
Proof.
  intros E.
  destruct (Part000_decode_present _ _ E)
    as [s [u [raw [_ [_ [_ [_ [_ [N D]]]]]]]]].
  exact (decodeURIComponent_nonempty _ _ (truthy_nonempty _ N) D).
Qed.

Lemma Part000_decode_raw (url : jsstring) (u : URL) (raw : jsstring) :
  url <> [] -> new_URL url = Ok u ->
  protocol u = Part000.SCHEME ++ js ":" -> hostname u = Part000.HOST ->
  searchParams_get u (js "m") = Ok (Some raw) ->
  Part000.parseMessageFromUrl (Some url) = Ok (decode_raw raw).
Proof.
  intros N U Pr Ho G. unfold Part000.parseMessageFromUrl, decode_raw.
  rewrite (truthy_nonempty _ N). cbn [negb string_of]. rewrite U.
  cbn [rbind]. rewrite Pr, Ho, !list_eqb_refl. cbn [negb orb]. rewrite G.
  cbn [rbind string_of].
  destruct (truthy (Some raw)); [|reflexivity].
  destruct (decodeURIComponent raw); reflexivity.
Qed.

(** ** The handlers *)

Lemma count_calls_app (p : Call -> bool) (a b : list Call) :
  count_calls p (a ++ b) = (count_calls p a + count_calls p b)%nat.
Proof. unfold count_calls. rewrite filter_app, length_app. reflexivity. Qed.

Ltac run_handler :=
  cbv beta iota zeta
    delta [try_catch_finally bind call catch_ignore Alert set_state lift ret
           log_of state_of fst snd payload].

Ltac split_answers :=
  run_handler;
  repeat
    (match goal with
     | |- context [on_requestTechnology ?P ?t] =>
         destruct (on_requestTechnology P t) as [[]|?]
     | |- context [on_writeNdefMessage ?P ?b] =>
         destruct (on_writeNdefMessage P b) as [[]|?]
     | |- context [on_getTag ?P] => destruct (on_getTag P) as [[]|?]
     | |- context [on_getNdefMessage ?P] =>
         destruct (on_getNdefMessage P) as [[[[[|[[?|]] ?]|]]|]|?]
     | |- context [text_decodePayload ?P ?b] =>
         destruct (text_decodePayload P b) as [[|? ?]|?]
     end; run_handler).

Ltac count_log :=
  rewrite ?count_calls_app;
  cbn [count_calls filter is_cancel is_alert List.length];
  try lia.

Section Handlers.
Variable P : Platform.

Lemma AppTsx_writeToTag_cancels_once (link : jsstring)
    (st : AppTsx.AppState) (log : list Call) :
  count_calls is_cancel (log_of (AppTsx.writeToTag P link (st, log)))
  = S (count_calls is_cancel log).
Proof. unfold AppTsx.writeToTag. split_answers; count_log. Qed.

Lemma Part000_writeToTag_cancels_once (link : jsstring)
    (st : Part000.AppState) (log : list Call) :
  count_calls is_cancel (log_of (Part000.writeToTag P link (st, log)))
  = S (count_calls is_cancel log).
Proof. unfold Part000.writeToTag. split_answers; count_log. Qed.

Lemma Part000_readTag_cancels_once (st : Part000.AppState)
    (log : list Call) :
  count_calls is_cancel (log_of (Part000.readTag P (st, log)))
  = S (count_calls is_cancel log).
Proof. unfold Part000.readTag. split_answers; count_log. Qed.

End Handlers.

(** ** Bit operations as arithmetic *)

Lemma land_shiftl_low (a b n : Z) :
  0 <= n -> 0 <= b < 2 ^ n -> Z.land (Z.shiftl a n) b = 0.
Proof.
  intros N B. apply Z.bits_inj'. intros m M.
  rewrite Z.land_spec, Z.bits_0.
  destruct (Z_lt_le_dec m n) as [L|G].
  - rewrite Z.shiftl_spec_low by lia. reflexivity.
  - assert (Z.testbit b m = false) as ->; [|apply andb_false_r].
    destruct (Z.eq_dec b 0) as [->|NZ]; [apply Z.bits_0|].
    apply Z.bits_above_log2; [lia|].
    apply Z.log2_lt_pow2; [lia|].
    apply Z.lt_le_trans with (2 ^ n); [lia|].
    apply Z.pow_le_mono_r; lia.
Qed.

Lemma lor_shiftl (a b n : Z) :
  0 <= n -> 0 <= b < 2 ^ n -> Z.lor (Z.shiftl a n) b = a * 2 ^ n + b.
Proof.
  intros N B. pose proof (land_shiftl_low a b n N B) as L.
  rewrite <- (Z.lxor_lor _ _ L), <- (Z.add_nocarry_lxor _ _ L).
  rewrite Z.shiftl_mul_pow2 by lia. reflexivity.
Qed.

Lemma lor_base (c x n : Z) :
  0 <= n -> c mod 2 ^ n = 0 -> 0 <= x < 2 ^ n -> Z.lor c x = c + x.
Proof.
  intros N C X.
  assert (E : c = Z.shiftl (c / 2 ^ n) n).
  { rewrite Z.shiftl_mul_pow2 by lia.
    pose proof (Z.div_mod c (2 ^ n)). lia. }
  rewrite E at 1. rewrite lor_shiftl by lia.
  pose proof (Z.div_mod c (2 ^ n)). lia.
Qed.

Lemma land_mod (x n : Z) : 0 <= n -> Z.land x (Z.ones n) = x mod 2 ^ n.
Proof. apply Z.land_ones. Qed.

Lemma shiftr_4 x : Z.shiftr x 4 = x / 16.
Proof. apply (Z.shiftr_div_pow2 x 4). lia. Qed.
Lemma shiftr_6 x : Z.shiftr x 6 = x / 64.
Proof. apply (Z.shiftr_div_pow2 x 6). lia. Qed.
Lemma shiftr_12 x : Z.shiftr x 12 = x / 4096.
Proof. apply (Z.shiftr_div_pow2 x 12). lia. Qed.
Lemma shiftr_18 x : Z.shiftr x 18 = x / 262144.
Proof. apply (Z.shiftr_div_pow2 x 18). lia. Qed.
Lemma land_63 x : Z.land x 63 = x mod 64.
Proof. apply (land_mod x 6). lia. Qed.
Lemma land_31 x : Z.land x 31 = x mod 32.
Proof. apply (land_mod x 5). lia. Qed.
Lemma land_15 x : Z.land x 15 = x mod 16.
Proof. apply (land_mod x 4). lia. Qed.
Lemma land_7 x : Z.land x 7 = x mod 8.
Proof. apply (land_mod x 3). lia. Qed.
Lemma shiftl_6 x : Z.shiftl x 6 = x * 64.
Proof. apply (Z.shiftl_mul_pow2 x 6). lia. Qed.
Lemma shiftl_12 x : Z.shiftl x 12 = x * 4096.
Proof. apply (Z.shiftl_mul_pow2 x 12). lia. Qed.
Lemma shiftl_18 x : Z.shiftl x 18 = x * 262144.
Proof. apply (Z.shiftl_mul_pow2 x 18). lia. Qed.

Lemma lor_128 x : 0 <= x < 64 -> Z.lor 128 x = 128 + x.
Proof. intros. apply (lor_base 128 x 6); [lia|reflexivity|lia]. Qed.
Lemma lor_192 x : 0 <= x < 32 -> Z.lor 192 x = 192 + x.
Proof. intros. apply (lor_base 192 x 5); [lia|reflexivity|lia]. Qed.
Lemma lor_224 x : 0 <= x < 16 -> Z.lor 224 x = 224 + x.
Proof. intros. apply (lor_base 224 x 4); [lia|reflexivity|lia]. Qed.
Lemma lor_240 x : 0 <= x < 8 -> Z.lor 240 x = 240 + x.
Proof. intros. apply (lor_base 240 x 3); [lia|reflexivity|lia]. Qed.

Lemma lor_join_6 a b : 0 <= b < 64 -> Z.lor (a * 64) b = a * 64 + b.
Proof.
  intros. pose proof (lor_shiftl a b 6). rewrite shiftl_6 in *. lia.
Qed.
Lemma lor_join_12 a b : 0 <= b < 4096 -> Z.lor (a * 4096) b = a * 4096 + b.
Proof.
  intros. pose proof (lor_shiftl a b 12). rewrite shiftl_12 in *. lia.
Qed.
Lemma lor_join_18 a b :
  0 <= b < 262144 -> Z.lor (a * 262144) b = a * 262144 + b.
Proof.
  intros. pose proof (lor_shiftl a b 18). rewrite shiftl_18 in *. lia.
Qed.

(** Rewrite the shifts and masks of the UTF-8 and hexadecimal code into
    quotients and remainders. *)
Ltac bits_to_arith :=
  rewrite ?shiftr_4, ?shiftr_6, ?shiftr_12, ?shiftr_18, ?land_63, ?land_31,
    ?land_15, ?land_7, ?shiftl_6, ?shiftl_12, ?shiftl_18 in *.

Ltac divmod := Z.div_mod_to_equations; lia.

(** ** UTF-8: what the decoder does on a well-formed sequence *)

Ltac decide_tests :=
  repeat match goal with
         | |- context [if ?b then _ else _] =>
             first [ replace b with true by (symmetry; classes)
                   | replace b with false by (symmetry; classes) ]
         end.

Lemma utf8_decode_from_step (st st' : Utf8State) (out : list Z) (b : Z)
    (bs : list Z) :
  utf8_step st b = (st', out) ->
  utf8_decode_from st (b :: bs) = out ++ utf8_decode_from st' bs.
Proof. intros E. cbn [utf8_decode_from]. rewrite E. reflexivity. Qed.

Lemma utf8_step_ascii (b : Z) :
  0 <= b <= 127 -> utf8_step utf8_init b = (utf8_init, [b]).
Proof.
  intros B. unfold utf8_step, utf8_lead. cbn [u_needed utf8_init Z.eqb].
  decide_tests. reflexivity.
Qed.

Lemma utf8_step_lead2 (b : Z) :
  194 <= b <= 223 ->
  utf8_step utf8_init b = (mkUtf8 (Z.land b 31) 0 1 128 191, []).
Proof.
  intros B. unfold utf8_step, utf8_lead. cbn [u_needed utf8_init Z.eqb].
  decide_tests. reflexivity.
Qed.

Lemma utf8_step_lead3 (b : Z) :
  224 <= b <= 239 ->
  utf8_step utf8_init b
  = (mkUtf8 (Z.land b 15) 0 2
       (if b =? 224 then 160 else 128) (if b =? 237 then 159 else 191), []).
Proof.
  intros B. unfold utf8_step, utf8_lead. cbn [u_needed utf8_init Z.eqb].
  replace (in_range 0 127 b) with false by (symmetry; classes).
  replace (in_range 194 223 b) with false by (symmetry; classes).
  replace (in_range 224 239 b) with true by (symmetry; classes).
  reflexivity.
Qed.

Lemma utf8_step_lead4 (b : Z) :
  240 <= b <= 244 ->
  utf8_step utf8_init b
  = (mkUtf8 (Z.land b 7) 0 3
       (if b =? 240 then 144 else 128) (if b =? 244 then 143 else 191), []).
Proof.
  intros B. unfold utf8_step, utf8_lead. cbn [u_needed utf8_init Z.eqb].
  replace (in_range 0 127 b) with false by (symmetry; classes).
  replace (in_range 194 223 b) with false by (symmetry; classes).
  replace (in_range 224 239 b) with false by (symmetry; classes).
  replace (in_range 240 244 b) with true by (symmetry; classes).
  reflexivity.
Qed.

Lemma utf8_step_last (cp seen needed lo hi b : Z) :
  seen + 1 = needed -> 0 <= seen -> lo <= b <= hi ->
  utf8_step (mkUtf8 cp seen needed lo hi) b
  = (utf8_init, [Z.lor (Z.shiftl cp 6) (Z.land b 63)]).
Proof.
  intros S N B. unfold utf8_step. cbn [u_needed u_lower u_upper u_cp u_seen].
  replace (needed =? 0) with false by (symmetry; classes).
  replace (in_range lo hi b) with true by (symmetry; classes).
  replace (seen + 1 =? needed) with true by (symmetry; classes).
  reflexivity.
Qed.

Lemma utf8_step_more (cp seen needed lo hi b : Z) :
  seen + 1 < needed -> 0 <= seen -> lo <= b <= hi ->
  utf8_step (mkUtf8 cp seen needed lo hi) b
  = (mkUtf8 (Z.lor (Z.shiftl cp 6) (Z.land b 63)) (seen + 1) needed 128 191,
     []).
Proof.
  intros S N B. unfold utf8_step. cbn [u_needed u_lower u_upper u_cp u_seen].
  replace (needed =? 0) with false by (symmetry; classes).
  replace (in_range lo hi b) with true by (symmetry; classes).
  replace (seen + 1 =? needed) with false by (symmetry; classes).
  reflexivity.
Qed.

Lemma utf8_decode_1 (b : Z) (bs : list Z) :
  0 <= b <= 127 ->
  utf8_decode_from utf8_init (b :: bs) = b :: utf8_decode_from utf8_init bs.
Proof.
  intros B. rewrite (utf8_decode_from_step _ _ _ _ _ (utf8_step_ascii b B)).
  reflexivity.
Qed.

Lemma utf8_decode_2 (b0 b1 : Z) (bs : list Z) :
  194 <= b0 <= 223 -> 128 <= b1 <= 191 ->
  utf8_decode_from utf8_init (b0 :: b1 :: bs)
  = Z.lor (Z.shiftl (Z.land b0 31) 6) (Z.land b1 63)
    :: utf8_decode_from utf8_init bs.
Proof.
  intros B0 B1.
  rewrite (utf8_decode_from_step _ _ _ _ _ (utf8_step_lead2 b0 B0)).
  rewrite (utf8_decode_from_step _ _ _ b1 _
             (utf8_step_last _ 0 1 128 191 b1 eq_refl ltac:(lia) B1)).
  reflexivity.
Qed.

Lemma utf8_decode_3 (b0 b1 b2 : Z) (bs : list Z) :
  224 <= b0 <= 239 -> 128 <= b1 <= 191 ->
  (b0 = 224 -> 160 <= b1) -> (b0 = 237 -> b1 <= 159) ->
  128 <= b2 <= 191 ->
  utf8_decode_from utf8_init (b0 :: b1 :: b2 :: bs)
  = Z.lor (Z.shiftl (Z.lor (Z.shiftl (Z.land b0 15) 6) (Z.land b1 63)) 6)
          (Z.land b2 63)
    :: utf8_decode_from utf8_init bs.
Proof.
  intros B0 B1 L U B2.
  rewrite (utf8_decode_from_step _ _ _ _ _ (utf8_step_lead3 b0 B0)).
  assert (S1 : 0 + 1 < 2 /\ 0 <= 0
               /\ (if b0 =? 224 then 160 else 128) <= b1
                  <= (if b0 =? 237 then 159 else 191)).
  { destruct (Z.eqb_spec b0 224); destruct (Z.eqb_spec b0 237); lia. }
  destruct S1 as [S1 [S2 S3]].
  rewrite (utf8_decode_from_step _ _ _ b1 _
             (utf8_step_more _ 0 2 _ _ b1 S1 S2 S3)).
  rewrite (utf8_decode_from_step _ _ _ b2 _
             (utf8_step_last _ (0 + 1) 2 128 191 b2 eq_refl ltac:(lia) B2)).
  reflexivity.
Qed.

Lemma utf8_decode_4 (b0 b1 b2 b3 : Z) (bs : list Z) :
  240 <= b0 <= 244 -> 128 <= b1 <= 191 ->
  (b0 = 240 -> 144 <= b1) -> (b0 = 244 -> b1 <= 143) ->
  128 <= b2 <= 191 -> 128 <= b3 <= 191 ->
  utf8_decode_from utf8_init (b0 :: b1 :: b2 :: b3 :: bs)
  = Z.lor
      (Z.shiftl
         (Z.lor (Z.shiftl (Z.lor (Z.shiftl (Z.land b0 7) 6) (Z.land b1 63)) 6)
                (Z.land b2 63)) 6)
      (Z.land b3 63)
    :: utf8_decode_from utf8_init bs.
Proof.
  intros B0 B1 L U B2 B3.
  rewrite (utf8_decode_from_step _ _ _ _ _ (utf8_step_lead4 b0 B0)).
  assert (S1 : 0 + 1 < 3 /\ 0 <= 0
               /\ (if b0 =? 240 then 144 else 128) <= b1
                  <= (if b0 =? 244 then 143 else 191)).
  { destruct (Z.eqb_spec b0 240); destruct (Z.eqb_spec b0 244); lia. }
  destruct S1 as [S1 [S2 S3]].
  rewrite (utf8_decode_from_step _ _ _ b1 _
             (utf8_step_more _ 0 3 _ _ b1 S1 S2 S3)).
  rewrite (utf8_decode_from_step _ _ _ b2 _
             (utf8_step_more _ (0 + 1) 3 128 191 b2 ltac:(lia) ltac:(lia) B2)).
  rewrite (utf8_decode_from_step _ _ _ b3 _
             (utf8_step_last _ (0 + 1 + 1) 3 128 191 b3 eq_refl ltac:(lia)
                B3)).
  reflexivity.
Qed.

(** ** UTF-8: encoding then decoding a scalar value *)

Lemma utf8_encode_cp_bytes (cp : Z) :
  scalar_value cp -> Forall (fun b => 0 <= b <= 255) (utf8_encode_cp cp).
Proof.
  intros [R S]. unfold utf8_encode_cp.
  destruct (Z.leb_spec cp 127); [|destruct (Z.leb_spec cp 2047);
    [|destruct (Z.leb_spec cp 65535)]];
  bits_to_arith;
  rewrite ?lor_128, ?lor_192, ?lor_224, ?lor_240 by divmod;
  repeat constructor; divmod.
Qed.

Lemma utf8_roundtrip (cp : Z) (bs : list Z) :
  scalar_value cp ->
  utf8_decode_from utf8_init (utf8_encode_cp cp ++ bs)
  = cp :: utf8_decode_from utf8_init bs.
Proof.
  intros [R S]. unfold utf8_encode_cp.
  destruct (Z.leb_spec cp 127); [|destruct (Z.leb_spec cp 2047);
    [|destruct (Z.leb_spec cp 65535)]];
  bits_to_arith;
  rewrite ?lor_128, ?lor_192, ?lor_224, ?lor_240 by divmod;
  cbn [app].
  - apply utf8_decode_1. lia.
  - rewrite utf8_decode_2 by divmod. f_equal.
    bits_to_arith. rewrite lor_join_6 by divmod. divmod.
  - rewrite utf8_decode_3 by divmod. f_equal.
    bits_to_arith. rewrite !lor_join_6 by divmod. divmod.
  - rewrite utf8_decode_4 by divmod. f_equal.
    bits_to_arith. rewrite !lor_join_6 by divmod. divmod.
Qed.

(** ** Escapes: ["%XX"] read back *)

Lemma hex_digit_spec (n : Z) :
  0 <= n < 16 ->
  is_hex (hex_digit n) = true /\ hex_value (hex_digit n) = n
  /\ uriUnreserved (hex_digit n) = true.
Proof.
  intros N. unfold hex_digit, hex_value.
  destruct (Z.ltb_spec n 10).
  - repeat split; [classes| |classes].
    replace (is_digit (48 + n)) with true by (symmetry; classes). lia.
  - repeat split; [classes| |classes].
    replace (is_digit (55 + n)) with false by (symmetry; classes).
    replace (in_range 65 70 (55 + n)) with true by (symmetry; classes).
    lia.
Qed.

Lemma percent_decode_octet (b : Z) (rest : list Z) :
  0 <= b <= 255 ->
  percent_decode (percent_octet b ++ rest) = b :: percent_decode rest.
Proof.
  intros B. unfold percent_octet. bits_to_arith.
  destruct (hex_digit_spec (b / 16)) as [H1 [V1 _]]; [divmod|].
  destruct (hex_digit_spec (b mod 16)) as [H2 [V2 _]]; [divmod|].
  cbn [app percent_decode]. cbn [Z.eqb Pos.eqb].
  rewrite H1, H2, V1, V2. cbn [andb]. f_equal. divmod.
Qed.

Lemma percent_decode_octets (bs rest : list Z) :
  Forall (fun b => 0 <= b <= 255) bs ->
  percent_decode (percent_octets bs ++ rest) = bs ++ percent_decode rest.
Proof.
  induction 1 as [|b bs B _ IH]; [reflexivity|].
  unfold percent_octets in *. cbn [flat_map]. rewrite <- app_assoc.
  rewrite percent_decode_octet by assumption. rewrite IH. reflexivity.
Qed.

Lemma percent_decode_plain (c : Z) (rest : list Z) :
  c <> 37 -> percent_decode (c :: rest) = c :: percent_decode rest.
Proof.
  intros N. cbn [percent_decode].
  destruct (Z.eqb_spec c 37); [contradiction|reflexivity].
Qed.

(** ** The alphabet of [encodeURIComponent] *)

Lemma percent_octet_safe (b : Z) :
  0 <= b <= 255 -> forallb uri_safe (percent_octet b) = true.
Proof.
  intros B. unfold percent_octet. bits_to_arith.
  destruct (hex_digit_spec (b / 16)) as [_ [_ U1]]; [divmod|].
  destruct (hex_digit_spec (b mod 16)) as [_ [_ U2]]; [divmod|].
  cbn [forallb]. unfold uri_safe at 2 3. rewrite U1, U2. reflexivity.
Qed.

Lemma percent_octets_safe (bs : list Z) :
  Forall (fun b => 0 <= b <= 255) bs ->
  forallb uri_safe (percent_octets bs) = true.
Proof.
  induction 1 as [|b bs B _ IH]; [reflexivity|].
  unfold percent_octets in *. cbn [flat_map]. rewrite forallb_app.
  rewrite percent_octet_safe by assumption. exact IH.
Qed.

Lemma query_set_spares : spares_uri_safe query_set.
Proof. intros c S N. unfold uri_safe in S. classes. Qed.

Lemma special_query_set_spares : spares_uri_safe special_query_set.
Proof. intros c S N. unfold uri_safe in S. classes. Qed.

Lemma query_encode_app (set : Z -> bool) (a b : list Z) :
  query_encode set (a ++ b) = query_encode set a ++ query_encode set b.
Proof. apply flat_map_app. Qed.

Lemma query_encode_spared (set : Z -> bool) (e : list Z) :
  spares_uri_safe set ->
  forallb uri_safe e = true -> forallb (fun c => negb (c =? 39)) e = true ->
  query_encode set e = e.
Proof.
  intros Q. induction e as [|c e IH]; [reflexivity|].
  cbn [forallb]. rewrite !andb_true_iff, negb_true_iff, Z.eqb_neq.
  intros [S1 S2] [N1 N2]. unfold query_encode in *. cbn [flat_map].
  unfold percent_encode_byte at 1. rewrite (Q c S1 N1).
  rewrite (IH S2 N2). reflexivity.
Qed.

Lemma percent_octet_no_apostrophe (b : Z) :
  0 <= b <= 255 ->
  forallb (fun c => negb (c =? 39)) (percent_octet b) = true.
Proof.
  intros B. unfold percent_octet, hex_digit. bits_to_arith. cbn [forallb].
  destruct (Z.ltb_spec (b / 16) 10); destruct (Z.ltb_spec (b mod 16) 10);
    rewrite !andb_true_iff, !negb_true_iff, !Z.eqb_neq; repeat split;
    divmod.
Qed.

Lemma query_encode_octets (set : Z -> bool) (bs : list Z) :
  spares_uri_safe set -> Forall (fun b => 0 <= b <= 255) bs ->
  query_encode set (percent_octets bs) = percent_octets bs.
Proof.
  intros Q F. apply query_encode_spared; [assumption| |].
  - apply percent_octets_safe; assumption.
  - induction F as [|b bs B _ IH]; [reflexivity|].
    unfold percent_octets in *. cbn [flat_map]. rewrite forallb_app.
    rewrite percent_octet_no_apostrophe by assumption. exact IH.
Qed.

(** An unreserved character through the query state and back. *)
Lemma percent_decode_query_char (set : Z -> bool) (c : Z) (rest : list Z) :
  spares_uri_safe set -> uriUnreserved c = true ->
  percent_decode (query_encode set [c] ++ rest) = c :: percent_decode rest.
Proof.
  intros Q U. unfold query_encode. cbn [flat_map]. rewrite app_nil_r.
  unfold percent_encode_byte.
  assert (S : uri_safe c = true) by (unfold uri_safe; rewrite U; reflexivity).
  destruct (set c) eqn:E.
  - assert (c = 39) as ->.
    { destruct (Z.eq_dec c 39); [assumption|].
      rewrite (Q c S) in E by assumption. discriminate. }
    apply percent_decode_octet. lia.
  - cbn [app]. apply percent_decode_plain. classes.
Qed.

Lemma query_encode_safe (set : Z -> bool) (e : list Z) :
  forallb uri_safe e = true -> forallb uri_safe (query_encode set e) = true.
Proof.
  induction e as [|c e IH]; [reflexivity|].
  cbn [forallb]. rewrite andb_true_iff. intros [S1 S2].
  unfold query_encode in *. cbn [flat_map]. rewrite forallb_app.
  rewrite (IH S2), andb_true_r. unfold percent_encode_byte.
  destruct (set c).
  - apply percent_octet_safe. unfold uri_safe in S1. classes.
  - cbn [forallb]. rewrite S1. reflexivity.
Qed.

(** ** Well-formed strings *)

Lemma isWellFormed_WellFormed (s : jsstring) :
  forallb is_code_unit s = true -> isWellFormed s = true -> WellFormed s.
Proof.
  remember (List.length s) as n eqn:L. revert s L.
  induction n as [n IH] using lt_wf_ind. intros s L U W.
  destruct s as [|c s]; [constructor|].
  cbn [forallb] in U. apply andb_true_iff in U. destruct U as [Uc U].
  cbn [isWellFormed] in W.
  destruct (is_leading_surrogate c) eqn:Lc.
  - destruct s as [|d s]; [discriminate|].
    apply andb_true_iff in W. destruct W as [Td W].
    cbn [forallb] in U. apply andb_true_iff in U. destruct U as [_ U].
    apply wf_pair; auto.
    apply (IH (List.length s)); auto. subst n. cbn [List.length]. lia.
  - apply andb_true_iff in W. destruct W as [Tc W].
    apply wf_unit.
    + unfold is_code_unit in Uc. classes.
    + classes.
    + apply (IH (List.length s)); auto. subst n. cbn [List.length]. lia.
Qed.

Lemma surrogate_pair_scalar (c d : Z) :
  is_leading_surrogate c = true -> is_trailing_surrogate d = true ->
  scalar_value (UTF16SurrogatePairToCodePoint c d)
  /\ 65536 <= UTF16SurrogatePairToCodePoint c d
  /\ UTF16EncodeCodePoint (UTF16SurrogatePairToCodePoint c d) = [c; d].
Proof.
  intros C D. unfold scalar_value, UTF16SurrogatePairToCodePoint,
    UTF16EncodeCodePoint.
  assert (55296 <= c <= 56319 /\ 56320 <= d <= 57343) as [Rc Rd]
    by (split; classes).
  repeat split; try lia.
  destruct (Z.leb_spec ((c - 55296) * 1024 + (d - 56320) + 65536) 65535);
    [lia|].
  f_equal; [|f_equal]; divmod.
Qed.

Lemma to_of_scalar_values (s : jsstring) :
  WellFormed s -> of_scalar_values (to_scalar_values s) = s.
Proof.
  induction 1 as [|c s R S _ IH|c d s C D _ IH]; [reflexivity| |].
  - cbn [to_scalar_values].
    replace (is_leading_surrogate c) with false by (symmetry; classes).
    replace (is_trailing_surrogate c) with false by (symmetry; classes).
    unfold of_scalar_values in *. cbn [flat_map]. rewrite IH.
    unfold UTF16EncodeCodePoint.
    destruct (Z.leb_spec c 65535); [reflexivity|lia].
  - cbn [to_scalar_values]. rewrite C, D.
    unfold of_scalar_values in *. cbn [flat_map]. rewrite IH.
    destruct (surrogate_pair_scalar c d C D) as [_ [_ ->]]. reflexivity.
Qed.

(** ** [encodeURIComponent], then the query state, then the form decoder *)

Lemma Encode_chain (s : jsstring) :
  WellFormed s ->
  exists e,
    Encode uriUnreserved s = Ok e
    /\ forallb uri_safe e = true
    /\ (s <> [] -> e <> [])
    /\ forall set, spares_uri_safe set ->
         utf8_decode_without_BOM (percent_decode (query_encode set e))
         = to_scalar_values s.
Proof.
  unfold utf8_decode_without_BOM.
  induction 1 as [|c s R S _ IH|c d s C D _ IH].
  - exists []. repeat split; try reflexivity. congruence.
  - destruct IH as [e [E [F [_ Q]]]]. cbn [Encode]. rewrite E.
    assert (Lc : is_leading_surrogate c = false) by classes.
    assert (Tc : is_trailing_surrogate c = false) by classes.
    assert (Sc : scalar_value c) by (unfold scalar_value; split; classes).
    destruct (uriUnreserved c) eqn:U.
    + exists (c :: e). cbn [rmap rbind]. split; [reflexivity|].
      split; [|split; [discriminate|]].
      * cbn [forallb]. unfold uri_safe at 1. rewrite U, F. reflexivity.
      * intros set Qs. change (c :: e) with ([c] ++ e).
        rewrite query_encode_app, (percent_decode_query_char _ _ _ Qs U).
        rewrite utf8_decode_1 by classes. rewrite (Q set Qs).
        cbn [to_scalar_values]. rewrite Lc, Tc. reflexivity.
    + rewrite Lc, Tc.
      pose proof (utf8_encode_cp_bytes c Sc) as B.
      exists (percent_octets (utf8_encode_cp c) ++ e). cbn [rmap rbind].
      split; [reflexivity|]. split; [|split].
      * rewrite forallb_app, (percent_octets_safe _ B), F. reflexivity.
      * intros _ A. apply app_eq_nil in A. destruct A as [A _].
        unfold utf8_encode_cp in A.
        repeat match type of A with
               | context [if ?b then _ else _] => destruct b
               end; discriminate.
      * intros set Qs.
        rewrite query_encode_app, (query_encode_octets _ _ Qs B).
        rewrite (percent_decode_octets _ _ B), (utf8_roundtrip _ _ Sc).
        rewrite (Q set Qs). cbn [to_scalar_values]. rewrite Lc, Tc.
        reflexivity.
  - destruct IH as [e [E [F [_ Q]]]]. cbn [Encode]. rewrite E.
    destruct (surrogate_pair_scalar c d C D) as [Sc [Big _]].
    assert (U : uriUnreserved c = false) by classes.
    rewrite U, C, D.
    pose proof (utf8_encode_cp_bytes _ Sc) as B.
    exists (percent_octets
              (utf8_encode_cp (UTF16SurrogatePairToCodePoint c d)) ++ e).
    cbn [rmap rbind]. split; [reflexivity|]. split; [|split].
    + rewrite forallb_app, (percent_octets_safe _ B), F. reflexivity.
    + intros _ A. apply app_eq_nil in A. destruct A as [A _].
      unfold utf8_encode_cp in A.
      repeat match type of A with
             | context [if ?b then _ else _] => destruct b
             end; discriminate.
    + intros set Qs.
      rewrite query_encode_app, (query_encode_octets _ _ Qs B).
      rewrite (percent_decode_octets _ _ B), (utf8_roundtrip _ _ Sc).
      rewrite (Q set Qs). cbn [to_scalar_values]. rewrite C, D.
      reflexivity.
Qed.

(** ** [decodeURIComponent] undoes [encodeURIComponent] *)

Lemma with_escape_octet {R : Type} (b : Z) (r : jsstring)
    (k : Z -> jsstring -> R) (fail : R) :
  0 <= b <= 255 -> with_escape (percent_octet b ++ r) k fail = k b r.
Proof.
  intros B. unfold percent_octet, with_escape, ParseHexOctet. bits_to_arith.
  destruct (hex_digit_spec (b / 16)) as [H1 [V1 _]]; [divmod|].
  destruct (hex_digit_spec (b mod 16)) as [H2 [V2 _]]; [divmod|].
  cbn [app]. cbn [Z.eqb Pos.eqb]. rewrite H1, H2, V1, V2. cbn [andb].
  f_equal. divmod.
Qed.

(** One step of [Decode] at an escape. *)
Lemma Decode_escape (b0 : Z) (r0 : jsstring) :
  0 <= b0 <= 255 ->
  Decode (percent_octet b0 ++ r0)
  = if b0 <? 128 then rmap (cons b0) (Decode r0)
    else if b0 <? 192 then Throw URIError
    else if b0 <? 224 then
      with_escape r0
        (fun b1 r1 =>
           decoded_cp [b0; b1] (fun u => rmap (app u) (Decode r1)))
        (Throw URIError)
    else if b0 <? 240 then
      with_escape r0
        (fun b1 r1 =>
           with_escape r1
             (fun b2 r2 =>
                decoded_cp [b0; b1; b2] (fun u => rmap (app u) (Decode r2)))
             (Throw URIError))
        (Throw URIError)
    else if b0 <? 248 then
      with_escape r0
        (fun b1 r1 =>
           with_escape r1
             (fun b2 r2 =>
                with_escape r2
                  (fun b3 r3 =>
                     decoded_cp [b0; b1; b2; b3]
                       (fun u => rmap (app u) (Decode r3)))
                  (Throw URIError))
             (Throw URIError))
        (Throw URIError)
    else Throw URIError.
Proof.
  intros B.
  change (percent_octet b0 ++ r0)
    with (37 :: hex_digit (Z.shiftr b0 4) :: hex_digit (Z.land b0 15) :: r0).
  cbn [Decode]. cbn [Z.eqb Pos.eqb].
  change (37 :: hex_digit (Z.shiftr b0 4) :: hex_digit (Z.land b0 15) :: r0)
    with (percent_octet b0 ++ r0).
  rewrite with_escape_octet by assumption. reflexivity.
Qed.

Lemma octets_to_cp_2 (b0 b1 : Z) :
  194 <= b0 <= 223 -> 128 <= b1 <= 191 ->
  utf8_octets_to_cp [b0; b1]
  = Some (Z.lor (Z.shiftl (Z.land b0 31) 6) (Z.land b1 63)).
Proof.
  intros B0 B1. unfold utf8_octets_to_cp.
  replace (in_range 194 223 b0 && is_cont b1) with true
    by (symmetry; classes).
  reflexivity.
Qed.

Lemma octets_to_cp_3 (b0 b1 b2 : Z) :
  224 <= b0 <= 239 -> 128 <= b1 <= 191 ->
  (b0 = 224 -> 160 <= b1) -> (b0 = 237 -> b1 <= 159) ->
  128 <= b2 <= 191 ->
  utf8_octets_to_cp [b0; b1; b2]
  = Some (Z.lor (Z.shiftl (Z.land b0 15) 12)
            (Z.lor (Z.shiftl (Z.land b1 63) 6) (Z.land b2 63))).
Proof.
  intros B0 B1 L U B2. unfold utf8_octets_to_cp.
  assert (T : in_range (if b0 =? 224 then 160 else 128)
                (if b0 =? 237 then 159 else 191) b1 = true).
  { destruct (Z.eqb_spec b0 224); destruct (Z.eqb_spec b0 237); classes. }
  rewrite T.
  replace (in_range 224 239 b0) with true by (symmetry; classes).
  replace (is_cont b2) with true by (symmetry; classes).
  reflexivity.
Qed.

Lemma octets_to_cp_4 (b0 b1 b2 b3 : Z) :
  240 <= b0 <= 244 -> 128 <= b1 <= 191 ->
  (b0 = 240 -> 144 <= b1) -> (b0 = 244 -> b1 <= 143) ->
  128 <= b2 <= 191 -> 128 <= b3 <= 191 ->
  utf8_octets_to_cp [b0; b1; b2; b3]
  = Some (Z.lor (Z.shiftl (Z.land b0 7) 18)
            (Z.lor (Z.shiftl (Z.land b1 63) 12)
               (Z.lor (Z.shiftl (Z.land b2 63) 6) (Z.land b3 63)))).
Proof.
  intros B0 B1 L U B2 B3. unfold utf8_octets_to_cp.
  assert (T : in_range (if b0 =? 240 then 144 else 128)
                (if b0 =? 244 then 143 else 191) b1 = true).
  { destruct (Z.eqb_spec b0 240); destruct (Z.eqb_spec b0 244); classes. }
  rewrite T.
  replace (in_range 240 244 b0) with true by (symmetry; classes).
  replace (is_cont b2) with true by (symmetry; classes).
  replace (is_cont b3) with true by (symmetry; classes).
  reflexivity.
Qed.

(** The octets written for a scalar value are read back as that value. *)
Lemma octets_to_cp_encode (cp : Z) :
  scalar_value cp -> 127 < cp ->
  utf8_octets_to_cp (utf8_encode_cp cp) = Some cp.
Proof.
  intros [R S] Big. unfold utf8_encode_cp.
  destruct (Z.leb_spec cp 127); [lia|].
  destruct (Z.leb_spec cp 2047); [|destruct (Z.leb_spec cp 65535)];
    bits_to_arith;
    rewrite ?lor_128, ?lor_192, ?lor_224, ?lor_240 by divmod.
  - rewrite octets_to_cp_2 by divmod. f_equal.
    bits_to_arith. rewrite lor_join_6 by divmod. divmod.
  - rewrite octets_to_cp_3 by divmod. f_equal.
    bits_to_arith. rewrite lor_join_6 by divmod.
    rewrite lor_join_12 by divmod. divmod.
  - rewrite octets_to_cp_4 by divmod. f_equal.
    bits_to_arith. rewrite lor_join_6 by divmod.
    rewrite lor_join_12 by divmod. rewrite lor_join_18 by divmod. divmod.
Qed.

Lemma rmap_cons_app (c : Z) (r : Result jsstring) :
  rmap (cons c) r = rmap (app [c]) r.
Proof. destruct r; reflexivity. Qed.

Lemma Decode_octets (cp : Z) (rest : jsstring) :
  scalar_value cp ->
  Decode (percent_octets (utf8_encode_cp cp) ++ rest)
  = rmap (app (UTF16EncodeCodePoint cp)) (Decode rest).
Proof.
  intros Sc. destruct (Z.leb_spec cp 127) as [Small|Big].
  - destruct Sc as [R _]. unfold utf8_encode_cp, percent_octets.
    destruct (Z.leb_spec cp 127); [|lia]. cbn [flat_map].
    rewrite app_nil_r, Decode_escape by lia.
    destruct (Z.ltb_spec cp 128); [|lia].
    unfold UTF16EncodeCodePoint. destruct (Z.leb_spec cp 65535); [|lia].
    apply rmap_cons_app.
  - pose proof (octets_to_cp_encode cp Sc Big) as V.
    pose proof (utf8_encode_cp_bytes cp Sc) as B. revert V B.
    unfold utf8_encode_cp.
    destruct (Z.leb_spec cp 127); [lia|].
    destruct Sc as [R S].
    destruct (Z.leb_spec cp 2047); [|destruct (Z.leb_spec cp 65535)];
      intros V B; unfold percent_octets; cbn [flat_map];
      rewrite <- ?app_assoc, ?app_nil_l;
      repeat match goal with
             | H : Forall _ (_ :: _) |- _ => inversion H; clear H; subst
             end.
    + rewrite Decode_escape by assumption.
      bits_to_arith. rewrite lor_192 by divmod.
      destruct (Z.ltb_spec (192 + cp / 64) 128); [divmod|].
      destruct (Z.ltb_spec (192 + cp / 64) 192); [divmod|].
      destruct (Z.ltb_spec (192 + cp / 64) 224); [|divmod].
      rewrite with_escape_octet by (bits_to_arith; assumption).
      unfold decoded_cp. bits_to_arith. rewrite lor_192 in V by divmod.
      rewrite V. reflexivity.
    + rewrite Decode_escape by assumption.
      bits_to_arith. rewrite lor_224 by divmod.
      destruct (Z.ltb_spec (224 + cp / 4096) 128); [divmod|].
      destruct (Z.ltb_spec (224 + cp / 4096) 192); [divmod|].
      destruct (Z.ltb_spec (224 + cp / 4096) 224); [divmod|].
      destruct (Z.ltb_spec (224 + cp / 4096) 240); [|divmod].
      rewrite !with_escape_octet by (bits_to_arith; assumption).
      unfold decoded_cp. bits_to_arith. rewrite lor_224 in V by divmod.
      rewrite V. reflexivity.
    + rewrite Decode_escape by assumption.
      bits_to_arith. rewrite lor_240 by divmod.
      destruct (Z.ltb_spec (240 + cp / 262144) 128); [divmod|].
      destruct (Z.ltb_spec (240 + cp / 262144) 192); [divmod|].
      destruct (Z.ltb_spec (240 + cp / 262144) 224); [divmod|].
      destruct (Z.ltb_spec (240 + cp / 262144) 240); [divmod|].
      destruct (Z.ltb_spec (240 + cp / 262144) 248); [|divmod].
      rewrite !with_escape_octet by (bits_to_arith; assumption).
      unfold decoded_cp. bits_to_arith. rewrite lor_240 in V by divmod.
      rewrite V. reflexivity.
Qed.

Lemma Encode_Decode (s : jsstring) :
  WellFormed s ->
  forall e, Encode uriUnreserved s = Ok e -> Decode e = Ok s.
Proof.
  induction 1 as [|c s R S _ IH|c d s C D _ IH]; intros e E.
  - inversion E; subst. reflexivity.
  - cbn [Encode] in E.
    assert (Lc : is_leading_surrogate c = false) by classes.
    assert (Tc : is_trailing_surrogate c = false) by classes.
    assert (Sc : scalar_value c) by (unfold scalar_value; split; classes).
    destruct (Encode uriUnreserved s) as [e'|]; [|
      destruct (uriUnreserved c); [discriminate|];
      rewrite Lc, Tc in E; discriminate].
    specialize (IH e' eq_refl).
    destruct (uriUnreserved c) eqn:U.
    + inversion E; subst. cbn [Decode].
      replace (c =? 37) with false by (symmetry; classes).
      rewrite IH. reflexivity.
    + rewrite Lc, Tc in E. inversion E; subst.
      rewrite (Decode_octets c e' Sc), IH. cbn [rmap rbind].
      unfold UTF16EncodeCodePoint.
      destruct (Z.leb_spec c 65535); [reflexivity|lia].
  - cbn [Encode] in E.
    assert (U : uriUnreserved c = false) by classes.
    rewrite U, C, D in E.
    destruct (Encode uriUnreserved s) as [e'|]; [|discriminate].
    specialize (IH e' eq_refl). inversion E; subst.
    destruct (surrogate_pair_scalar c d C D) as [Sc [_ Enc]].
    rewrite (Decode_octets _ e' Sc), IH. cbn [rmap rbind].
    rewrite Enc. reflexivity.
Qed.

(** ** Lists that a pass leaves as they are *)

Lemma forallb_cons_iff (p : Z -> bool) (c : Z) (l : list Z) :
  forallb p (c :: l) = true <-> p c = true /\ forallb p l = true.
Proof. cbn [forallb]. apply andb_true_iff. Qed.

Lemma span_all (p : Z -> bool) (l : list Z) :
  forallb p l = true -> span p l = (l, []).
Proof.
  induction l as [|c l IH]; [reflexivity|].
  rewrite forallb_cons_iff. intros [C L]. cbn [span]. rewrite C, (IH L).
  reflexivity.
Qed.

Lemma split_on_none (sep : Z) (l : list Z) :
  forallb (fun c => negb (c =? sep)) l = true -> split_on sep l = [l].
Proof.
  induction l as [|c l IH]; [reflexivity|].
  rewrite forallb_cons_iff, negb_true_iff. intros [C L].
  cbn [split_on]. rewrite C, (IH L). reflexivity.
Qed.

Lemma filter_all (p : Z -> bool) (l : list Z) :
  forallb p l = true -> filter p l = l.
Proof.
  induction l as [|c l IH]; [reflexivity|].
  rewrite forallb_cons_iff. intros [C L]. cbn [filter]. rewrite C, (IH L).
  reflexivity.
Qed.

Lemma drop_while_none (p : Z -> bool) (l : list Z) :
  forallb (fun c => negb (p c)) l = true -> drop_while p l = l.
Proof.
  destruct l as [|c l]; [reflexivity|].
  rewrite forallb_cons_iff, negb_true_iff. intros [C _].
  cbn [drop_while]. rewrite C. reflexivity.
Qed.

Lemma forallb_rev (p : Z -> bool) (l : list Z) :
  forallb p l = true -> forallb p (rev l) = true.
Proof.
  rewrite !forallb_forall. intros A x I. apply A, in_rev, I.
Qed.

Lemma strip_none (l : list Z) :
  forallb (fun c => negb (is_C0_or_space c)) l = true -> strip l = l.
Proof.
  intros A. unfold strip. rewrite (drop_while_none _ _ A).
  rewrite (drop_while_none _ _ (forallb_rev _ _ A)). apply rev_involutive.
Qed.

Lemma plus_to_space_none (l : list Z) :
  forallb (fun c => negb (c =? 43)) l = true -> plus_to_space l = l.
Proof.
  induction l as [|c l IH]; [reflexivity|].
  rewrite forallb_cons_iff, negb_true_iff. intros [C L].
  unfold plus_to_space in *. cbn [map]. rewrite C, (IH L). reflexivity.
Qed.

Lemma utf8_encode_ascii (l : list Z) :
  forallb is_ascii l = true -> utf8_encode l = l.
Proof.
  induction l as [|c l IH]; [reflexivity|].
  rewrite forallb_cons_iff. intros [C L].
  unfold utf8_encode in *. cbn [flat_map]. rewrite (IH L).
  unfold utf8_encode_cp. destruct (Z.leb_spec c 127); [reflexivity|classes].
Qed.

Lemma to_scalar_values_plain (l : list Z) :
  forallb (fun c => negb (is_surrogate c)) l = true ->
  to_scalar_values l = l.
Proof.
  induction l as [|c l IH]; [reflexivity|].
  rewrite forallb_cons_iff, negb_true_iff. intros [C L].
  cbn [to_scalar_values].
  replace (is_leading_surrogate c) with false by (symmetry; classes).
  replace (is_trailing_surrogate c) with false by (symmetry; classes).
  rewrite (IH L). reflexivity.
Qed.

Lemma Decode_plain (s : jsstring) :
  forallb (fun c => negb (c =? 37)) s = true -> Decode s = Ok s.
Proof.
  induction s as [|c s IH]; [reflexivity|].
  rewrite forallb_cons_iff, negb_true_iff. intros [C S].
  cbn [Decode]. rewrite C, (IH S). reflexivity.
Qed.

(** What the passes need of the alphabet. *)
Lemma uri_safe_facts (c : Z) :
  uri_safe c = true ->
  is_ascii c = true /\ is_surrogate c = false /\ is_C0_or_space c = false
  /\ is_tab_or_newline c = false /\ c <> 35 /\ c <> 38 /\ c <> 43
  /\ c <> 61 /\ c <> 63 /\ c <> 64.
Proof. unfold uri_safe. intros S. repeat split; classes. Qed.

Lemma uri_safe_forall (q : Z -> bool) (e : list Z) :
  (forall c, uri_safe c = true -> q c = true) ->
  forallb uri_safe e = true -> forallb q e = true.
Proof. apply forallb_impl. Qed.

Ltac safe_side :=
  match goal with
  | F : forallb uri_safe ?e = true |- forallb _ ?e = true =>
      revert F; apply uri_safe_forall;
      let c := fresh "c" in
      let S := fresh "S" in
      intros c S; destruct (uri_safe_facts c S) as (?&?&?&?&?&?&?&?&?&?);
      rewrite ?negb_true_iff, ?Z.eqb_neq; auto
  end.

(** ** The standard parser on a deep link *)

Lemma parse_query_m (special : bool) (path e : list Z) :
  forallb (fun c => negb (mem c [63; 35])) path = true ->
  forallb uri_safe e = true ->
  parse_query special (path ++ js "?m=" ++ e)
  = Some (js "m="
          ++ query_encode (if special then special_query_set else query_set)
               e).
Proof.
  intros Pa F. unfold parse_query.
  assert (S1 : span (fun c => negb (mem c [63; 35])) (path ++ js "?m=" ++ e)
               = (path, js "?m=" ++ e)).
  { clear F. induction path as [|c path IH]; [reflexivity|].
    apply forallb_cons_iff in Pa. destruct Pa as [C Pa].
    cbn [app span]. rewrite C, (IH Pa). reflexivity. }
  rewrite S1. change (js "?m=" ++ e) with (63 :: js "m=" ++ e).
  cbn [Z.eqb Pos.eqb].
  assert (S2 : span (fun c => negb (c =? 35)) (js "m=" ++ e)
               = (js "m=" ++ e, [])).
  { apply span_all. change (js "m=" ++ e) with (109 :: 61 :: e).
    cbn [forallb]. cbn [Z.eqb Pos.eqb negb andb]. safe_side. }
  rewrite S2. f_equal. unfold utf8_percent_encode.
  rewrite utf8_encode_ascii.
  - fold (query_encode (if special then special_query_set else query_set)
            (js "m=" ++ e)).
    rewrite query_encode_app. f_equal. destruct special; reflexivity.
  - change (js "m=" ++ e) with (109 :: 61 :: e).
    cbn [forallb]. change (is_ascii 109) with true.
    change (is_ascii 61) with true. cbn [andb]. safe_side.
Qed.

(** Printable ASCII goes through the parser's input passes unchanged. *)
Lemma link_passes (prefix e : list Z) :
  forallb (in_range 33 126) prefix = true -> forallb uri_safe e = true ->
  remove_tab_newline (strip (to_scalar_values (prefix ++ e))) = prefix ++ e.
Proof.
  intros Fp Fe.
  assert (F : forallb (in_range 33 126) (prefix ++ e) = true).
  { rewrite forallb_app, Fp. cbn [andb]. revert Fe. apply forallb_impl.
    intros c S. unfold uri_safe in S. classes. }
  rewrite to_scalar_values_plain
    by (revert F; apply forallb_impl; intros c S; classes).
  rewrite strip_none
    by (revert F; apply forallb_impl; intros c S; classes).
  unfold remove_tab_newline. apply filter_all.
  revert F; apply forallb_impl; intros c S; classes.
Qed.

Section Links.
Context `{UnicodeIDNA}.

Lemma AppTsx_link_by_standard (e : list Z) :
  forallb uri_safe e = true ->
  whatwg_URL (js "nfcmsg://read?m=" ++ e)
  = Ok (mkURL (js "nfcmsg") (Some (OpaqueHost (js "read")))
          (Some (js "m=" ++ query_encode query_set e))).
Proof.
  intros F. unfold whatwg_URL, basic_URL_parse.
  rewrite (link_passes (js "nfcmsg://read?m=") e eq_refl F).
  change (parse_scheme (js "nfcmsg://read?m=" ++ e))
    with (Some (js "nfcmsg", js "//read?m=" ++ e)).
  cbv beta iota zeta.
  change (is_special (js "nfcmsg")) with false.
  change (list_eqb (js "nfcmsg") (js "file")) with false.
  cbv beta iota.
  change (js "//read?m=" ++ e) with (47 :: 47 :: js "read?m=" ++ e).
  cbv beta iota. cbn [Z.eqb Pos.eqb andb].
  change (parse_authority false (js "read?m=" ++ e))
    with (Some (Some (OpaqueHost (js "read")), [] ++ js "?m=" ++ e)).
  cbv beta iota.
  rewrite (parse_query_m false [] e eq_refl F). reflexivity.
Qed.

Lemma Part000_link_by_standard (e : list Z) :
  forallb uri_safe e = true ->
  whatwg_URL (js "https://nfcmsg.test/read?m=" ++ e)
  = Ok (mkURL (js "https") (Some (Domain (js "nfcmsg.test")))
          (Some (js "m=" ++ query_encode special_query_set e))).
Proof.
  intros F. unfold whatwg_URL, basic_URL_parse.
  rewrite (link_passes (js "https://nfcmsg.test/read?m=") e eq_refl F).
  change (parse_scheme (js "https://nfcmsg.test/read?m=" ++ e))
    with (Some (js "https", js "//nfcmsg.test/read?m=" ++ e)).
  cbv beta iota zeta.
  change (is_special (js "https")) with true.
  change (list_eqb (js "https") (js "file")) with false.
  cbv beta iota.
  change (parse_authority true
            (drop_while is_slash (js "//nfcmsg.test/read?m=" ++ e)))
    with (Some (Some (Domain (js "nfcmsg.test")),
                js "/read" ++ js "?m=" ++ e)).
  cbv beta iota.
  rewrite (parse_query_m true (js "/read") e eq_refl F). reflexivity.
Qed.

End Links.

(** ** The [m] parameter of a query ["m=..."], by the standard *)

Lemma whatwg_get_m (u : URLRecord) (q : list Z) :
  url_query u = Some (js "m=" ++ q) -> forallb uri_safe q = true ->
  whatwg_get u (js "m")
  = Some (of_scalar_values (utf8_decode_without_BOM (percent_decode q))).
Proof.
  intros Q F. unfold whatwg_get, whatwg_searchParams. rewrite Q.
  assert (A : forallb uri_safe (109 :: q) = true)
    by (rewrite forallb_cons_iff; split; [reflexivity|exact F]).
  rewrite utf8_encode_ascii.
  2:{ change (js "m=" ++ q) with (109 :: 61 :: q). cbn [forallb].
      change (is_ascii 109) with true. change (is_ascii 61) with true.
      cbn [andb]. safe_side. }
  unfold urlencoded_parse. rewrite split_on_none.
  2:{ change (js "m=" ++ q) with (109 :: 61 :: q). cbn [forallb].
      cbn [Z.eqb Pos.eqb negb andb]. safe_side. }
  cbn [flat_map]. rewrite app_nil_r.
  change (js "m=" ++ q) with (109 :: 61 :: q). unfold urlencoded_pair.
  change (span (fun c => negb (c =? 61)) (109 :: 61 :: q))
    with ([109], 61 :: q).
  cbn [tl]. unfold urlencoded_decode at 2.
  rewrite plus_to_space_none by safe_side.
  change (urlencoded_decode [109]) with [109].
  change (to_scalar_values (js "m")) with [109].
  cbn [whatwg_params_get]. rewrite list_eqb_refl. reflexivity.
Qed.

(** ** The component's [URL] on a string with a query *)

Lemma includes_char_absent (c : Z) (l : list Z) :
  forallb (fun x => negb (x =? c)) l = true -> includes [c] l = false.
Proof.
  induction l as [|x l IH]; [reflexivity|].
  rewrite forallb_cons_iff, negb_true_iff. intros [X L].
  cbn [includes starts_with]. rewrite Z.eqb_sym, X, (IH L). reflexivity.
Qed.

Lemma includes_char_present (c : Z) (a b : list Z) :
  includes [c] (a ++ c :: b) = true.
Proof.
  induction a as [|x a IH]; cbn [app includes starts_with].
  - rewrite Z.eqb_refl. reflexivity.
  - rewrite IH. apply orb_true_r.
Qed.

Lemma after_first_app (c : Z) (a b : list Z) :
  forallb (fun x => negb (x =? c)) a = true ->
  after_first c (a ++ c :: b) = Some b.
Proof.
  induction a as [|x a IH]; cbn [app after_first].
  - intros _. rewrite Z.eqb_refl. reflexivity.
  - rewrite forallb_cons_iff, negb_true_iff. intros [X A].
    rewrite X. exact (IH A).
Qed.

(** A string with a ["?"] and no ["#"] is kept as it is. *)
Lemma new_URL_with_query (pre q : jsstring) :
  forallb (fun x => negb (x =? 35)) pre = true ->
  forallb (fun x => negb (x =? 35)) q = true ->
  new_URL (pre ++ 63 :: q) = Ok (mkURLObject (pre ++ 63 :: q)).
Proof.
  intros P Q. unfold new_URL. change (js "#") with [35].
  change (js "?") with [63].
  rewrite includes_char_absent
    by (rewrite forallb_app, P; cbn [forallb andb]; exact Q).
  cbn [rbind]. rewrite includes_char_present. cbn [orb negb].
  rewrite andb_false_r. reflexivity.
Qed.

Lemma search_with_query (pre q : jsstring) :
  forallb (fun x => negb (x =? 63)) pre = true ->
  forallb (fun x => negb (x =? 35)) q = true ->
  search (mkURLObject (pre ++ 63 :: q)) = 63 :: q.
Proof.
  intros P Q. unfold search. cbn [raw_url].
  rewrite (after_first_app 63 pre q P), (span_all _ q Q). reflexivity.
Qed.

(** [searchParams.get('m')] on the search ["?m=..."] of an encoded text. *)
Lemma searchParams_get_m (u : URL) (e s : jsstring) :
  search u = js "?m=" ++ e -> forallb uri_safe e = true -> Decode e = Ok s ->
  searchParams_get u (js "m") = Ok (Some s).
Proof.
  intros Q F D. unfold searchParams_get, URLSearchParams. rewrite Q.
  change (js "?m=" ++ e) with (63 :: 109 :: 61 :: e).
  cbn [Z.eqb Pos.eqb]. cbv beta iota zeta.
  rewrite split_on_none.
  2:{ cbn [forallb]. cbn [Z.eqb Pos.eqb negb andb]. safe_side. }
  cbn [map_result]. unfold append_pair.
  assert (S : split_on 61 (109 :: 61 :: e) = [[109]; e]).
  { cbn [split_on]. cbn [Z.eqb Pos.eqb].
    rewrite split_on_none by safe_side. reflexivity. }
  rewrite S. cbn [map_result].
  change (decode_part [109]) with (Ok (A := jsstring) [109]).
  unfold decode_part, decodeURIComponent.
  rewrite plus_to_space_none by safe_side. rewrite D.
  cbn [rbind rmap hd nth_error List.concat app entries_get].
  change (js "m") with [109]. rewrite list_eqb_refl. reflexivity.
Qed.

Lemma query_link (pre e s : jsstring) :
  forallb (fun c => negb (mem c [35; 63])) pre = true ->
  forallb uri_safe e = true -> Decode e = Ok s ->
  new_URL (pre ++ js "?m=" ++ e) = Ok (mkURLObject (pre ++ js "?m=" ++ e))
  /\ searchParams_get (mkURLObject (pre ++ js "?m=" ++ e)) (js "m")
     = Ok (Some s).
Proof.
  intros P F D.
  assert (P35 : forallb (fun x => negb (x =? 35)) pre = true)
    by (revert P; apply forallb_impl; intros c C; classes).
  assert (P63 : forallb (fun x => negb (x =? 63)) pre = true)
    by (revert P; apply forallb_impl; intros c C; classes).
  assert (Q : forallb (fun x => negb (x =? 35)) (js "m=" ++ e) = true).
  { change (js "m=" ++ e) with (109 :: 61 :: e). cbn [forallb].
    cbn [Z.eqb Pos.eqb negb andb]. safe_side. }
  change (js "?m=" ++ e) with (63 :: js "m=" ++ e). split.
  - exact (new_URL_with_query pre _ P35 Q).
  - apply (searchParams_get_m _ e s); [|exact F|exact D].
    exact (search_with_query pre _ P63 Q).
Qed.

(** *** The links the component builds *)

Lemma AppTsx_link_URL (e s : jsstring) :
  forallb uri_safe e = true -> Decode e = Ok s ->
  exists u,
    new_URL (js "nfcmsg://read?m=" ++ e) = Ok u
    /\ protocol u = js "nfcmsg:"
    /\ hostname u = []
    /\ searchParams_get u (js "m") = Ok (Some s).
Proof.
  intros F D.
  destruct (query_link (js "nfcmsg://read") e s eq_refl F D) as [U G].
  exists (mkURLObject (js "nfcmsg://read?m=" ++ e)).
  split; [exact U|]. split; [reflexivity|]. split; [reflexivity|exact G].
Qed.

Lemma Part000_link_URL (e s : jsstring) :
  forallb uri_safe e = true -> Decode e = Ok s ->
  exists u,
    new_URL (js "https://nfcmsg.test/read?m=" ++ e) = Ok u
    /\ protocol u = js "https:"
    /\ hostname u = js "nfcmsg.test"
    /\ searchParams_get u (js "m") = Ok (Some s).
Proof.
  intros F D.
  destruct (query_link (js "https://nfcmsg.test/read") e s eq_refl F D)
    as [U G].
  exists (mkURLObject (js "https://nfcmsg.test/read?m=" ++ e)).
  split; [exact U|]. split; [reflexivity|]. split; [|exact G].
  unfold hostname, match_hostname. cbn [raw_url].
  change (after_http (js "https://nfcmsg.test/read?m=" ++ e))
    with (Some (js "nfcmsg.test/read?m=" ++ e)).
  cbv beta iota.
  rewrite span_all.
  2:{ rewrite forallb_app. apply andb_true_iff. split; [reflexivity|].
      safe_side. }
  reflexivity.
Qed.

(** ** The protocol and the text of a URL *)

Lemma split_on_not_nil (sep : Z) (l : list Z) : split_on sep l <> [].
Proof.
  destruct l as [|c l]; cbn [split_on]; [discriminate|].
  destruct (c =? sep); [discriminate|].
  destruct (split_on sep l); discriminate.
Qed.

Lemma join_split_hash (l : jsstring) :
  join [47; 35] (split_on 35 l) = slash_hashes l.
Proof.
  induction l as [|c l IH]; [reflexivity|].
  unfold slash_hashes in *. cbn [split_on flat_map].
  pose proof (split_on_not_nil 35 l) as N.
  destruct (split_on 35 l) as [|q qs]; [congruence|].
  destruct (c =? 35).
  - change (join [47; 35] ([] :: q :: qs))
      with ([47; 35] ++ join [47; 35] (q :: qs)).
    rewrite IH. reflexivity.
  - rewrite <- IH. destruct qs; reflexivity.
Qed.

Lemma match_protocol_Some (t p : jsstring) :
  match_protocol t = Some p ->
  p <> [] /\ forallb is_protocol_char p = true
  /\ exists rest, t = p ++ 58 :: rest.
Proof.
  unfold match_protocol. destruct t as [|c tl]; [discriminate|].
  destruct (is_alpha c) eqn:A; [|discriminate].
  destruct (span is_protocol_char tl) as [body rest] eqn:S.
  destruct rest as [|x after]; [discriminate|].
  destruct (Z.eqb_spec x 58) as [->|]; [|discriminate].
  intros E; inversion E; subst; clear E.
  apply span_spec in S. destruct S as [F ->].
  split; [discriminate|]. split; [|exists after; reflexivity].
  cbn [forallb]. rewrite F, andb_true_r. classes.
Qed.

Lemma snoc_keeps_prefix (l p rest : list Z) (x : Z) :
  l ++ [x] = p ++ 58 :: rest -> x <> 58 -> exists r, l = p ++ 58 :: r.
Proof.
  intros E N.
  destruct (exists_last (l := 58 :: rest)) as [r [y R]]; [discriminate|].
  rewrite R, app_assoc in E. apply app_inj_tail in E. destruct E as [E X].
  destruct r as [|z r]; cbn [app] in R; inversion R; subst.
  - contradiction N; reflexivity.
  - exists r. reflexivity.
Qed.

(** A run of protocol characters and the colon after it survive the
    rewriting of the ["#"]. *)
Lemma slash_hashes_prefix (p l rest : list Z) :
  forallb is_protocol_char p = true ->
  slash_hashes l = p ++ 58 :: rest -> exists r, l = p ++ 58 :: r.
Proof.
  unfold slash_hashes. revert l.
  induction p as [|c p IH]; intros l F E.
  - destruct l as [|x l]; [discriminate|]. cbn [flat_map app] in E.
    destruct (Z.eqb_spec x 35); inversion E; subst.
    exists l. reflexivity.
  - apply forallb_cons_iff in F. destruct F as [C F].
    destruct l as [|x l]; [discriminate|]. cbn [flat_map app] in E.
    destruct (Z.eqb_spec x 35) as [->|].
    + inversion E; subst. exfalso. revert C. clear. classes.
    + inversion E; subst. destruct (IH l F H1) as [r ->].
      exists r. reflexivity.
Qed.

(** What the constructor keeps of the string it is given. *)
Lemma new_URL_raw (url : jsstring) (u : URL) :
  new_URL url = Ok u ->
  raw_url u = url \/ raw_url u = url ++ [47]
  \/ raw_url u = slash_hashes url \/ raw_url u = slash_hashes url ++ [47].
Proof.
  unfold new_URL. change (js "/#") with [47; 35].
  rewrite join_split_hash. change (js "/") with [47].
  destruct (includes (js "#") url).
  - destruct (nth_error _ 1) as [website|]; [|discriminate].
    cbn [rbind]. intros E; inversion E; subst; clear E. cbn [raw_url].
    destruct (negb (includes [47] website));
      match goal with |- context [if ?b then _ else _] => destruct b end;
      auto.
  - cbn [rbind]. intros E; inversion E; subst; clear E. cbn [raw_url].
    match goal with |- context [if ?b then _ else _] => destruct b end;
      auto.
Qed.

Lemma new_URL_protocol_prefix (url : jsstring) (u : URL) (p : jsstring) :
  new_URL url = Ok u -> match_protocol (raw_url u) = Some p ->
  exists rest, url = p ++ 58 :: rest.
Proof.
  intros U M. apply match_protocol_Some in M.
  destruct M as [_ [F [rest R]]].
  destruct (new_URL_raw url u U) as [E|[E|[E|E]]]; rewrite E in R.
  - eauto.
  - apply snoc_keeps_prefix in R; [exact R|discriminate].
  - exact (slash_hashes_prefix p url rest F R).
  - apply snoc_keeps_prefix in R; [|discriminate].
    destruct R as [r R]. exact (slash_hashes_prefix p url r F R).
Qed.

(** The [protocol] getter answers [scheme ++ ":"] only for a string that
    starts with it. *)
Lemma protocol_starts (url : jsstring) (u : URL) (scheme : jsstring) :
  new_URL url = Ok u -> protocol u = scheme ++ js ":" ->
  exists rest, url = scheme ++ 58 :: rest.
Proof.
  intros U Pr. unfold protocol in Pr.
  destruct (match_protocol (raw_url u)) as [p|] eqn:M.
  - apply app_inv_tail in Pr. subst p.
    exact (new_URL_protocol_prefix url u scheme U M).
  - destruct scheme; discriminate.
Qed.

(** *** The scheme, by the standard *)

Lemma to_scalar_values_prefix (p l : list Z) :
  forallb (fun c => negb (is_surrogate c)) p = true ->
  to_scalar_values (p ++ l) = p ++ to_scalar_values l.
Proof.
  induction p as [|c p IH]; [reflexivity|].
  rewrite forallb_cons_iff, negb_true_iff. intros [C P].
  cbn [app to_scalar_values].
  replace (is_leading_surrogate c) with false by (symmetry; classes).
  replace (is_trailing_surrogate c) with false by (symmetry; classes).
  rewrite (IH P). reflexivity.
Qed.

Lemma drop_while_app (f : Z -> bool) (a b : list Z) :
  drop_while f (a ++ b)
  = if forallb f a then drop_while f b else drop_while f a ++ b.
Proof.
  induction a as [|c a IH]; [reflexivity|].
  cbn [app drop_while forallb]. destruct (f c); [exact IH|reflexivity].
Qed.

Lemma strip_prefix (p l : list Z) :
  p <> [] -> forallb (fun c => negb (is_C0_or_space c)) p = true ->
  exists l', strip (p ++ l) = p ++ l'.
Proof.
  intros N P. unfold strip.
  rewrite (drop_while_app _ p l).
  assert (A : forallb is_C0_or_space p = false).
  { destruct p as [|c p]; [congruence|].
    apply forallb_cons_iff in P. destruct P as [C _].
    apply negb_true_iff in C. cbn [forallb]. rewrite C. reflexivity. }
  rewrite A, (drop_while_none _ _ P), rev_app_distr, drop_while_app.
  rewrite (drop_while_none _ _ (forallb_rev _ _ P)).
  destruct (forallb is_C0_or_space (rev l)).
  - exists []. rewrite rev_involutive, app_nil_r. reflexivity.
  - exists (rev (drop_while is_C0_or_space (rev l))).
    rewrite rev_app_distr, rev_involutive. reflexivity.
Qed.

Lemma span_until (p : Z -> bool) (a : list Z) (c : Z) (rest : list Z) :
  forallb p a = true -> p c = false -> span p (a ++ c :: rest) = (a, c :: rest).
Proof.
  intros A C. induction a as [|x a IH]; cbn [app span].
  - rewrite C. reflexivity.
  - apply forallb_cons_iff in A. destruct A as [X A].
    rewrite X, (IH A). reflexivity.
Qed.

Lemma span_unique (q : Z -> bool) (a b x y : list Z) (c : Z) :
  forallb q a = true -> forallb q b = true -> q c = false ->
  a ++ c :: x = b ++ c :: y -> a = b.
Proof.
  intros A B C E.
  pose proof (span_until q a c x A C) as S1.
  pose proof (span_until q b c y B C) as S2.
  rewrite E in S1. rewrite S1 in S2. inversion S2. reflexivity.
Qed.

Section SchemeByStandard.
Context `{UnicodeIDNA}.

(** The scheme of a parsed URL is the text before the first colon of the
    input (trimmed, tabs and newlines removed), in lower case. *)
Lemma whatwg_scheme_prefix (url : jsstring) (u : URLRecord) :
  whatwg_URL url = Ok u ->
  exists body rest,
    remove_tab_newline (strip (to_scalar_values url)) = body ++ 58 :: rest
    /\ forallb is_scheme_char body = true
    /\ url_scheme u = map to_lower body.
Proof.
  unfold whatwg_URL, basic_URL_parse.
  destruct (parse_scheme _) as [[sch after]|] eqn:S; [|discriminate].
  cbv zeta.
  destruct (if list_eqb sch (js "file") then _ else _) as [[host rest]|];
    [|discriminate].
  intros E; inversion E; subst; clear E. cbn [url_scheme].
  unfold parse_scheme in S.
  destruct (remove_tab_newline _) as [|c tl]; [discriminate|].
  destruct (is_alpha c) eqn:A; [|discriminate].
  destruct (span is_scheme_char tl) as [body rest'] eqn:Sp.
  destruct rest' as [|x after']; [discriminate|].
  destruct (Z.eqb_spec x 58) as [->|]; [|discriminate].
  inversion S; subst; clear S.
  apply span_spec in Sp. destruct Sp as [F ->].
  exists (c :: body), after. repeat split.
  cbn [forallb]. rewrite F, andb_true_r. classes.
Qed.

(** A string that starts with scheme characters and a colon has them, in
    lower case, as its scheme. *)
Lemma whatwg_scheme_of_text (p rest : list Z) (w : URLRecord) :
  p <> [] -> forallb is_scheme_char p = true ->
  whatwg_URL (p ++ 58 :: rest) = Ok w -> url_scheme w = map to_lower p.
Proof.
  intros N F W.
  destruct (whatwg_scheme_prefix _ _ W) as [body [r [E [Fb ->]]]].
  f_equal.
  assert (P : forallb (in_range 33 126) (p ++ [58]) = true).
  { rewrite forallb_app, andb_true_iff. split; [|reflexivity].
    revert F. apply forallb_impl. intros c C. classes. }
  replace (p ++ 58 :: rest) with ((p ++ [58]) ++ rest) in E
    by (rewrite <- app_assoc; reflexivity).
  rewrite to_scalar_values_prefix in E
    by (revert P; apply forallb_impl; intros c C; classes).
  destruct (strip_prefix (p ++ [58]) (to_scalar_values rest)) as [l' S].
  { destruct p; discriminate. }
  { revert P. apply forallb_impl. intros c C. classes. }
  rewrite S in E. unfold remove_tab_newline in E.
  rewrite filter_app, filter_all, <- app_assoc in E
    by (revert P; apply forallb_impl; intros c C; classes).
  symmetry. exact (span_unique is_scheme_char p body _ r 58 F Fb eq_refl E).
Qed.

Lemma AppTsx_decode_scheme (url : jsstring) (w : URLRecord) :
  whatwg_URL url = Ok w -> url_scheme w <> AppTsx.SCHEME ->
  AppTsx.parseMessageFromUrl (Some url) = Ok None.
Proof.
  intros W N.
  destruct (AppTsx_decode_returns (Some url)) as [[msg|] E]; [|exact E].
  exfalso. apply N.
  destruct (AppTsx_decode_present _ _ E) as [s [u [raw [S [U [Pr _]]]]]].
  inversion S; subst s.
  destruct (protocol_starts _ _ _ U Pr) as [rest ->].
  exact (whatwg_scheme_of_text AppTsx.SCHEME rest w ltac:(discriminate)
           eq_refl W).
Qed.

Lemma Part000_decode_scheme (url : jsstring) (w : URLRecord) :
  whatwg_URL url = Ok w -> url_scheme w <> Part000.SCHEME ->
  Part000.parseMessageFromUrl (Some url) = Ok None.
Proof.
  intros W N.
  destruct (Part000_decode_returns (Some url)) as [[msg|] E]; [|exact E].
  exfalso. apply N.
  destruct (Part000_decode_present _ _ E) as [s [u [raw [S [U [Pr _]]]]]].
  inversion S; subst s.
  destruct (protocol_starts _ _ _ U Pr) as [rest ->].
  exact (whatwg_scheme_of_text Part000.SCHEME rest w ltac:(discriminate)
           eq_refl W).
Qed.

End SchemeByStandard.

(** ** Strings the decoder turns down *)

Lemma AppTsx_decode_other_text (url : jsstring) :
  starts_with (AppTsx.SCHEME ++ js ":") url = false ->
  AppTsx.parseMessageFromUrl (Some url) = Ok None.
Proof.
  intros T.
  destruct (AppTsx_decode_returns (Some url)) as [[msg|] E]; [|exact E].
  destruct (AppTsx_decode_present _ _ E) as [s [u [raw [S [U [Pr _]]]]]].
  inversion S; subst s.
  destruct (protocol_starts _ _ _ U Pr) as [rest ->]. discriminate T.
Qed.

Lemma Part000_decode_other_text (url : jsstring) :
  starts_with (Part000.SCHEME ++ js ":") url = false ->
  Part000.parseMessageFromUrl (Some url) = Ok None.
Proof.
  intros T.
  destruct (Part000_decode_returns (Some url)) as [[msg|] E]; [|exact E].
  destruct (Part000_decode_present _ _ E) as [s [u [raw [S [U [Pr _]]]]]].
  inversion S; subst s.
  destruct (protocol_starts _ _ _ U Pr) as [rest ->]. discriminate T.
Qed.








(** ** Decoding a built link *)

Lemma decode_raw_plain (s : jsstring) :
  s <> [] -> forallb (fun c => negb (c =? 37)) s = true ->
  decode_raw s = Some s.
Proof.
  intros N P. unfold decode_raw, decodeURIComponent.
  rewrite (truthy_nonempty s N), (Decode_plain s P). reflexivity.
Qed.

Lemma AppTsx_decode_of_built (s : jsstring) :
  WellFormed s ->
  exists link,
    AppTsx.buildDeepLink s = Ok link
    /\ AppTsx.parseMessageFromUrl (Some link) = Ok (decode_raw s).
Proof.
  intros W. destruct (Encode_chain s W) as [e [E [F _]]].
  destruct (AppTsx_link_URL e s F (Encode_Decode s W e E))
    as [u [U [Pr [_ G]]]].
  exists (js "nfcmsg://read?m=" ++ e). split.
  - unfold AppTsx.buildDeepLink, encodeURIComponent. rewrite E. reflexivity.
  - apply (AppTsx_decode_raw _ u); [discriminate|exact U|exact Pr|exact G].
Qed.

Lemma Part000_decode_of_built (s : jsstring) :
  WellFormed s ->
  exists link,
    Part000.buildDeepLink s = Ok link
    /\ Part000.parseMessageFromUrl (Some link) = Ok (decode_raw s).
Proof.
  intros W. destruct (Encode_chain s W) as [e [E [F _]]].
  destruct (Part000_link_URL e s F (Encode_Decode s W e E))
    as [u [U [Pr [Ho G]]]].
  exists (js "https://nfcmsg.test/read?m=" ++ e). split.
  - unfold Part000.buildDeepLink, encodeURIComponent. rewrite E. reflexivity.
  - apply (Part000_decode_raw _ u);
      [discriminate|exact U|exact Pr|exact Ho|exact G].
Qed.

(** ** Round trip *)

Lemma AppTsx_round_trip_wf (s : jsstring) :
  s <> [] -> WellFormed s -> forallb (fun c => negb (c =? 37)) s = true ->
  exists link,
    AppTsx.buildDeepLink s = Ok link
    /\ AppTsx.parseMessageFromUrl (Some link) = Ok (Some s).
Proof.
  intros N W P. destruct (AppTsx_decode_of_built s W) as [link [B D]].
  exists link. rewrite D, (decode_raw_plain s N P). auto.
Qed.

Lemma Part000_round_trip_wf (s : jsstring) :
  s <> [] -> WellFormed s -> forallb (fun c => negb (c =? 37)) s = true ->
  exists link,
    Part000.buildDeepLink s = Ok link
    /\ Part000.parseMessageFromUrl (Some link) = Ok (Some s).
Proof.
  intros N W P. destruct (Part000_decode_of_built s W) as [link [B D]].
  exists link. rewrite D, (decode_raw_plain s N P). auto.
Qed.

(** * The claims *)

(** C1 (as amended).  Round trip of the link codec: for every non-empty,
    well-formed string [s] (no lone surrogate) without a percent sign, both
    revisions build a deep link from [s], and decoding that link yields
    exactly [s]. *)
Theorem round_trip_well_formed (s : jsstring) :
  s <> [] ->
  forallb is_code_unit s = true ->
  isWellFormed s = true ->
  forallb (fun c => negb (c =? 37)) s = true ->
  (exists link,
     AppTsx.buildDeepLink s = Ok link
     /\ AppTsx.parseMessageFromUrl (Some link) = Ok (Some s))
  /\ (exists link,
        Part000.buildDeepLink s = Ok link
        /\ Part000.parseMessageFromUrl (Some link) = Ok (Some s)).
Proof.
  intros N U W P. pose proof (isWellFormed_WellFormed s U W) as WF. split.
  - apply AppTsx_round_trip_wf; assumption.
  - apply Part000_round_trip_wf; assumption.
Qed.

(** [sample_message] goes round. *)
Lemma round_trip_well_formed_witness :
  (sample_message <> []
   /\ forallb is_code_unit sample_message = true
   /\ isWellFormed sample_message = true
   /\ forallb (fun c => negb (c =? 37)) sample_message = true)
  /\ (exists link,
        AppTsx.buildDeepLink sample_message = Ok link
        /\ AppTsx.parseMessageFromUrl (Some link)
           = Ok (Some sample_message))
  /\ (exists link,
        Part000.buildDeepLink sample_message = Ok link
        /\ Part000.parseMessageFromUrl (Some link)
           = Ok (Some sample_message)).
Proof.
  assert (A : sample_message <> []) by discriminate.
  split; [repeat split; (exact A || reflexivity)|].
  exact (round_trip_well_formed sample_message A eq_refl
           eq_refl eq_refl).
Defined.

(** C1, counterexample.  The deep link built from the empty string decodes
    to absent, in both revisions. *)
Lemma round_trip_fails_on_empty :
  AppTsx.buildDeepLink [] = Ok (js "nfcmsg://read?m=")
  /\ AppTsx.parseMessageFromUrl (Some (js "nfcmsg://read?m="))
     = Ok None
  /\ Part000.buildDeepLink [] = Ok (js "https://nfcmsg.test/read?m=")
  /\ Part000.parseMessageFromUrl
       (Some (js "https://nfcmsg.test/read?m="))
     = Ok None.
Proof. repeat split; vm_compute; reflexivity. Qed.

(** The value of [searchParams.get] is already percent-decoded, and
    [decodeURIComponent] decodes it again: "100%" comes back absent and
    "%41" comes back as "A". *)
Example percent_sign_is_decoded_twice :
  Part000.buildDeepLink (js "100%")
  = Ok (js "https://nfcmsg.test/read?m=100%25")
  /\ Part000.parseMessageFromUrl
       (Some (js "https://nfcmsg.test/read?m=100%25"))
     = Ok None
  /\ AppTsx.buildDeepLink (js "%41") = Ok (js "nfcmsg://read?m=%2541")
  /\ AppTsx.parseMessageFromUrl
       (Some (js "nfcmsg://read?m=%2541"))
     = Ok (Some (js "A")).
Proof. repeat split; vm_compute; reflexivity. Qed.

(** A lone surrogate makes [encodeURIComponent] throw: no link is built. *)
Example lone_surrogate_builds_no_link :
  AppTsx.buildDeepLink [55357] = Throw URIError
  /\ Part000.buildDeepLink [97; 56832] = Throw URIError.
Proof. split; reflexivity. Qed.

(** C2.  Session cleanup: whatever the platform answers (every awaited
    call resolving or rejecting), one run of [writeToTag] (either revision)
    or of [readTag] adds exactly one [cancelTechnologyRequest] to the log of
    calls by the time the handler returns. *)
Theorem session_released_exactly_once (P : Platform) :
  (forall link st log,
     count_calls is_cancel (log_of (AppTsx.writeToTag P link (st, log)))
     = S (count_calls is_cancel log))
  /\ (forall link st log,
        count_calls is_cancel (log_of (Part000.writeToTag P link (st, log)))
        = S (count_calls is_cancel log))
  /\ (forall st log,
        count_calls is_cancel (log_of (Part000.readTag P (st, log)))
        = S (count_calls is_cancel log)).
Proof.
  split; [|split]; intros.
  - apply AppTsx_writeToTag_cancels_once.
  - apply Part000_writeToTag_cancels_once.
  - apply Part000_readTag_cancels_once.
Qed.

(** C3.  Decode-miss asymmetry, in both revisions: a runtime URL event
    whose decode is absent sets Last Read Message to "No message found" and
    changes nothing else; an initial URL whose decode is absent leaves the
    state as it was.  Neither makes a platform call. *)
Theorem decode_miss_asymmetry :
  (forall url st log,
     AppTsx.parseMessageFromUrl (Some url) = Ok None ->
     AppTsx.onUrlEvent url (st, log)
     = (Ok tt,
        (AppTsx.mkState (AppTsx.input st) (Some (js "No message found")),
         log)))
  /\ (forall url st log,
        AppTsx.parseMessageFromUrl url = Ok None ->
        AppTsx.onInitialURL url (st, log) = (Ok tt, (st, log)))
  /\ (forall url st log,
        Part000.parseMessageFromUrl (Some url) = Ok None ->
        Part000.onUrlEvent url (st, log)
        = (Ok tt,
           (Part000.mkState (Part000.input st) (Some (js "No message found"))
              (Part000.isWriting st) (Part000.isReading st),
            log)))
  /\ (forall url st log,
        Part000.parseMessageFromUrl url = Ok None ->
        Part000.onInitialURL url (st, log) = (Ok tt, (st, log))).
Proof.
  repeat split; intros url st log E.
  - unfold AppTsx.onUrlEvent, bind, lift. rewrite E. reflexivity.
  - unfold AppTsx.onInitialURL, bind, lift. rewrite E. reflexivity.
  - unfold Part000.onUrlEvent, bind, lift. rewrite E. reflexivity.
  - unfold Part000.onInitialURL, bind, lift. rewrite E. reflexivity.
Qed.

(** C8.  Cold start: with the initial URL [nfcmsg://read?m=Hello%20World]
    the listener of [src/App.tsx] sets Last Read Message to "Hello World";
    no handler runs and no platform call is made. *)
Theorem cold_start_scenario (st : AppTsx.AppState) (log : list Call) :
  AppTsx.onInitialURL (Some (js "nfcmsg://read?m=Hello%20World")) (st, log)
  = (Ok tt, (AppTsx.mkState (AppTsx.input st) (Some (js "Hello World")), log)).
Proof. vm_compute. reflexivity. Qed.

(** C5.  Scheme rejection, in both revisions: a URL whose scheme is not the
    configured one decodes to absent, whatever its host and query.  The
    scheme is read three ways: as the URL Standard parses it, as the
    [protocol] getter answers it, and as the text the string starts
    with. *)
Theorem scheme_rejection `{UnicodeIDNA} (url : jsstring) :
  (forall w,
     whatwg_URL url = Ok w ->
     (url_scheme w <> AppTsx.SCHEME ->
      AppTsx.parseMessageFromUrl (Some url) = Ok None)
     /\ (url_scheme w <> Part000.SCHEME ->
         Part000.parseMessageFromUrl (Some url) = Ok None))
  /\ (forall u,
        new_URL url = Ok u ->
        (protocol u <> AppTsx.SCHEME ++ js ":" ->
         AppTsx.parseMessageFromUrl (Some url) = Ok None)
        /\ (protocol u <> Part000.SCHEME ++ js ":" ->
            Part000.parseMessageFromUrl (Some url) = Ok None))
  /\ (starts_with (AppTsx.SCHEME ++ js ":") url = false ->
      AppTsx.parseMessageFromUrl (Some url) = Ok None)
  /\ (starts_with (Part000.SCHEME ++ js ":") url = false ->
      Part000.parseMessageFromUrl (Some url) = Ok None).
Proof.
  split; [|split; [|split]].
  - intros w W. split; intros N.
    + exact (AppTsx_decode_scheme url w W N).
    + exact (Part000_decode_scheme url w W N).
  - intros u U. split; intros N.
    + exact (AppTsx_decode_protocol url u U N).
    + exact (Part000_decode_protocol url u U N).
  - exact (AppTsx_decode_other_text url).
  - exact (Part000_decode_other_text url).
Qed.

(** C6.  Host rejection in the strict revision ([part_000]) does not hold
    of the code.  By the URL Standard the link
    [https://evil.com/@nfcmsg.test/read?m=x] has the configured scheme and
    the host [evil.com], which is not the configured host; the [hostname]
    getter of the component's [URL] skips to the first ["@"] and answers
    [nfcmsg.test], so the guard lets the link through and decode returns
    "x". *)
Theorem host_check_reads_past_at_sign `{UnicodeIDNA} :
  whatwg_URL (js "https://evil.com/@nfcmsg.test/read?m=x")
  = Ok (mkURL Part000.SCHEME (Some (Domain (js "evil.com")))
          (Some (js "m=x")))
  /\ whatwg_hostname
       (mkURL Part000.SCHEME (Some (Domain (js "evil.com")))
          (Some (js "m=x")))
     = js "evil.com"
  /\ list_eqb (js "evil.com") Part000.HOST = false
  /\ new_URL (js "https://evil.com/@nfcmsg.test/read?m=x")
     = Ok (mkURLObject (js "https://evil.com/@nfcmsg.test/read?m=x"))
  /\ hostname (mkURLObject (js "https://evil.com/@nfcmsg.test/read?m=x"))
     = Part000.HOST
  /\ Part000.parseMessageFromUrl
       (Some (js "https://evil.com/@nfcmsg.test/read?m=x"))
     = Ok (Some (js "x")).
Proof. repeat split; vm_compute; reflexivity. Qed.

(** Without an ["@"] the [hostname] getter answers the host: a link to
    another host is rejected. *)
Example other_host_is_rejected :
  hostname (mkURLObject (js "https://example.com/read?m=x"))
  = js "example.com"
  /\ Part000.parseMessageFromUrl (Some (js "https://example.com/read?m=x"))
     = Ok None.
Proof. split; vm_compute; reflexivity. Qed.

(** The custom-scheme revision does not look at the host. *)
Example host_ignored_by_custom_profile :
  AppTsx.parseMessageFromUrl (Some (js "nfcmsg://elsewhere/x?m=hi"))
  = Ok (Some (js "hi")).
Proof. vm_compute. reflexivity. Qed.

(** The component's [URL] off the links the component builds: a fragment
    after the query puts a ["/"] at the end of the message, the scheme is
    compared letter by letter, and a malformed escape in the query makes
    the reading of the parameters throw. *)
Example fragment_scheme_case_and_escape :
  AppTsx.parseMessageFromUrl (Some (js "nfcmsg://read?m=a#frag"))
  = Ok (Some (js "a/"))
  /\ AppTsx.parseMessageFromUrl (Some (js "NFCMSG://read?m=hi")) = Ok None
  /\ AppTsx.parseMessageFromUrl (Some (js "nfcmsg://read?m=%E4")) = Ok None
  /\ hostname (mkURLObject (js "nfcmsg://read?m=x")) = [].
Proof. repeat split; vm_compute; reflexivity. Qed.




(** C4.  Write success: with the draft "Hello from NFC", the link handed
    to [writeToTag] is [buildDeepLink "Hello from NFC"]; when the platform
    grants the session and accepts the write, the handler writes the
    encoding of the one-record message [[uriRecord link]], shows the
    "Success" alert, releases the session and returns; in [part_000] the
    write busy flag is false again. *)
Theorem write_success_scenario (P : Platform) :
  (forall st log link,
     AppTsx.input st = js "Hello from NFC" ->
     AppTsx.buildDeepLink (js "Hello from NFC") = Ok link ->
     on_requestTechnology P NfcTech_Ndef = Ok tt ->
     on_writeNdefMessage P (encodeMessage [uriRecord link]) = Ok tt ->
     AppTsx.deepLink st = Ok link
     /\ AppTsx.writeToTag P link (st, log)
        = (Ok tt,
           (st,
            log ++ [requestTechnology NfcTech_Ndef;
                    writeNdefMessage (encodeMessage [uriRecord link]);
                    Alert_alert (js "Success")
                      (js "Wrote tag:" ++ [10] ++ link);
                    cancelTechnologyRequest])))
  /\ (forall st log link,
        Part000.input st = js "Hello from NFC" ->
        Part000.buildDeepLink (js "Hello from NFC") = Ok link ->
        on_requestTechnology P NfcTech_Ndef = Ok tt ->
        on_writeNdefMessage P (encodeMessage [uriRecord link]) = Ok tt ->
        Part000.deepLink st = Ok link
        /\ Part000.writeToTag P link (st, log)
           = (Ok tt,
              (Part000.setIsWriting false st,
               log ++ [requestTechnology NfcTech_Ndef;
                       writeNdefMessage (encodeMessage [uriRecord link]);
                       Alert_alert (js "Success")
                         (js "Wrote tag:" ++ [10] ++ link);
                       cancelTechnologyRequest]))
        /\ Part000.isWriting
             (state_of (Part000.writeToTag P link (st, log))) = false).
Proof.
  split; intros st log link I B R W.
  - split; [unfold AppTsx.deepLink; rewrite I; exact B|].
    unfold AppTsx.writeToTag. run_handler. rewrite R. run_handler.
    rewrite W. run_handler. rewrite <- !app_assoc. reflexivity.
  - split; [unfold Part000.deepLink; rewrite I; exact B|].
    assert (E : Part000.writeToTag P link (st, log)
                = (Ok tt,
                   (Part000.setIsWriting false st,
                    log ++ [requestTechnology NfcTech_Ndef;
                            writeNdefMessage (encodeMessage [uriRecord link]);
                            Alert_alert (js "Success")
                              (js "Wrote tag:" ++ [10] ++ link);
                            cancelTechnologyRequest]))).
    { unfold Part000.writeToTag. run_handler. rewrite R. run_handler.
      rewrite W. run_handler. rewrite <- !app_assoc. reflexivity. }
    split; [exact E|]. rewrite E. reflexivity.
Qed.

(** C9.  Manual read of a tag without records: when the session is
    granted, the tag is obtained and its message holds no record, [readTag]
    returns without an alert, leaves Last Read Message as it was, sets the
    read busy flag back to false and releases the session. *)
Theorem manual_read_without_records (P : Platform) (st : Part000.AppState)
    (log : list Call) (ndef : option TagEvent) :
  on_requestTechnology P NfcTech_Ndef = Ok tt ->
  on_getTag P = Ok tt ->
  on_getNdefMessage P = Ok ndef ->
  no_records ndef ->
  Part000.readTag P (st, log)
  = (Ok tt,
     (Part000.setIsReading false st,
      log ++ [requestTechnology NfcTech_Ndef; getTag; getNdefMessage;
              cancelTechnologyRequest]))
  /\ Part000.lastRead (state_of (Part000.readTag P (st, log)))
     = Part000.lastRead st
  /\ Part000.isReading (state_of (Part000.readTag P (st, log))) = false
  /\ count_calls is_alert (log_of (Part000.readTag P (st, log)))
     = count_calls is_alert log
  /\ count_calls is_cancel (log_of (Part000.readTag P (st, log)))
     = S (count_calls is_cancel log).
Proof.
  intros R T G N.
  assert (E : Part000.readTag P (st, log)
              = (Ok tt,
                 (Part000.setIsReading false st,
                  log ++ [requestTechnology NfcTech_Ndef; getTag;
                          getNdefMessage; cancelTechnologyRequest]))).
  { unfold Part000.readTag. run_handler. rewrite R. run_handler.
    rewrite T. run_handler. rewrite G. run_handler.
    destruct ndef as [[[[|record records]|]]|]; try contradiction;
      run_handler; rewrite <- !app_assoc; reflexivity. }
  rewrite E. unfold log_of, state_of. cbn [fst snd].
  repeat split; count_log.
Qed.

(** A web link arriving at [src/App.tsx], a custom-scheme link arriving at
    [part_000]. *)
Lemma decode_miss_asymmetry_witness :
  (AppTsx.parseMessageFromUrl (Some (js "https://example.com/?m=x")) = Ok None
   /\ Part000.parseMessageFromUrl (Some (js "nfcmsg://read?m=x")) = Ok None)
  /\ AppTsx.onUrlEvent (js "https://example.com/?m=x") (AppTsx.initial, [])
     = (Ok tt,
        (AppTsx.mkState (js "Hello from NFC") (Some (js "No message found")),
         []))
  /\ AppTsx.onInitialURL (Some (js "https://example.com/?m=x"))
       (AppTsx.initial, [])
     = (Ok tt, (AppTsx.mkState (js "Hello from NFC") None, []))
  /\ Part000.onUrlEvent (js "nfcmsg://read?m=x") (Part000.initial, [])
     = (Ok tt,
        (Part000.mkState (js "Hello from NFC") (Some (js "No message found"))
           false false,
         []))
  /\ Part000.onInitialURL (Some (js "nfcmsg://read?m=x")) (Part000.initial, [])
     = (Ok tt, (Part000.mkState (js "Hello from NFC") None false false, [])).
Proof.
  assert (A : AppTsx.parseMessageFromUrl (Some (js "https://example.com/?m=x"))
              = Ok None)
    by (vm_compute; reflexivity).
  assert (B : Part000.parseMessageFromUrl (Some (js "nfcmsg://read?m=x"))
              = Ok None)
    by (vm_compute; reflexivity).
  split; [exact (conj A B)|].
  destruct decode_miss_asymmetry as [T1 [T2 [T3 T4]]].
  split; [exact (T1 _ AppTsx.initial [] A)|].
  split; [exact (T2 _ AppTsx.initial [] A)|].
  split; [exact (T3 _ Part000.initial [] B)|exact (T4 _ Part000.initial [] B)].
Defined.

Lemma write_success_scenario_witness :
  (AppTsx.input AppTsx.initial = js "Hello from NFC"
   /\ AppTsx.buildDeepLink (js "Hello from NFC")
      = Ok (js "nfcmsg://read?m=Hello%20from%20NFC")
   /\ Part000.input Part000.initial = js "Hello from NFC"
   /\ Part000.buildDeepLink (js "Hello from NFC")
      = Ok (js "https://nfcmsg.test/read?m=Hello%20from%20NFC")
   /\ on_requestTechnology cooperative_platform NfcTech_Ndef = Ok tt)
  /\ AppTsx.writeToTag cooperative_platform
       (js "nfcmsg://read?m=Hello%20from%20NFC") (AppTsx.initial, [])
     = (Ok tt,
        (AppTsx.initial,
         [requestTechnology NfcTech_Ndef;
          writeNdefMessage
            (encodeMessage
               [uriRecord (js "nfcmsg://read?m=Hello%20from%20NFC")]);
          Alert_alert (js "Success")
            (js "Wrote tag:" ++ [10]
             ++ js "nfcmsg://read?m=Hello%20from%20NFC");
          cancelTechnologyRequest]))
  /\ Part000.isWriting
       (state_of
          (Part000.writeToTag cooperative_platform
             (js "https://nfcmsg.test/read?m=Hello%20from%20NFC")
             (Part000.initial, [])))
     = false.
Proof.
  split; [repeat split|].
  destruct (write_success_scenario cooperative_platform) as [T1 T2].
  split.
  - exact (proj2 (T1 AppTsx.initial [] _ eq_refl eq_refl eq_refl eq_refl)).
  - exact (proj2 (proj2 (T2 Part000.initial [] _ eq_refl eq_refl eq_refl
                           eq_refl))).
Defined.

(** An [http] link: its scheme is neither [nfcmsg] nor [https]. *)
Lemma scheme_rejection_witness :
  (whatwg_URL (H := ascii_only_IDNA) (js "http://nfcmsg.test/read?m=x")
   = Ok (mkURL (js "http") (Some (Domain (js "nfcmsg.test")))
           (Some (js "m=x")))
   /\ new_URL (js "http://nfcmsg.test/read?m=x")
      = Ok (mkURLObject (js "http://nfcmsg.test/read?m=x"))
   /\ protocol (mkURLObject (js "http://nfcmsg.test/read?m=x")) = js "http:"
   /\ starts_with (AppTsx.SCHEME ++ js ":") (js "http://nfcmsg.test/read?m=x")
      = false
   /\ starts_with (Part000.SCHEME ++ js ":") (js "http://nfcmsg.test/read?m=x")
      = false)
  /\ AppTsx.parseMessageFromUrl (Some (js "http://nfcmsg.test/read?m=x"))
     = Ok None
  /\ Part000.parseMessageFromUrl (Some (js "http://nfcmsg.test/read?m=x"))
     = Ok None.
Proof.
  assert (W : whatwg_URL (H := ascii_only_IDNA)
                (js "http://nfcmsg.test/read?m=x")
              = Ok (mkURL (js "http") (Some (Domain (js "nfcmsg.test")))
                      (Some (js "m=x"))))
    by (vm_compute; reflexivity).
  split; [repeat split; vm_compute; reflexivity|].
  destruct (@scheme_rejection ascii_only_IDNA
              (js "http://nfcmsg.test/read?m=x")) as [T _].
  destruct (T _ W) as [T1 T2].
  split; [apply T1|apply T2]; discriminate.
Defined.


Lemma manual_read_without_records_witness :
  (on_requestTechnology cooperative_platform NfcTech_Ndef = Ok tt
   /\ on_getTag cooperative_platform = Ok tt
   /\ on_getNdefMessage cooperative_platform
      = Ok (Some (mkTagEvent (Some [])))
   /\ no_records (Some (mkTagEvent (Some []))))
  /\ Part000.readTag cooperative_platform (Part000.initial, [])
     = (Ok tt,
        (Part000.initial,
         [requestTechnology NfcTech_Ndef; getTag; getNdefMessage;
          cancelTechnologyRequest])).
Proof.
  split; [repeat split|].
  exact (proj1 (manual_read_without_records cooperative_platform
                  Part000.initial [] _ eq_refl eq_refl eq_refl I)).
Defined.


(** * Further properties *)

(** ** When [encodeURIComponent] throws *)

Lemma Encode_isWellFormed (s : jsstring) :
  (isWellFormed s = true -> exists e, Encode uriUnreserved s = Ok e)
  /\ (isWellFormed s = false -> Encode uriUnreserved s = Throw URIError).
Proof.
  remember (List.length s) as n eqn:L. revert s L.
  induction n as [n IH] using lt_wf_ind. intros s L.
  destruct s as [|c s];
    [split; [intros _; exists []; reflexivity|discriminate]|].
  cbn [isWellFormed Encode].
  destruct (uriUnreserved c) eqn:U.
  - assert (Lc : is_leading_surrogate c = false) by classes.
    assert (Tc : is_trailing_surrogate c = false) by classes.
    rewrite Lc, Tc. cbn [negb andb].
    destruct (IH (List.length s)) with (s := s) as [A B];
      [subst n; cbn [List.length]; lia|reflexivity|].
    split; intros W.
    + destruct (A W) as [e ->]. eexists; reflexivity.
    + rewrite (B W). reflexivity.
  - destruct (is_leading_surrogate c) eqn:Lc.
    + destruct s as [|d s]; [split; [discriminate|reflexivity]|].
      destruct (is_trailing_surrogate d) eqn:Td; cbn [andb];
        [|split; [discriminate|reflexivity]].
      destruct (IH (List.length s)) with (s := s) as [A B];
        [subst n; cbn [List.length]; lia|reflexivity|].
      split; intros W.
      * destruct (A W) as [e ->]. eexists; reflexivity.
      * rewrite (B W). reflexivity.
    + destruct (is_trailing_surrogate c) eqn:Tc; cbn [negb andb];
        [split; [discriminate|reflexivity]|].
      destruct (IH (List.length s)) with (s := s) as [A B];
        [subst n; cbn [List.length]; lia|reflexivity|].
      split; intros W.
      * destruct (A W) as [e ->]. eexists; reflexivity.
      * rewrite (B W). reflexivity.
Qed.

(** X1.  [buildDeepLink] throws exactly on a lone surrogate. *)
Theorem buildDeepLink_throws_iff_lone_surrogate (message : jsstring) :
  (AppTsx.buildDeepLink message = Throw URIError
   <-> isWellFormed message = false)
  /\ (Part000.buildDeepLink message = Throw URIError
      <-> isWellFormed message = false)
  /\ (isWellFormed message = true ->
      exists encoded,
        encodeURIComponent message = Ok encoded
        /\ AppTsx.buildDeepLink message
           = Ok (js "nfcmsg://read?m=" ++ encoded)
        /\ Part000.buildDeepLink message
           = Ok (js "https://nfcmsg.test/read?m=" ++ encoded)).
Proof.
  destruct (Encode_isWellFormed message) as [A B].
  unfold AppTsx.buildDeepLink, Part000.buildDeepLink, encodeURIComponent.
  destruct (isWellFormed message) eqn:W.
  - destruct (A eq_refl) as [e E]. rewrite E. cbn [rbind].
    repeat split; try discriminate. intros _. exists e. repeat split.
  - rewrite (B eq_refl). cbn [rbind]. repeat split; discriminate.
Qed.

(** ** What a deep link carries *)

Lemma AppTsx_link_carries (s : jsstring) :
  WellFormed s ->
  exists link u,
    AppTsx.buildDeepLink s = Ok link
    /\ new_URL link = Ok u
    /\ protocol u = AppTsx.SCHEME ++ js ":"
    /\ searchParams_get u (js "m") = Ok (Some s).
Proof.
  intros W. destruct (Encode_chain s W) as [e [E [F _]]].
  destruct (AppTsx_link_URL e s F (Encode_Decode s W e E))
    as [u [U [Pr [_ G]]]].
  exists (js "nfcmsg://read?m=" ++ e), u. split; [|auto].
  unfold AppTsx.buildDeepLink, encodeURIComponent. rewrite E. reflexivity.
Qed.

Lemma Part000_link_carries (s : jsstring) :
  WellFormed s ->
  exists link u,
    Part000.buildDeepLink s = Ok link
    /\ new_URL link = Ok u
    /\ protocol u = Part000.SCHEME ++ js ":"
    /\ hostname u = Part000.HOST
    /\ searchParams_get u (js "m") = Ok (Some s).
Proof.
  intros W. destruct (Encode_chain s W) as [e [E [F _]]].
  destruct (Part000_link_URL e s F (Encode_Decode s W e E))
    as [u [U [Pr [Ho G]]]].
  exists (js "https://nfcmsg.test/read?m=" ++ e), u. split; [|auto].
  unfold Part000.buildDeepLink, encodeURIComponent. rewrite E. reflexivity.
Qed.

Section CarriedByStandard.
Context `{UnicodeIDNA}.

Lemma AppTsx_link_is_URL (s : jsstring) :
  WellFormed s ->
  exists link w,
    AppTsx.buildDeepLink s = Ok link
    /\ whatwg_URL link = Ok w
    /\ url_scheme w = AppTsx.SCHEME
    /\ whatwg_hostname w = AppTsx.HOST
    /\ whatwg_get w (js "m") = Some s.
Proof.
  intros W. destruct (Encode_chain s W) as [e [E [F [_ Q]]]].
  exists (js "nfcmsg://read?m=" ++ e). eexists. split; [|split].
  - unfold AppTsx.buildDeepLink, encodeURIComponent. rewrite E. reflexivity.
  - exact (AppTsx_link_by_standard e F).
  - split; [reflexivity|]. split; [reflexivity|].
    erewrite whatwg_get_m;
      [|reflexivity|apply query_encode_safe; exact F].
    rewrite (Q _ query_set_spares), (to_of_scalar_values s W). reflexivity.
Qed.

Lemma Part000_link_is_URL (s : jsstring) :
  WellFormed s ->
  exists link w,
    Part000.buildDeepLink s = Ok link
    /\ whatwg_URL link = Ok w
    /\ url_scheme w = Part000.SCHEME
    /\ whatwg_hostname w = Part000.HOST
    /\ whatwg_get w (js "m") = Some s.
Proof.
  intros W. destruct (Encode_chain s W) as [e [E [F [_ Q]]]].
  exists (js "https://nfcmsg.test/read?m=" ++ e). eexists. split; [|split].
  - unfold Part000.buildDeepLink, encodeURIComponent. rewrite E. reflexivity.
  - exact (Part000_link_by_standard e F).
  - split; [reflexivity|]. split; [reflexivity|].
    erewrite whatwg_get_m;
      [|reflexivity|apply query_encode_safe; exact F].
    rewrite (Q _ special_query_set_spares), (to_of_scalar_values s W).
    reflexivity.
Qed.

End CarriedByStandard.

(** X2.  The deep link built from a well-formed message carries the
    message.  The component's [URL] reads it with the configured protocol
    (and, in [part_000], the configured hostname) and with the message as
    the value of [m]; and by the URL Standard it is a URL with the
    configured scheme and host whose [m] parameter is the message. *)
Theorem deep_link_carries_message `{UnicodeIDNA} (message : jsstring) :
  forallb is_code_unit message = true ->
  isWellFormed message = true ->
  (exists link u w,
     AppTsx.buildDeepLink message = Ok link
     /\ new_URL link = Ok u
     /\ protocol u = AppTsx.SCHEME ++ js ":"
     /\ searchParams_get u (js "m") = Ok (Some message)
     /\ whatwg_URL link = Ok w
     /\ url_scheme w = AppTsx.SCHEME
     /\ whatwg_hostname w = AppTsx.HOST
     /\ whatwg_get w (js "m") = Some message)
  /\ (exists link u w,
        Part000.buildDeepLink message = Ok link
        /\ new_URL link = Ok u
        /\ protocol u = Part000.SCHEME ++ js ":"
        /\ hostname u = Part000.HOST
        /\ searchParams_get u (js "m") = Ok (Some message)
        /\ whatwg_URL link = Ok w
        /\ url_scheme w = Part000.SCHEME
        /\ whatwg_hostname w = Part000.HOST
        /\ whatwg_get w (js "m") = Some message).
Proof.
  intros U W. pose proof (isWellFormed_WellFormed _ U W) as WF. split.
  - destruct (AppTsx_link_carries message WF) as [l [u [B [N [Pr G]]]]].
    destruct (AppTsx_link_is_URL message WF) as [l' [w [B' [S [Sc [Ho Gw]]]]]].
    rewrite B in B'. inversion B'; subst l'.
    exists l, u, w. repeat split; assumption.
  - destruct (Part000_link_carries message WF)
      as [l [u [B [N [Pr [Hu G]]]]]].
    destruct (Part000_link_is_URL message WF)
      as [l' [w [B' [S [Sc [Ho Gw]]]]]].
    rewrite B in B'. inversion B'; subst l'.
    exists l, u, w. repeat split; assumption.
Qed.

Lemma built_is_well_formed (message : jsstring) (r : jsstring) :
  encodeURIComponent message = Ok r -> isWellFormed message = true.
Proof.
  intros E. destruct (isWellFormed message) eqn:W; [reflexivity|].
  unfold encodeURIComponent in E.
  rewrite (proj2 (Encode_isWellFormed message) W) in E. discriminate.
Qed.

Lemma AppTsx_built_is_well_formed (message link : jsstring) :
  AppTsx.buildDeepLink message = Ok link -> isWellFormed message = true.
Proof.
  unfold AppTsx.buildDeepLink.
  destruct (encodeURIComponent message) as [e|] eqn:E; [|discriminate].
  intros _. exact (built_is_well_formed _ _ E).
Qed.

Lemma Part000_built_is_well_formed (message link : jsstring) :
  Part000.buildDeepLink message = Ok link -> isWellFormed message = true.
Proof.
  unfold Part000.buildDeepLink.
  destruct (encodeURIComponent message) as [e|] eqn:E; [|discriminate].
  intros _. exact (built_is_well_formed _ _ E).
Qed.

Lemma Encode_injective (s1 s2 e : jsstring) :
  WellFormed s1 -> WellFormed s2 ->
  Encode uriUnreserved s1 = Ok e -> Encode uriUnreserved s2 = Ok e ->
  s1 = s2.
Proof.
  intros W1 W2 E1 E2.
  pose proof (Encode_Decode s1 W1 e E1) as D1.
  rewrite (Encode_Decode s2 W2 e E2) in D1. inversion D1; reflexivity.
Qed.

Lemma AppTsx_buildDeepLink_inj (s1 s2 : jsstring) (link : jsstring) :
  WellFormed s1 -> WellFormed s2 ->
  AppTsx.buildDeepLink s1 = Ok link -> AppTsx.buildDeepLink s2 = Ok link ->
  s1 = s2.
Proof.
  intros W1 W2. unfold AppTsx.buildDeepLink, encodeURIComponent.
  destruct (Encode uriUnreserved s1) as [e1|] eqn:E1; [|discriminate].
  destruct (Encode uriUnreserved s2) as [e2|] eqn:E2; [|discriminate].
  cbn [rbind]. intros B1 B2. rewrite <- B2 in B1. inversion B1; subst e2.
  exact (Encode_injective s1 s2 e1 W1 W2 E1 E2).
Qed.

Lemma Part000_buildDeepLink_inj (s1 s2 : jsstring) (link : jsstring) :
  WellFormed s1 -> WellFormed s2 ->
  Part000.buildDeepLink s1 = Ok link -> Part000.buildDeepLink s2 = Ok link ->
  s1 = s2.
Proof.
  intros W1 W2. unfold Part000.buildDeepLink, encodeURIComponent.
  destruct (Encode uriUnreserved s1) as [e1|] eqn:E1; [|discriminate].
  destruct (Encode uriUnreserved s2) as [e2|] eqn:E2; [|discriminate].
  cbn [rbind]. intros B1 B2. rewrite <- B2 in B1. inversion B1; subst e2.
  exact (Encode_injective s1 s2 e1 W1 W2 E1 E2).
Qed.

(** A link of one revision in the other revision's decoder. *)
Lemma AppTsx_link_in_Part000 (e : list Z) :
  Part000.parseMessageFromUrl (Some (js "nfcmsg://read?m=" ++ e)) = Ok None.
Proof. apply Part000_decode_other_text. reflexivity. Qed.

Lemma Part000_link_in_AppTsx (e : list Z) :
  AppTsx.parseMessageFromUrl (Some (js "https://nfcmsg.test/read?m=" ++ e))
  = Ok None.
Proof. apply AppTsx_decode_other_text. reflexivity. Qed.

(** X3.  Distinct messages give distinct links: a link is built from at most
    one message. *)
Theorem buildDeepLink_injective (m1 m2 link : jsstring) :
  forallb is_code_unit m1 = true -> forallb is_code_unit m2 = true ->
  (AppTsx.buildDeepLink m1 = Ok link -> AppTsx.buildDeepLink m2 = Ok link ->
   m1 = m2)
  /\ (Part000.buildDeepLink m1 = Ok link ->
      Part000.buildDeepLink m2 = Ok link -> m1 = m2).
Proof.
  intros U1 U2. split; intros B1 B2.
  - apply (AppTsx_buildDeepLink_inj m1 m2 link);
      try assumption; apply isWellFormed_WellFormed; try assumption.
    + exact (AppTsx_built_is_well_formed _ _ B1).
    + exact (AppTsx_built_is_well_formed _ _ B2).
  - apply (Part000_buildDeepLink_inj m1 m2 link);
      try assumption; apply isWellFormed_WellFormed; try assumption.
    + exact (Part000_built_is_well_formed _ _ B1).
    + exact (Part000_built_is_well_formed _ _ B2).
Qed.

(** X4.  The two revisions do not read each other's links: whatever the
    message, a link built by one decodes to absent in the other. *)
Theorem revisions_reject_each_other (message link : jsstring) :
  forallb is_code_unit message = true ->
  (AppTsx.buildDeepLink message = Ok link ->
   Part000.parseMessageFromUrl (Some link) = Ok None)
  /\ (Part000.buildDeepLink message = Ok link ->
      AppTsx.parseMessageFromUrl (Some link) = Ok None).
Proof.
  intros U. split; intros B.
  - unfold AppTsx.buildDeepLink in B.
    destruct (encodeURIComponent message) as [e|]; [|discriminate].
    inversion B; subst. exact (AppTsx_link_in_Part000 e).
  - unfold Part000.buildDeepLink in B.
    destruct (encodeURIComponent message) as [e|]; [|discriminate].
    inversion B; subst. exact (Part000_link_in_AppTsx e).
Qed.

(** ** [decodeURIComponent] shortens what holds a percent sign *)

Lemma with_escape_Ok (s : jsstring) (k : Z -> jsstring -> Result jsstring)
    (r : jsstring) :
  with_escape s k (Throw URIError) = Ok r ->
  exists h1 h2 rest b, s = 37 :: h1 :: h2 :: rest /\ k b rest = Ok r.
Proof.
  unfold with_escape. destruct s as [|p [|h1 [|h2 rest]]]; try discriminate.
  destruct (Z.eqb_spec p 37) as [->|]; [|discriminate].
  destruct (ParseHexOctet h1 h2) as [b|]; [|discriminate].
  intros E. exists h1, h2, rest, b. split; [reflexivity|exact E].
Qed.

Lemma decoded_cp_Ok (octets : list Z) (d : Result jsstring) (r : jsstring) :
  decoded_cp octets (fun u => rmap (app u) d) = Ok r ->
  exists u r', d = Ok r' /\ r = u ++ r' /\ (List.length u <= 2)%nat.
Proof.
  unfold decoded_cp. destruct (utf8_octets_to_cp octets) as [v|];
    [|discriminate].
  destruct d as [r'|]; [|discriminate]. cbn [rmap rbind].
  intros E; inversion E; subst. exists (UTF16EncodeCodePoint v), r'.
  repeat split. unfold UTF16EncodeCodePoint.
  destruct (v <=? 65535); cbn [List.length]; lia.
Qed.

Lemma rmap_cons_Ok (b : Z) (d : Result jsstring) (r : jsstring) :
  rmap (cons b) d = Ok r -> exists r', d = Ok r' /\ r = b :: r'.
Proof.
  destruct d as [r'|]; [|discriminate]. cbn [rmap rbind].
  intros E; inversion E; subst. eauto.
Qed.

Lemma Decode_length (s r : jsstring) :
  Decode s = Ok r ->
  (List.length r <= List.length s)%nat
  /\ (has_percent s = true -> (List.length r < List.length s)%nat).
Proof.
  remember (List.length s) as n eqn:L. revert s r L.
  induction n as [n IH] using lt_wf_ind. intros s r L D.
  assert (IH' : forall t q, (List.length t < n)%nat -> Decode t = Ok q ->
                            (List.length q <= List.length t)%nat).
  { intros t q Lt Dt. exact (proj1 (IH _ Lt t q eq_refl Dt)). }
  destruct s as [|c s].
  { cbn in D. inversion D; subst. split; [cbn; lia|discriminate]. }
  cbn [Decode] in D. destruct (Z.eqb_spec c 37) as [->|N].
  - assert (S : (List.length r < n)%nat); [|split; [lia|intros _; exact S]].
    apply with_escape_Ok in D.
    destruct D as [h1 [h2 [r0 [b0 [E0 D]]]]]. inversion E0; subst s.
    cbn [List.length] in L.
    repeat match type of D with
           | (if ?b then _ else _) = Ok _ => destruct b
           end; try discriminate.
    + apply rmap_cons_Ok in D. destruct D as [r' [D ->]].
      apply IH' in D; cbn [List.length]; lia.
    + apply with_escape_Ok in D.
      destruct D as [a1 [a2 [r1 [b1 [E1 D]]]]]. subst r0.
      apply decoded_cp_Ok in D. destruct D as [u [r' [D [-> Lu]]]].
      cbn [List.length] in L.
      apply IH' in D; rewrite ?length_app; lia.
    + apply with_escape_Ok in D.
      destruct D as [a1 [a2 [r1 [b1 [E1 D]]]]]. subst r0.
      apply with_escape_Ok in D.
      destruct D as [c1 [c2 [r2 [b2 [E2 D]]]]]. subst r1.
      apply decoded_cp_Ok in D. destruct D as [u [r' [D [-> Lu]]]].
      cbn [List.length] in L.
      apply IH' in D; rewrite ?length_app; lia.
    + apply with_escape_Ok in D.
      destruct D as [a1 [a2 [r1 [b1 [E1 D]]]]]. subst r0.
      apply with_escape_Ok in D.
      destruct D as [c1 [c2 [r2 [b2 [E2 D]]]]]. subst r1.
      apply with_escape_Ok in D.
      destruct D as [d1 [d2 [r3 [b3 [E3 D]]]]]. subst r2.
      apply decoded_cp_Ok in D. destruct D as [u [r' [D [-> Lu]]]].
      cbn [List.length] in L.
      apply IH' in D; rewrite ?length_app; lia.
  - apply rmap_cons_Ok in D. destruct D as [r' [D ->]].
    cbn [List.length] in L.
    destruct (IH (List.length s)) with (s := s) (r := r') as [A B];
      [lia|reflexivity|exact D|].
    split; [cbn [List.length]; lia|].
    unfold has_percent. cbn [existsb].
    destruct (Z.eqb_spec 37 c) as [E|_]; [congruence|].
    cbn [orb List.length]. intros P. specialize (B P). lia.
Qed.

Lemma Decode_percent_changes (s r : jsstring) :
  has_percent s = true -> Decode s = Ok r -> r <> s.
Proof.
  intros P D E. subst r. destruct (Decode_length s s D) as [_ B].
  specialize (B P). lia.
Qed.

(** ** When the message comes back *)

Lemma has_percent_false (s : jsstring) :
  has_percent s = false -> forallb (fun c => negb (c =? 37)) s = true.
Proof.
  unfold has_percent. induction s as [|c s IH]; [reflexivity|].
  cbn [existsb forallb]. rewrite orb_false_iff. intros [C S].
  rewrite (IH S), andb_true_r, Z.eqb_sym, C. reflexivity.
Qed.

(** The message comes back exactly when it is non-empty and free of
    percent signs. *)
Lemma decode_raw_identity (s : jsstring) :
  decode_raw s = Some s <-> s <> [] /\ has_percent s = false.
Proof.
  unfold decode_raw, decodeURIComponent. split.
  - destruct s as [|c s]; [discriminate|]. cbn [truthy].
    destruct (Decode (c :: s)) as [m|] eqn:D; [|discriminate].
    intros E; inversion E; subst m. split; [discriminate|].
    destruct (has_percent (c :: s)) eqn:P; [|reflexivity].
    exfalso. exact (Decode_percent_changes _ _ P D eq_refl).
  - intros [N P]. rewrite (truthy_nonempty s N).
    rewrite (Decode_plain s (has_percent_false s P)). reflexivity.
Qed.

(** X5.  For a well-formed message, decoding the link built from it gives
    the message back exactly when the message is non-empty and holds no
    percent sign. *)
Theorem round_trip_exactly_when (message : jsstring) :
  forallb is_code_unit message = true ->
  isWellFormed message = true ->
  (exists link,
     AppTsx.buildDeepLink message = Ok link
     /\ (AppTsx.parseMessageFromUrl (Some link) = Ok (Some message)
         <-> message <> [] /\ has_percent message = false))
  /\ (exists link,
        Part000.buildDeepLink message = Ok link
        /\ (Part000.parseMessageFromUrl (Some link) = Ok (Some message)
            <-> message <> [] /\ has_percent message = false)).
Proof.
  intros U W. pose proof (isWellFormed_WellFormed _ U W) as WF. split.
  - destruct (AppTsx_decode_of_built message WF) as [l [B D]].
    exists l. split; [exact B|]. rewrite D.
    rewrite <- decode_raw_identity. split; [intros E; inversion E; auto|].
    intros ->. reflexivity.
  - destruct (Part000_decode_of_built message WF) as [l [B D]].
    exists l. split; [exact B|]. rewrite D.
    rewrite <- decode_raw_identity. split; [intros E; inversion E; auto|].
    intros ->. reflexivity.
Qed.

(** ** [src/App.tsx]: the host is not looked at *)

Lemma AppTsx_any_host_decodes (h s : jsstring) :
  forallb is_alnum h = true -> WellFormed s ->
  exists e,
    encodeURIComponent s = Ok e
    /\ AppTsx.parseMessageFromUrl (Some (js "nfcmsg://" ++ h ++ js "?m=" ++ e))
       = Ok (decode_raw s).
Proof.
  intros A W. destruct (Encode_chain s W) as [e [E [F _]]].
  exists e. split; [exact E|].
  destruct (query_link (js "nfcmsg://" ++ h) e s) as [U G];
    [|exact F|exact (Encode_Decode s W e E)|].
  { rewrite forallb_app. apply andb_true_iff. split; [reflexivity|].
    revert A. apply forallb_impl. intros c C. classes. }
  rewrite <- app_assoc in U, G.
  apply (AppTsx_decode_raw _
           (mkURLObject (js "nfcmsg://" ++ h ++ js "?m=" ++ e)) s);
    [discriminate|exact U|reflexivity|exact G].
Qed.

(** X6.  The custom-scheme revision decodes a link whatever its host: with
    any host of letters and digits, or none, in place of [read], the link
    of a non-empty well-formed message without percent sign decodes to the
    message. *)
Theorem custom_scheme_ignores_host (host message : jsstring) :
  forallb is_alnum host = true ->
  forallb is_code_unit message = true ->
  isWellFormed message = true ->
  message <> [] -> has_percent message = false ->
  exists encoded,
    encodeURIComponent message = Ok encoded
    /\ AppTsx.parseMessageFromUrl
         (Some (js "nfcmsg://" ++ host ++ js "?m=" ++ encoded))
       = Ok (Some message).
Proof.
  intros A U W N P. pose proof (isWellFormed_WellFormed _ U W) as WF.
  destruct (AppTsx_any_host_decodes host message A WF) as [e [E D]].
  exists e. split; [exact E|]. rewrite D. f_equal.
  apply decode_raw_identity. split; assumption.
Qed.

(** ** [part_000]: where the host check holds *)

Lemma slash_hashes_plain (l : list Z) :
  forallb (fun x => negb (x =? 35)) l = true -> slash_hashes l = l.
Proof.
  unfold slash_hashes. induction l as [|x l IH]; [reflexivity|].
  rewrite forallb_cons_iff, negb_true_iff. intros [X L]. cbn [flat_map].
  rewrite X, (IH L). reflexivity.
Qed.

Lemma slash_hashes_no_at (l : list Z) :
  forallb (fun x => negb (x =? 64)) l = true ->
  forallb (fun x => negb (x =? 64)) (slash_hashes l) = true.
Proof.
  unfold slash_hashes. induction l as [|x l IH]; [reflexivity|].
  rewrite forallb_cons_iff. intros [X L]. cbn [flat_map].
  rewrite forallb_app, (IH L), andb_true_r.
  destruct (x =? 35); [reflexivity|]. cbn [forallb]. rewrite X. reflexivity.
Qed.

Lemma slash_hashes_ends (rest : list Z) :
  ends_hostname rest = true -> ends_hostname (slash_hashes rest) = true.
Proof.
  destruct rest as [|c rest]; [reflexivity|]. unfold slash_hashes.
  cbn [flat_map ends_hostname]. destruct (c =? 35); [reflexivity|].
  cbn [app]. auto.
Qed.

Lemma snoc_ends (rest : list Z) :
  ends_hostname rest = true -> ends_hostname (rest ++ [47]) = true.
Proof. destruct rest; [reflexivity|]. cbn [app ends_hostname]. auto. Qed.

(** Without an ["@"] the group of the [hostname] getter is the run after
    ["https://"]. *)
Lemma match_hostname_plain (host rest : jsstring) :
  host <> [] -> forallb is_hostname_char host = true ->
  forallb (fun c => negb (c =? 64)) (host ++ rest) = true ->
  ends_hostname rest = true ->
  match_hostname (js "https://" ++ host ++ rest) = Some host.
Proof.
  intros N F A E. unfold match_hostname.
  change (after_http (js "https://" ++ host ++ rest))
    with (Some (host ++ rest)).
  cbv beta iota. rewrite (span_all _ _ A).
  assert (R : hostname_run (host ++ rest) = Some host).
  { unfold hostname_run.
    assert (S : span is_hostname_char (host ++ rest) = (host, rest)).
    { destruct rest as [|c rest].
      - rewrite app_nil_r. exact (span_all _ _ F).
      - apply span_until; [exact F|].
        cbn [ends_hostname] in E. apply negb_true_iff in E. exact E. }
    rewrite S. cbn [fst]. destruct host; [congruence|reflexivity]. }
  rewrite R. destruct (host ++ rest); reflexivity.
Qed.

Lemma hostname_without_at_sign (host rest : jsstring) (u : URL) :
  host <> [] -> forallb is_hostname_char host = true ->
  forallb (fun c => negb (c =? 64)) (host ++ rest) = true ->
  ends_hostname rest = true ->
  new_URL (js "https://" ++ host ++ rest) = Ok u ->
  hostname u = host.
Proof.
  intros N F A E U. unfold hostname.
  assert (H35 : forallb (fun x => negb (x =? 35)) host = true)
    by (revert F; apply forallb_impl; intros c C; classes).
  rewrite forallb_app in A. apply andb_true_iff in A. destruct A as [Ah Ar].
  assert (S : slash_hashes (js "https://" ++ host ++ rest)
              = js "https://" ++ host ++ slash_hashes rest).
  { unfold slash_hashes. rewrite !flat_map_app.
    fold (slash_hashes host). rewrite (slash_hashes_plain host H35).
    reflexivity. }
  destruct (new_URL_raw _ u U) as [R|[R|[R|R]]]; rewrite R, ?S,
    <- ?app_assoc.
  - rewrite match_hostname_plain; auto.
    rewrite forallb_app, Ah, Ar. reflexivity.
  - rewrite match_hostname_plain; auto using snoc_ends.
    rewrite !forallb_app, Ah, Ar. reflexivity.
  - rewrite match_hostname_plain; auto using slash_hashes_ends.
    rewrite forallb_app, Ah, (slash_hashes_no_at _ Ar). reflexivity.
  - rewrite match_hostname_plain;
      auto using snoc_ends, slash_hashes_ends.
    rewrite !forallb_app, Ah, (slash_hashes_no_at _ Ar). reflexivity.
Qed.

(** X17.  Where host rejection holds in [part_000]: a link
    [https://<host><rest>] without an ["@"], whose host is not the
    configured one, decodes to absent, whatever follows the host. *)
Theorem host_rejection_without_at_sign (host rest : jsstring) :
  host <> [] -> forallb is_hostname_char host = true ->
  forallb (fun c => negb (c =? 64)) (host ++ rest) = true ->
  ends_hostname rest = true ->
  host <> Part000.HOST ->
  Part000.parseMessageFromUrl (Some (js "https://" ++ host ++ rest))
  = Ok None.
Proof.
  intros N F A E D.
  destruct (new_URL (js "https://" ++ host ++ rest)) as [u|e] eqn:U.
  - apply (Part000_decode_hostname _ u U).
    rewrite (hostname_without_at_sign host rest u N F A E U). exact D.
  - exact (Part000_decode_no_URL _ e U).
Qed.

(** ** The handlers, outcome by outcome *)

Ltac run_to_end := split_answers; rewrite <- ?app_assoc; cbn [app].

(** X7.  The handlers catch everything: whatever the platform answers,
    [writeToTag] and [readTag] return normally. *)
Theorem handlers_complete_normally (P : Platform) :
  (forall link st log, fst (AppTsx.writeToTag P link (st, log)) = Ok tt)
  /\ (forall link st log, fst (Part000.writeToTag P link (st, log)) = Ok tt)
  /\ (forall st log, fst (Part000.readTag P (st, log)) = Ok tt).
Proof.
  split; [|split]; intros.
  - unfold AppTsx.writeToTag. split_answers; reflexivity.
  - unfold Part000.writeToTag. split_answers; reflexivity.
  - unfold Part000.readTag. split_answers; reflexivity.
Qed.

(** X8.  [writeToTag] changes nothing of the component state but its own
    busy flag, which is false when it returns, whatever the outcome. *)
Theorem writeToTag_leaves_state (P : Platform) :
  (forall link st log, state_of (AppTsx.writeToTag P link (st, log)) = st)
  /\ (forall link st log,
        state_of (Part000.writeToTag P link (st, log))
        = Part000.setIsWriting false st).
Proof.
  split; intros.
  - unfold AppTsx.writeToTag. split_answers; reflexivity.
  - unfold Part000.writeToTag. split_answers; reflexivity.
Qed.

(** X9.  [readTag] leaves the draft and the write flag alone and clears the
    read flag, whatever the outcome; Last Read Message is either kept or
    set to a non-empty text. *)
Theorem readTag_leaves_state (P : Platform) (st : Part000.AppState)
    (log : list Call) :
  let st' := state_of (Part000.readTag P (st, log)) in
  Part000.input st' = Part000.input st
  /\ Part000.isWriting st' = Part000.isWriting st
  /\ Part000.isReading st' = false
  /\ (Part000.lastRead st' = Part000.lastRead st
      \/ exists c text, Part000.lastRead st' = Some (c :: text)).
Proof.
  unfold Part000.readTag. split_answers; cbn; repeat split; eauto.
Qed.

(** X10.  A failed write is shown with its reason: when the session is
    refused nothing is written; when the write is refused the success
    alert does not appear.  Either way one "NFC error" alert carries
    [err?.message ?? String(err)] and the session is released. *)
Theorem writeToTag_failure_is_surfaced (P : Platform) (link : jsstring)
    (err : JsThrown) :
  (on_requestTechnology P NfcTech_Ndef = Throw err ->
   (forall st log,
      log_of (AppTsx.writeToTag P link (st, log))
      = log ++ [requestTechnology NfcTech_Ndef;
                Alert_alert (js "NFC error") (error_text err);
                cancelTechnologyRequest])
   /\ (forall st log,
         log_of (Part000.writeToTag P link (st, log))
         = log ++ [requestTechnology NfcTech_Ndef;
                   Alert_alert (js "NFC error") (error_text err);
                   cancelTechnologyRequest]))
  /\ (on_requestTechnology P NfcTech_Ndef = Ok tt ->
      on_writeNdefMessage P (encodeMessage [uriRecord link]) = Throw err ->
      (forall st log,
         log_of (AppTsx.writeToTag P link (st, log))
         = log ++ [requestTechnology NfcTech_Ndef;
                   writeNdefMessage (encodeMessage [uriRecord link]);
                   Alert_alert (js "NFC error") (error_text err);
                   cancelTechnologyRequest])
      /\ (forall st log,
            log_of (Part000.writeToTag P link (st, log))
            = log ++ [requestTechnology NfcTech_Ndef;
                      writeNdefMessage (encodeMessage [uriRecord link]);
                      Alert_alert (js "NFC error") (error_text err);
                      cancelTechnologyRequest])).
Proof.
  split.
  - intros R. split; intros st log.
    + unfold AppTsx.writeToTag. run_handler. rewrite R. run_handler.
      rewrite <- !app_assoc. reflexivity.
    + unfold Part000.writeToTag. run_handler. rewrite R. run_handler.
      rewrite <- !app_assoc. reflexivity.
  - intros R W. split; intros st log.
    + unfold AppTsx.writeToTag. run_handler. rewrite R. run_handler.
      rewrite W. run_handler. rewrite <- !app_assoc. reflexivity.
    + unfold Part000.writeToTag. run_handler. rewrite R. run_handler.
      rewrite W. run_handler. rewrite <- !app_assoc. reflexivity.
Qed.

(** X11.  A manual read shows the first record: when the session is
    granted and the tag's message starts with a record that has a payload,
    Last Read Message becomes the text decoded from that payload, or
    "No message found" when that text is empty; later records are not
    looked at and no alert is shown. *)
Theorem readTag_shows_first_record (P : Platform) (st : Part000.AppState)
    (log : list Call) (bytes : list Z) (others : list TagRecord)
    (text : jsstring) :
  on_requestTechnology P NfcTech_Ndef = Ok tt ->
  on_getTag P = Ok tt ->
  on_getNdefMessage P
  = Ok (Some (mkTagEvent (Some (mkTagRecord (Some bytes) :: others)))) ->
  text_decodePayload P bytes = Ok text ->
  Part000.readTag P (st, log)
  = (Ok tt,
     (Part000.setIsReading false
        (Part000.setLastRead (text_or_sentinel text) st),
      log ++ [requestTechnology NfcTech_Ndef; getTag; getNdefMessage;
              cancelTechnologyRequest])).
Proof.
  intros R T G D. unfold Part000.readTag. run_handler. rewrite R.
  run_handler. rewrite T. run_handler. rewrite G. run_handler. rewrite D.
  run_handler. rewrite <- !app_assoc.
  destruct text; reflexivity.
Qed.

(** X12.  A failed manual read is shown with its reason and changes no
    message: if the session, the tag, its message or the decoding of the
    payload fails with [err], one "NFC error" alert carries the reason,
    Last Read Message is kept, and the calls after the failing one are not
    made. *)
Theorem readTag_failure_is_surfaced (P : Platform) (st : Part000.AppState)
    (log : list Call) (err : JsThrown) :
  (on_requestTechnology P NfcTech_Ndef = Throw err ->
   Part000.readTag P (st, log)
   = (Ok tt,
      (Part000.setIsReading false st,
       log ++ [requestTechnology NfcTech_Ndef;
               Alert_alert (js "NFC error") (error_text err);
               cancelTechnologyRequest])))
  /\ (on_requestTechnology P NfcTech_Ndef = Ok tt ->
      on_getTag P = Throw err ->
      Part000.readTag P (st, log)
      = (Ok tt,
         (Part000.setIsReading false st,
          log ++ [requestTechnology NfcTech_Ndef; getTag;
                  Alert_alert (js "NFC error") (error_text err);
                  cancelTechnologyRequest])))
  /\ (on_requestTechnology P NfcTech_Ndef = Ok tt ->
      on_getTag P = Ok tt ->
      on_getNdefMessage P = Throw err ->
      Part000.readTag P (st, log)
      = (Ok tt,
         (Part000.setIsReading false st,
          log ++ [requestTechnology NfcTech_Ndef; getTag; getNdefMessage;
                  Alert_alert (js "NFC error") (error_text err);
                  cancelTechnologyRequest])))
  /\ (forall bytes others,
        on_requestTechnology P NfcTech_Ndef = Ok tt ->
        on_getTag P = Ok tt ->
        on_getNdefMessage P
        = Ok (Some (mkTagEvent (Some (mkTagRecord (Some bytes) :: others)))) ->
        text_decodePayload P bytes = Throw err ->
        Part000.readTag P (st, log)
        = (Ok tt,
           (Part000.setIsReading false st,
            log ++ [requestTechnology NfcTech_Ndef; getTag; getNdefMessage;
                    Alert_alert (js "NFC error") (error_text err);
                    cancelTechnologyRequest]))).
Proof.
  repeat split.
  - intros R. unfold Part000.readTag. run_handler. rewrite R. run_handler.
    rewrite <- !app_assoc. reflexivity.
  - intros R T. unfold Part000.readTag. run_handler. rewrite R. run_handler.
    rewrite T. run_handler. rewrite <- !app_assoc. reflexivity.
  - intros R T G. unfold Part000.readTag. run_handler. rewrite R.
    run_handler. rewrite T. run_handler. rewrite G. run_handler.
    rewrite <- !app_assoc. reflexivity.
  - intros bytes others R T G D. unfold Part000.readTag. run_handler.
    rewrite R. run_handler. rewrite T. run_handler. rewrite G. run_handler.
    rewrite D. run_handler. rewrite <- !app_assoc. reflexivity.
Qed.

(** X13.  Every run of a handler is one session: the calls it adds start
    with [requestTechnology], end with [cancelTechnologyRequest], and
    request or release nothing in between; the tag is written or read only
    when the request was granted. *)
Theorem handlers_run_one_session (P : Platform) :
  (forall link st log,
     exists calls,
       log_of (AppTsx.writeToTag P link (st, log)) = log ++ calls
       /\ one_session calls = true
       /\ (existsb is_tag_access calls = true ->
           on_requestTechnology P NfcTech_Ndef = Ok tt))
  /\ (forall link st log,
        exists calls,
          log_of (Part000.writeToTag P link (st, log)) = log ++ calls
          /\ one_session calls = true
          /\ (existsb is_tag_access calls = true ->
              on_requestTechnology P NfcTech_Ndef = Ok tt))
  /\ (forall st log,
        exists calls,
          log_of (Part000.readTag P (st, log)) = log ++ calls
          /\ one_session calls = true
          /\ (existsb is_tag_access calls = true ->
              on_requestTechnology P NfcTech_Ndef = Ok tt)).
Proof.
  split; [|split]; intros.
  - unfold AppTsx.writeToTag. run_handler.
    destruct (on_requestTechnology P NfcTech_Ndef) as [[]|e1] eqn:R;
      run_to_end;
      (eexists; split; [reflexivity|]; split;
       [reflexivity|first [discriminate | intros _; reflexivity]]).
  - unfold Part000.writeToTag. run_handler.
    destruct (on_requestTechnology P NfcTech_Ndef) as [[]|e1] eqn:R;
      run_to_end;
      (eexists; split; [reflexivity|]; split;
       [reflexivity|first [discriminate | intros _; reflexivity]]).
  - unfold Part000.readTag. run_handler.
    destruct (on_requestTechnology P NfcTech_Ndef) as [[]|e1] eqn:R;
      run_to_end;
      (eexists; split; [reflexivity|]; split;
       [reflexivity|first [discriminate | intros _; reflexivity]]).
Qed.

(** ** Last Read Message *)

Lemma AppTsx_decode_ok (url : option jsstring) (r : option jsstring) :
  AppTsx.parseMessageFromUrl url = Ok r -> shown_message_ok r = true.
Proof.
  destruct r as [[|c m]|]; try reflexivity.
  intros E. destruct (AppTsx_decode_nonempty _ _ E). reflexivity.
Qed.

Lemma Part000_decode_ok (url : option jsstring) (r : option jsstring) :
  Part000.parseMessageFromUrl url = Ok r -> shown_message_ok r = true.
Proof.
  destruct r as [[|c m]|]; try reflexivity.
  intros E. destruct (Part000_decode_nonempty _ _ E). reflexivity.
Qed.

Lemma AppTsx_onUrlEvent_shown (url : jsstring) (st : AppTsx.AppState)
    (log : list Call) :
  exists c text,
    AppTsx.lastRead (state_of (AppTsx.onUrlEvent url (st, log)))
    = Some (c :: text).
Proof.
  unfold AppTsx.onUrlEvent, bind, lift, state_of.
  destruct (AppTsx_decode_returns (Some url)) as [r E]. rewrite E.
  pose proof (AppTsx_decode_ok _ _ E) as O.
  destruct r as [[|c m]|]; try discriminate; cbn; eauto.
Qed.

Lemma Part000_onUrlEvent_shown (url : jsstring) (st : Part000.AppState)
    (log : list Call) :
  exists c text,
    Part000.lastRead (state_of (Part000.onUrlEvent url (st, log)))
    = Some (c :: text).
Proof.
  unfold Part000.onUrlEvent, bind, lift, state_of.
  destruct (Part000_decode_returns (Some url)) as [r E]. rewrite E.
  pose proof (Part000_decode_ok _ _ E) as O.
  destruct r as [[|c m]|]; try discriminate; cbn; eauto.
Qed.

Lemma AppTsx_onInitialURL_shown (url : option jsstring)
    (st : AppTsx.AppState) (log : list Call) :
  shown_message_ok (AppTsx.lastRead st) = true ->
  shown_message_ok
    (AppTsx.lastRead (state_of (AppTsx.onInitialURL url (st, log)))) = true.
Proof.
  unfold AppTsx.onInitialURL, bind, lift, state_of.
  destruct (AppTsx_decode_returns url) as [r E]. rewrite E.
  pose proof (AppTsx_decode_ok _ _ E) as O.
  destruct r as [[|c m]|]; try discriminate; cbn; auto.
Qed.

Lemma Part000_onInitialURL_shown (url : option jsstring)
    (st : Part000.AppState) (log : list Call) :
  shown_message_ok (Part000.lastRead st) = true ->
  shown_message_ok
    (Part000.lastRead (state_of (Part000.onInitialURL url (st, log))))
  = true.
Proof.
  unfold Part000.onInitialURL, bind, lift, state_of.
  destruct (Part000_decode_returns url) as [r E]. rewrite E.
  pose proof (Part000_decode_ok _ _ E) as O.
  destruct r as [[|c m]|]; try discriminate; cbn; auto.
Qed.

(** X14.  The listeners touch nothing but Last Read Message: they return
    normally, make no platform call and keep the rest of the state.  A URL
    event always sets a non-empty text; an initial URL sets a non-empty
    text or changes nothing. *)
Theorem listeners_touch_only_last_read :
  (forall url st log,
     exists c text,
       AppTsx.onUrlEvent url (st, log)
       = (Ok tt, (AppTsx.setLastRead (c :: text) st, log)))
  /\ (forall url st log,
        AppTsx.onInitialURL url (st, log) = (Ok tt, (st, log))
        \/ exists c text,
             AppTsx.onInitialURL url (st, log)
             = (Ok tt, (AppTsx.setLastRead (c :: text) st, log)))
  /\ (forall url st log,
        exists c text,
          Part000.onUrlEvent url (st, log)
          = (Ok tt, (Part000.setLastRead (c :: text) st, log)))
  /\ (forall url st log,
        Part000.onInitialURL url (st, log) = (Ok tt, (st, log))
        \/ exists c text,
             Part000.onInitialURL url (st, log)
             = (Ok tt, (Part000.setLastRead (c :: text) st, log))).
Proof.
  repeat split; intros url st log.
  - unfold AppTsx.onUrlEvent, bind, lift.
    destruct (AppTsx_decode_returns (Some url)) as [r E]. rewrite E.
    pose proof (AppTsx_decode_ok _ _ E) as O.
    destruct r as [[|c m]|]; try discriminate;
      first [left; reflexivity
            |right; do 2 eexists; reflexivity
            |do 2 eexists; reflexivity].
  - unfold AppTsx.onInitialURL, bind, lift.
    destruct (AppTsx_decode_returns url) as [r E]. rewrite E.
    pose proof (AppTsx_decode_ok _ _ E) as O.
    destruct r as [[|c m]|]; try discriminate;
      first [left; reflexivity
            |right; do 2 eexists; reflexivity
            |do 2 eexists; reflexivity].
  - unfold Part000.onUrlEvent, bind, lift.
    destruct (Part000_decode_returns (Some url)) as [r E]. rewrite E.
    pose proof (Part000_decode_ok _ _ E) as O.
    destruct r as [[|c m]|]; try discriminate;
      first [left; reflexivity
            |right; do 2 eexists; reflexivity
            |do 2 eexists; reflexivity].
  - unfold Part000.onInitialURL, bind, lift.
    destruct (Part000_decode_returns url) as [r E]. rewrite E.
    pose proof (Part000_decode_ok _ _ E) as O.
    destruct r as [[|c m]|]; try discriminate;
      first [left; reflexivity
            |right; do 2 eexists; reflexivity
            |do 2 eexists; reflexivity].
Qed.

Lemma Part000_readTag_shown (P : Platform) (st : Part000.AppState)
    (log : list Call) :
  shown_message_ok (Part000.lastRead st) = true ->
  shown_message_ok
    (Part000.lastRead (state_of (Part000.readTag P (st, log)))) = true.
Proof.
  intros O. unfold Part000.readTag. split_answers; cbn; auto.
Qed.

(** ** From a written tag to the screen *)

(** X15.  Scanning a tag this revision wrote shows the message: for a
    non-empty well-formed message without percent sign, the link built
    from it, arriving as initial URL or as URL event, sets Last Read
    Message to exactly that message, leaves the rest of the state as it
    was and makes no platform call. *)
Theorem scanned_link_shows_message (message : jsstring) :
  forallb is_code_unit message = true ->
  isWellFormed message = true ->
  message <> [] -> has_percent message = false ->
  (exists link,
     AppTsx.buildDeepLink message = Ok link
     /\ forall st log,
          AppTsx.onInitialURL (Some link) (st, log)
          = (Ok tt, (AppTsx.mkState (AppTsx.input st) (Some message), log))
          /\ AppTsx.onUrlEvent link (st, log)
             = (Ok tt, (AppTsx.mkState (AppTsx.input st) (Some message), log)))
  /\ (exists link,
        Part000.buildDeepLink message = Ok link
        /\ forall st log,
             Part000.onInitialURL (Some link) (st, log)
             = (Ok tt,
                (Part000.mkState (Part000.input st) (Some message)
                   (Part000.isWriting st) (Part000.isReading st),
                 log))
             /\ Part000.onUrlEvent link (st, log)
                = (Ok tt,
                   (Part000.mkState (Part000.input st) (Some message)
                      (Part000.isWriting st) (Part000.isReading st),
                    log))).
Proof.
  intros U W N P. pose proof (isWellFormed_WellFormed _ U W) as WF.
  pose proof (has_percent_false _ P) as P'.
  split.
  - destruct (AppTsx_round_trip_wf message N WF P') as [l [B D]].
    exists l. split; [exact B|]. intros st log.
    unfold AppTsx.onInitialURL, AppTsx.onUrlEvent, bind, lift.
    rewrite D, (truthy_nonempty _ N). split; reflexivity.
  - destruct (Part000_round_trip_wf message N WF P') as [l [B D]].
    exists l. split; [exact B|]. intros st log.
    unfold Part000.onInitialURL, Part000.onUrlEvent, bind, lift.
    rewrite D, (truthy_nonempty _ N). split; reflexivity.
Qed.

Lemma readout_shown (v : option jsstring) :
  shown_message_ok v = true -> exists c text, readout v = c :: text.
Proof.
  destruct v as [[|c text]|]; [discriminate| |]; intros _; cbn; eauto.
Qed.

Lemma AppTsx_reachable_shown (st : AppTsx.AppState) :
  AppTsx_reachable st -> shown_message_ok (AppTsx.lastRead st) = true.
Proof.
  induction 1 as [|v st _ IH|url st log _ IH|url st log _ IH
                 |P link st log _ IH].
  - reflexivity.
  - exact IH.
  - exact (AppTsx_onInitialURL_shown url st log IH).
  - destruct (AppTsx_onUrlEvent_shown url st log) as [c [t E]].
    rewrite E. reflexivity.
  - unfold AppTsx.writeToTag. split_answers; exact IH.
Qed.

Lemma Part000_reachable_shown (st : Part000.AppState) :
  Part000_reachable st -> shown_message_ok (Part000.lastRead st) = true.
Proof.
  induction 1 as [|v st _ IH|url st log _ IH|url st log _ IH
                 |P link st log _ IH|P st log _ IH].
  - reflexivity.
  - exact IH.
  - exact (Part000_onInitialURL_shown url st log IH).
  - destruct (Part000_onUrlEvent_shown url st log) as [c [t E]].
    rewrite E. reflexivity.
  - unfold Part000.writeToTag. split_answers; exact IH.
  - exact (Part000_readTag_shown P st log IH).
Qed.

(** X16.  Last Read Message is never the empty string, so the readout is
    never blank: in every state the component reaches (typing, initial
    URL, URL events, writes and manual reads, in any order and against any
    platform) it is absent or non-empty, and the readout shows a non-empty
    text. *)
Theorem readout_is_never_blank :
  (forall st,
     AppTsx_reachable st ->
     shown_message_ok (AppTsx.lastRead st) = true
     /\ exists c text, readout (AppTsx.lastRead st) = c :: text)
  /\ (forall st,
        Part000_reachable st ->
        shown_message_ok (Part000.lastRead st) = true
        /\ exists c text, readout (Part000.lastRead st) = c :: text).
Proof.
  split; intros st R.
  - pose proof (AppTsx_reachable_shown st R) as O.
    split; [exact O|exact (readout_shown _ O)].
  - pose proof (Part000_reachable_shown st R) as O.
    split; [exact O|exact (readout_shown _ O)].
Qed.

Lemma readout_is_never_blank_witness :
  Part000_reachable
    (state_of
       (Part000.readTag text_tag_platform
          (state_of
             (Part000.onUrlEvent
                (js "https://nfcmsg.test/read?m=") (Part000.initial, [])),
           [])))
  /\ exists c text,
       readout
         (Part000.lastRead
            (state_of
               (Part000.readTag text_tag_platform
                  (state_of
                     (Part000.onUrlEvent
                        (js "https://nfcmsg.test/read?m=")
                        (Part000.initial, [])),
                   []))))
       = c :: text.
Proof.
  assert (R : Part000_reachable
                (state_of
                   (Part000.readTag text_tag_platform
                      (state_of
                         (Part000.onUrlEvent
                            (js "https://nfcmsg.test/read?m=")
                            (Part000.initial, [])),
                       [])))).
  { apply Part000_read, Part000_opened, Part000_mounted. }
  split; [exact R|].
  exact (proj2 (proj2 readout_is_never_blank _ R)).
Defined.

(** ** Instances of the further properties *)

Lemma deep_link_carries_message_witness :
  (forallb is_code_unit sample_message = true
   /\ isWellFormed sample_message = true)
  /\ (exists link u w,
        AppTsx.buildDeepLink sample_message = Ok link
        /\ new_URL link = Ok u
        /\ protocol u = js "nfcmsg:"
        /\ searchParams_get u (js "m") = Ok (Some sample_message)
        /\ whatwg_URL (H := ascii_only_IDNA) link = Ok w
        /\ url_scheme w = js "nfcmsg"
        /\ whatwg_hostname w = js "read"
        /\ whatwg_get w (js "m") = Some sample_message)
  /\ (exists link u w,
        Part000.buildDeepLink sample_message = Ok link
        /\ new_URL link = Ok u
        /\ protocol u = js "https:"
        /\ hostname u = js "nfcmsg.test"
        /\ searchParams_get u (js "m") = Ok (Some sample_message)
        /\ whatwg_URL (H := ascii_only_IDNA) link = Ok w
        /\ url_scheme w = js "https"
        /\ whatwg_hostname w = js "nfcmsg.test"
        /\ whatwg_get w (js "m") = Some sample_message).
Proof.
  split; [split; reflexivity|].
  exact (@deep_link_carries_message ascii_only_IDNA sample_message
           eq_refl eq_refl).
Defined.

Lemma buildDeepLink_injective_witness :
  (forallb is_code_unit (js "a b") = true
   /\ AppTsx.buildDeepLink (js "a b") = Ok (js "nfcmsg://read?m=a%20b"))
  /\ js "a b" = js "a b".
Proof.
  split; [split; reflexivity|].
  exact (proj1 (buildDeepLink_injective (js "a b") (js "a b")
                  (js "nfcmsg://read?m=a%20b") eq_refl eq_refl)
           eq_refl eq_refl).
Defined.

Lemma revisions_reject_each_other_witness :
  (forallb is_code_unit (js "hi") = true
   /\ AppTsx.buildDeepLink (js "hi") = Ok (js "nfcmsg://read?m=hi")
   /\ Part000.buildDeepLink (js "hi") = Ok (js "https://nfcmsg.test/read?m=hi"))
  /\ Part000.parseMessageFromUrl
       (Some (js "nfcmsg://read?m=hi")) = Ok None
  /\ AppTsx.parseMessageFromUrl
       (Some (js "https://nfcmsg.test/read?m=hi")) = Ok None.
Proof.
  split; [repeat split|].
  split.
  - exact (proj1 (revisions_reject_each_other (js "hi")
                    (js "nfcmsg://read?m=hi") eq_refl) eq_refl).
  - exact (proj2 (revisions_reject_each_other (js "hi")
                    (js "https://nfcmsg.test/read?m=hi") eq_refl) eq_refl).
Defined.

Lemma round_trip_exactly_when_witness :
  (forallb is_code_unit (js "50% off") = true
   /\ isWellFormed (js "50% off") = true)
  /\ exists link,
       AppTsx.buildDeepLink (js "50% off") = Ok link
       /\ (AppTsx.parseMessageFromUrl (Some link)
           = Ok (Some (js "50% off"))
           <-> js "50% off" <> [] /\ has_percent (js "50% off") = false).
Proof.
  split; [split; reflexivity|].
  exact (proj1 (round_trip_exactly_when (js "50% off")
                  eq_refl eq_refl)).
Defined.

Lemma custom_scheme_ignores_host_witness :
  (forallb is_alnum (js "elsewhere") = true
   /\ forallb is_alnum [] = true
   /\ forallb is_code_unit sample_message = true
   /\ isWellFormed sample_message = true
   /\ has_percent sample_message = false)
  /\ (exists encoded,
        encodeURIComponent sample_message = Ok encoded
        /\ AppTsx.parseMessageFromUrl
             (Some (js "nfcmsg://" ++ js "elsewhere" ++ js "?m=" ++ encoded))
           = Ok (Some sample_message))
  /\ (exists encoded,
        encodeURIComponent sample_message = Ok encoded
        /\ AppTsx.parseMessageFromUrl
             (Some (js "nfcmsg://" ++ [] ++ js "?m=" ++ encoded))
           = Ok (Some sample_message)).
Proof.
  assert (N : sample_message <> []) by discriminate.
  split; [repeat split|]. split.
  - exact (custom_scheme_ignores_host (js "elsewhere")
             sample_message eq_refl eq_refl eq_refl N eq_refl).
  - exact (custom_scheme_ignores_host [] sample_message
             eq_refl eq_refl eq_refl N eq_refl).
Defined.

Lemma writeToTag_failure_is_surfaced_witness :
  (on_requestTechnology refusing_platform NfcTech_Ndef = Throw no_tag_error
   /\ on_requestTechnology read_only_platform NfcTech_Ndef = Ok tt
   /\ on_writeNdefMessage read_only_platform
        (encodeMessage [uriRecord (js "nfcmsg://read?m=hi")])
      = Throw bare_rejection)
  /\ log_of (Part000.writeToTag refusing_platform (js "nfcmsg://read?m=hi")
               (Part000.initial, []))
     = [requestTechnology NfcTech_Ndef;
        Alert_alert (js "NFC error") (js "no tag");
        cancelTechnologyRequest]
  /\ log_of (AppTsx.writeToTag read_only_platform (js "nfcmsg://read?m=hi")
               (AppTsx.initial, []))
     = [requestTechnology NfcTech_Ndef;
        writeNdefMessage (encodeMessage [uriRecord (js "nfcmsg://read?m=hi")]);
        Alert_alert (js "NFC error") (js "cancelled");
        cancelTechnologyRequest].
Proof.
  split; [repeat split|]. split.
  - exact (proj2 (proj1 (writeToTag_failure_is_surfaced refusing_platform
                            (js "nfcmsg://read?m=hi") no_tag_error) eq_refl)
             Part000.initial []).
  - exact (proj1 (proj2 (writeToTag_failure_is_surfaced read_only_platform
                            (js "nfcmsg://read?m=hi") bare_rejection)
                    eq_refl eq_refl)
             AppTsx.initial []).
Defined.

Lemma readTag_shows_first_record_witness :
  (on_requestTechnology text_tag_platform NfcTech_Ndef = Ok tt
   /\ on_getTag text_tag_platform = Ok tt
   /\ on_getNdefMessage text_tag_platform
      = Ok (Some (mkTagEvent
                    (Some [mkTagRecord (Some (js "hi"));
                           mkTagRecord (Some (js "second"))])))
   /\ text_decodePayload text_tag_platform (js "hi") = Ok (js "hi"))
  /\ Part000.readTag text_tag_platform (Part000.initial, [])
     = (Ok tt,
        (Part000.mkState (js "Hello from NFC") (Some (js "hi")) false false,
         [requestTechnology NfcTech_Ndef; getTag; getNdefMessage;
          cancelTechnologyRequest])).
Proof.
  split; [repeat split|].
  exact (readTag_shows_first_record text_tag_platform Part000.initial []
           (js "hi") [mkTagRecord (Some (js "second"))] (js "hi")
           eq_refl eq_refl eq_refl eq_refl).
Defined.

Lemma readTag_failure_is_surfaced_witness :
  (on_requestTechnology refusing_platform NfcTech_Ndef = Throw no_tag_error
   /\ on_requestTechnology lost_tag_platform NfcTech_Ndef = Ok tt
   /\ on_getTag lost_tag_platform = Throw no_tag_error)
  /\ Part000.readTag refusing_platform (Part000.initial, [])
     = (Ok tt,
        (Part000.initial,
         [requestTechnology NfcTech_Ndef;
          Alert_alert (js "NFC error") (js "no tag");
          cancelTechnologyRequest]))
  /\ Part000.readTag lost_tag_platform (Part000.initial, [])
     = (Ok tt,
        (Part000.initial,
         [requestTechnology NfcTech_Ndef; getTag;
          Alert_alert (js "NFC error") (js "no tag");
          cancelTechnologyRequest])).
Proof.
  split; [repeat split|]. split.
  - exact (proj1 (readTag_failure_is_surfaced refusing_platform
                    Part000.initial [] no_tag_error) eq_refl).
  - exact (proj1 (proj2 (readTag_failure_is_surfaced lost_tag_platform
                           Part000.initial [] no_tag_error))
             eq_refl eq_refl).
Defined.

Lemma scanned_link_shows_message_witness :
  (forallb is_code_unit sample_message = true
   /\ isWellFormed sample_message = true
   /\ has_percent sample_message = false)
  /\ (exists link,
        AppTsx.buildDeepLink sample_message = Ok link
        /\ AppTsx.onInitialURL (Some link) (AppTsx.initial, [])
           = (Ok tt,
              (AppTsx.mkState (js "Hello from NFC") (Some sample_message),
               []))
        /\ AppTsx.onUrlEvent link (AppTsx.initial, [])
           = (Ok tt,
              (AppTsx.mkState (js "Hello from NFC") (Some sample_message),
               [])))
  /\ (exists link,
        Part000.buildDeepLink sample_message = Ok link
        /\ Part000.onInitialURL (Some link) (Part000.initial, [])
           = (Ok tt,
              (Part000.mkState (js "Hello from NFC") (Some sample_message)
                 false false,
               []))
        /\ Part000.onUrlEvent link (Part000.initial, [])
           = (Ok tt,
              (Part000.mkState (js "Hello from NFC") (Some sample_message)
                 false false,
               []))).
Proof.
  assert (N : sample_message <> []) by discriminate.
  split; [repeat split|].
  destruct (scanned_link_shows_message sample_message eq_refl eq_refl N
              eq_refl) as [[l1 [B1 T1]] [l2 [B2 T2]]].
  split.
  - exists l1. split; [exact B1|exact (T1 AppTsx.initial [])].
  - exists l2. split; [exact B2|exact (T2 Part000.initial [])].
Defined.

Lemma host_rejection_without_at_sign_witness :
  (js "evil.com" <> []
   /\ forallb is_hostname_char (js "evil.com") = true
   /\ forallb (fun c => negb (c =? 64)) (js "evil.com" ++ js "/read?m=x#top")
      = true
   /\ ends_hostname (js "/read?m=x#top") = true
   /\ js "evil.com" <> Part000.HOST)
  /\ Part000.parseMessageFromUrl (Some (js "https://evil.com/read?m=x#top"))
     = Ok None.
Proof.
  assert (N : js "evil.com" <> []) by discriminate.
  assert (D : js "evil.com" <> Part000.HOST) by discriminate.
  split; [repeat split; (exact N || exact D || reflexivity)|].
  exact (host_rejection_without_at_sign (js "evil.com") (js "/read?m=x#top")
           N eq_refl eq_refl eq_refl D).
Defined.
